(** * BR2 vision-based smoothing: tracker, posture reconstruction, posture cache

    A shallow embedding of
    - [br2_vision/optical_flow.py]              (class [CameraOpticalFlow]),
    - [br2_vision/data_structure/posture_data.py]
      ([compute_positions_and_directors], class [PostureData]),
    - [script/data_augment_cross_section.py]    ([main]),
    - [script/add_initial_flow_point.py]        (the handlers of the mouse),
    and the properties of these functions that the specification states,
    followed by further properties that the code shows.

    Python exceptions are values of [exn]; a computation that may raise
    returns a [result].  Code that mutates [self] and prints is written in
    a state-and-exception monad whose state survives a raise, as the
    attributes of a Python object do. *)

From Stdlib Require Import ZArith Lia Ascii.
From stdpp Require Import base option list gmap strings pretty.


(** ** Python values shared by the three modules *)

(** Exceptions raised by the modelled code, with the message or the name
    they carry where the code decides it. *)
Inductive exn : Type :=
  | AttributeError (attr : string)
  | NameError (name : string)
  | KeyError (key : string)
  | IndexError
  | ValueError
  | AssertionError (msg : string)
  | TypeError
  | OSError
  | CvError
  | FormatError
  | OutsideContext.

Inductive result (A : Type) : Type :=
  | Ok (a : A)
  | Raise (e : exn).
Arguments Ok {A} a.
Arguments Raise {A} e.

Definition is_ok {A} (r : result A) : bool :=
  match r with Ok _ => true | Raise _ => false end.

(** What the program shows to its user: [print], the script logger, and
    the numpy shapes that [print(f"{x.shape=}")] renders. *)
Inductive event : Type :=
  | Print (s : string)
  | PrintShape (name : string) (shape : list nat)
  | LogInfo (s : string)
  | LogWarning (s : string).

Definition is_warning (ev : event) : bool :=
  match ev with LogWarning _ => true | _ => false end.

(** A double is kept as its 64-bit pattern; the modelled code never does
    arithmetic on one, it only stores them, compares them with NaN and
    writes the constant [0.0]. *)
Definition float64 : Type := Z.

Definition f64_exponent (x : float64) : Z := Z.land (Z.shiftr x 52) 2047.
Definition f64_mantissa (x : float64) : Z := Z.land x (Z.ones 52).

(** [np.isnan] *)
Definition isnan (x : float64) : bool :=
  (f64_exponent x =? 2047)%Z && negb (f64_mantissa x =? 0)%Z.

Arguments isnan : simpl never.

(** [np.nan] (the quiet NaN numpy uses) and [0.0]. *)
Definition nan : float64 := 0x7FF8000000000000%Z.
Definition f64_zero : float64 := 0%Z.

Definition tag : Type := string.

(** ** The state-and-exception monad *)

Module SE.
Definition t (S A : Type) : Type := S → S * result A.

Definition ret {S A} (a : A) : t S A := λ s, (s, Ok a).
Definition raise {S A} (e : exn) : t S A := λ s, (s, Raise e).
Definition bind {S A B} (m : t S A) (k : A → t S B) : t S B :=
  λ s, match m s with
       | (s', Ok a) => k a s'
       | (s', Raise e) => (s', Raise e)
       end.
Definition get {S} : t S S := λ s, (s, Ok s).
Definition put {S} (s : S) : t S unit := λ _, (s, Ok tt).
Definition modify {S} (f : S → S) : t S unit := λ s, (f s, Ok tt).
Definition lift {S A} (r : result A) : t S A := λ s, (s, r).
End SE.

#[global] Instance se_ret {S} : MRet (SE.t S) := λ A, SE.ret.
#[global] Instance se_bind {S} : MBind (SE.t S) := λ A B k m, SE.bind m k.

(** The same bind for [result] alone, for code without state. *)
#[global] Instance result_ret : MRet result := λ A, Ok.
#[global] Instance result_bind : MBind result := λ A B k r,
  match r with Ok a => k a | Raise e => Raise e end.

(** ** numpy indexing on the track table

    [self.points] has shape [frames, tags, 2]: a list of rows, one per
    frame, each a list of pixel positions, one per tag. *)

Definition point : Type := float64 * float64.
Abbreviation track_table := (list (list point)).

(** The integer-array bound that numpy checks on axis 1. *)
Definition ncols (pts : track_table) : nat :=
  match pts with [] => 0 | row :: _ => length row end.

Definition cols_in_bounds (pts : track_table) (cols : list nat) : bool :=
  forallb (λ c, c <? ncols pts) cols.

(** [row[cols] = vals], position by position; a later duplicate wins. *)
Fixpoint put_cols (cols : list nat) (vals : list point) (row : list point)
  : list point :=
  match cols, vals with
  | c :: cols', v :: vals' => put_cols cols' vals' (<[c := v]> row)
  | _, _ => row
  end.

(** [pts[lo:hi, cols, :] = v]: the slice is clipped to the table, the
    integer array is bound-checked. *)
Definition assign_block (pts : track_table) (lo hi : nat) (cols : list nat)
    (v : point) : result track_table :=
  if cols_in_bounds pts cols then
    Ok (imap (λ f row,
                if (lo <=? f) && (f <? hi)
                then put_cols cols (replicate (length cols) v) row
                else row) pts)
  else Raise IndexError.

(** [pts[r, cols, :]] *)
Definition take_row (pts : track_table) (r : nat) (cols : list nat)
  : result (list point) :=
  match pts !! r with
  | None => Raise IndexError
  | Some row =>
      if cols_in_bounds pts cols
      then Ok (map (λ c, default (f64_zero, f64_zero) (row !! c)) cols)
      else Raise IndexError
  end.

(** [pts[r, cols, :] = vals] *)
Definition assign_row (pts : track_table) (r : nat) (cols : list nat)
    (vals : list point) : result track_table :=
  match pts !! r with
  | None => Raise IndexError
  | Some row =>
      if cols_in_bounds pts cols
      then Ok (<[r := put_cols cols vals row]> pts)
      else Raise IndexError
  end.

(** [xs[mask]] for a boolean mask. *)
Fixpoint compress {A} (mask : list bool) (xs : list A) : list A :=
  match mask, xs with
  | b :: mask', x :: xs' =>
      if b then x :: compress mask' xs' else compress mask' xs'
  | _, _ => []
  end.

(** [list.index] *)
Fixpoint list_index (x : tag) (l : list tag) : result nat :=
  match l with
  | [] => Raise ValueError
  | y :: l' => if decide (x = y) then Ok 0
               else n ← list_index x l'; Ok (S n)
  end.

(** The entry of the table at a frame and a tag column. *)
Definition cell (pts : track_table) (f c : nat) : option point :=
  pts !! f ≫= (.!! c).

(** Every row of the table has the same number of tag columns, as in
    an array of shape [frames, tags, 2]. *)
Definition rectangular (pts : track_table) : Prop :=
  Forall (λ row, length row = ncols pts) pts.

(** ** [br2_vision/optical_flow.py] *)

Module OpticalFlow.

(** A job as [next_inquiry] unpacks it: [tags, stime, etime]. *)
Definition inquiry : Type := list tag * nat * nat.

Section Tracker.
(** What the class takes from OpenCV and from the rest of the package. *)
Variables frame gray FlowQueue TrackingData : Type.

(** [cv2.VideoCapture(path)]: the frames that [read] decodes, in order;
    [None] when [isOpened()] is false. *)
Variable VideoCapture : string → option (list frame).
(** [cv2_custom.extract_info.get_video_frame_count] *)
Variable get_video_frame_count : string → nat.
(** [cv2_custom.transformation.flat_color] *)
Variable flat_color : frame → gray.
(** [cv2.calcOpticalFlowPyrLK] with [_lk_params], for one point: the
    new position, the status and the error.  OpenCV tracks every point
    of the batch on its own. *)
Variable lk_track : gray → gray → point → point * bool * float64.
(** [TrackingData.save_flow_trajectory(data_collection, queue, num_frames)];
    [data_collection] is what [next_inquiry] returned, always [None]. *)
Variable save_flow_trajectory :
  TrackingData → FlowQueue → nat → result TrackingData.

Definition calcOpticalFlowPyrLK (old_gray frame_gray : gray)
    (p0 : list point) : list point * list bool * list float64 :=
  let r := map (lk_track old_gray frame_gray) p0 in
  (map (λ x, x.1.1) r, map (λ x, x.1.2) r, map snd r).

(** The instance.  An attribute that was never assigned is [None];
    [_num_frames] may also hold Python's [None]. *)
Record CameraOpticalFlow : Type := {
  video_path : string;
  flow_queues : list FlowQueue;
  dataset : TrackingData;
  _num_frames : option (option nat);
  inquiries : option (list inquiry);
  history : option (list inquiry);
  points : option track_table;
  tags : option (list tag);
}.

(** [__init__] assigns three attributes and nothing else. *)
Definition init (video_path : string) (flow_queues : list FlowQueue)
    (dataset : TrackingData) : CameraOpticalFlow :=
  {| video_path := video_path; flow_queues := flow_queues;
     dataset := dataset;
     _num_frames := None; inquiries := None; history := None;
     points := None; tags := None |}.

Definition set_num_frames (v : option nat) (o : CameraOpticalFlow) :=
  {| video_path := video_path o; flow_queues := flow_queues o;
     dataset := dataset o; _num_frames := Some v;
     inquiries := inquiries o; history := history o;
     points := points o; tags := tags o |}.
Definition set_inquiries (v : list inquiry) (o : CameraOpticalFlow) :=
  {| video_path := video_path o; flow_queues := flow_queues o;
     dataset := dataset o; _num_frames := _num_frames o;
     inquiries := Some v; history := history o;
     points := points o; tags := tags o |}.
Definition set_history (v : list inquiry) (o : CameraOpticalFlow) :=
  {| video_path := video_path o; flow_queues := flow_queues o;
     dataset := dataset o; _num_frames := _num_frames o;
     inquiries := inquiries o; history := Some v;
     points := points o; tags := tags o |}.
Definition set_points (v : track_table) (o : CameraOpticalFlow) :=
  {| video_path := video_path o; flow_queues := flow_queues o;
     dataset := dataset o; _num_frames := _num_frames o;
     inquiries := inquiries o; history := history o;
     points := Some v; tags := tags o |}.
Definition set_dataset (v : TrackingData) (o : CameraOpticalFlow) :=
  {| video_path := video_path o; flow_queues := flow_queues o;
     dataset := v; _num_frames := _num_frames o;
     inquiries := inquiries o; history := history o;
     points := points o; tags := tags o |}.

(** The instance and what has been printed so far. *)
Record world : Type := { self : CameraOpticalFlow; stdout : list event }.

Definition M : Type → Type := SE.t world.

Definition getattr {A} (name : string)
    (proj : CameraOpticalFlow → option A) : M A :=
  λ w, match proj (self w) with
       | Some v => (w, Ok v)
       | None => (w, Raise (AttributeError name))
       end.

Definition setattr (upd : CameraOpticalFlow → CameraOpticalFlow) : M unit :=
  SE.modify (λ w, {| self := upd (self w); stdout := stdout w |}).

Definition print (s : string) : M unit :=
  SE.modify (λ w, {| self := self w; stdout := stdout w ++ [Print s] |}).

(** The [num_frames] property. *)
Definition num_frames : M nat :=
  cached ← getattr "_num_frames" _num_frames;
  match cached with
  | None =>
      path ← (λ w, (w, Ok (video_path (self w))));
      let n := get_video_frame_count path in
      setattr (set_num_frames (Some n));;
      mret n
  | Some n => mret n
  end.

(** [tag_order.append(self.tags.index(tag))] for every tag of the job. *)
Fixpoint tag_indices (job_tags : list tag) : M (list nat) :=
  match job_tags with
  | [] => mret []
  | tg :: rest =>
      all_tags ← getattr "tags" tags;
      i ← SE.lift (list_index tg all_tags);
      idxs ← tag_indices rest;
      mret (i :: idxs)
  end.

(** One pass of [for num_frame in tqdm(range(etime - stime))] (lines 269
    to 295).  [frames] is the opened capture: after the read at [stime] its
    position is [stime + 1], and every pass reads one more frame.  The
    pass returns [None] at a [break], else the new values of [old_gray],
    [p0], [status] and [errors]. *)
Definition flow_body (frames : list frame) (stime : nat)
    (tag_order : list nat) (num_frame : nat)
    (old_gray : gray) (p0 : list point) (status : list bool)
    (errors : list (list float64))
  : M (option (gray * list point * list bool * list (list float64))) :=
  match frames !! (stime + num_frame + 1) with
  | None => mret None                               (* if not ret: break *)
  | Some frame =>
      let frame_gray := flat_color frame in
      let '(p1, new_status, err) :=
        calcOpticalFlowPyrLK old_gray frame_gray p0 in
      let status := zip_with andb status new_status in
      if forallb negb status then mret None         (* all lost: break *)
      else
        let err := zip_with (λ (ok : bool) e, if ok then e else nan)
                            status err in
        let errors := errors ++ [err] in
        let tracking_tag_order := compress status tag_order in
        pts ← getattr "points" points;
        pts ← SE.lift (assign_row pts (stime + num_frame + 1)
                         tracking_tag_order (compress status p1));
        setattr (set_points pts);;
        mret (Some (frame_gray, p1, status, errors))
  end.

(** The loop, over the values of [num_frame] still to come. *)
Fixpoint flow_loop (frames : list frame) (stime : nat)
    (tag_order : list nat) (todo : list nat)
    (old_gray : gray) (p0 : list point) (status : list bool)
    (errors : list (list float64)) : M unit :=
  match todo with
  | [] => mret tt
  | num_frame :: todo' =>
      r ← flow_body frames stime tag_order num_frame
                    old_gray p0 status errors;
      match r with
      | None => mret tt
      | Some (old_gray, p0, status, errors) =>
          flow_loop frames stime tag_order todo' old_gray p0 status errors
      end
  end.

(** What the loop starts from. *)
Record flow_setup : Type := {
  fs_frames : list frame;
  fs_stime : nat;
  fs_etime : nat;
  fs_tag_order : list nat;
  fs_old_gray : gray;
  fs_p0 : list point;
  fs_status : list bool;
}.

(** Lines 246 to 267 of [next_inquiry]: the capture is opened and read at
    [stime], the tags are looked up, the table is cleared and the seed
    positions are taken from it. *)
Definition prepare_job (job_tags : list tag) (stime etime : nat)
  : M flow_setup :=
  path ← (λ w, (w, Ok (video_path (self w))));
  match VideoCapture path with
  | None => SE.raise (AssertionError "Video is not properly opened")
  | Some frames =>
      match frames !! stime with
      | None => SE.raise CvError                    (* flat_color(None) *)
      | Some frame0 =>
          let old_gray := flat_color frame0 in
          tag_order ← tag_indices job_tags;
          pts ← getattr "points" points;
          pts ← SE.lift (assign_block pts (stime + 1) etime tag_order
                           (f64_zero, f64_zero));
          setattr (set_points pts);;
          pts ← getattr "points" points;
          p0 ← SE.lift (take_row pts stime tag_order);
          let status := replicate (length p0) true in
          mret {| fs_frames := frames; fs_stime := stime;
                  fs_etime := etime; fs_tag_order := tag_order;
                  fs_old_gray := old_gray; fs_p0 := p0;
                  fs_status := status |}
      end
  end.

(** Lines 236 to 267: [None] when [next_inquiry] returns before the
    flow, else what the loop starts from. *)
Definition begin_job : M (option flow_setup) :=
  inq ← getattr "inquiries" inquiries;
  match inq with
  | [] => print "No inquiry left";; mret None
  | (job_tags, stime, etime) :: rest =>
      setattr (set_inquiries rest);;                   (* pop(0) *)
      hist ← getattr "history" history;
      setattr (set_history (hist ++ [(job_tags, stime, etime)]));;
      total ← num_frames;
      if total <=? stime then
        print "start frame greater than total video frame";;
        mret None
      else
        setup ← prepare_job job_tags stime etime;
        mret (Some setup)
  end.

Definition run_flow (s : flow_setup) : M unit :=
  flow_loop (fs_frames s) (fs_stime s) (fs_tag_order s)
            (seq 0 (fs_etime s - fs_stime s))
            (fs_old_gray s) (fs_p0 s) (fs_status s) [].

(** [next_inquiry].  The argument [debug] is not used by the body.
    Line 242 of the source lacks the colon of its [if]; the statement is
    modelled as the conditional it spells. *)
Definition next_inquiry : M unit :=
  r ← begin_job;
  match r with
  | None => mret tt
  | Some setup => run_flow setup
  end.

(** *** The loop pass by pass

    The variables of the loop together with the instance, so that the
    state of a job after some passes can be named. *)
Record flow_conf : Type := {
  fc_todo : list nat;
  fc_old_gray : gray;
  fc_p0 : list point;
  fc_status : list bool;
  fc_errors : list (list float64);
  fc_world : world;
}.

(** The loop as [next_inquiry] enters it. *)
Definition start_conf (s : flow_setup) (w : world) : flow_conf :=
  {| fc_todo := seq 0 (fs_etime s - fs_stime s);
     fc_old_gray := fs_old_gray s; fc_p0 := fs_p0 s;
     fc_status := fs_status s; fc_errors := []; fc_world := w |}.

(** One pass that ends without [break] and without raising. *)
Definition flow_pass (s : flow_setup) (c : flow_conf) : option flow_conf :=
  match fc_todo c with
  | [] => None
  | num_frame :: todo' =>
      match flow_body (fs_frames s) (fs_stime s) (fs_tag_order s) num_frame
              (fc_old_gray c) (fc_p0 c) (fc_status c) (fc_errors c)
              (fc_world c) with
      | (w', Ok (Some (g, p, st, e))) =>
          Some {| fc_todo := todo'; fc_old_gray := g; fc_p0 := p;
                  fc_status := st; fc_errors := e; fc_world := w' |}
      | _ => None
      end
  end.

(** The loop after [k] such passes. *)
Fixpoint flow_after (s : flow_setup) (k : nat) (c : flow_conf)
  : option flow_conf :=
  match k with
  | 0 => Some c
  | S k' => c' ← flow_pass s c; flow_after s k' c'
  end.

(** The rest of the loop from a configuration. *)
Definition flow_rest (s : flow_setup) (c : flow_conf) : world * result unit :=
  flow_loop (fs_frames s) (fs_stime s) (fs_tag_order s) (fc_todo c)
            (fc_old_gray c) (fc_p0 c) (fc_status c) (fc_errors c)
            (fc_world c).

(** What the flow routine reports for point [i] in the pass that starts
    at [c]: the frame it is computed on, the new position and the status. *)
Definition flow_report (s : flow_setup) (c : flow_conf) (i : nat)
  : option (nat * point * bool) :=
  num_frame ← head (fc_todo c);
  frame ← fs_frames s !! (fs_stime s + num_frame + 1);
  p ← fc_p0 c !! i;
  let r := lk_track (fc_old_gray c) (flat_color frame) p in
  Some (fs_stime s + num_frame + 1, r.1.1, r.1.2).

(** The pass that starts at [c] reads its frame and finds that every
    point of the batch is lost (line 282). *)
Definition all_lost_at (s : flow_setup) (c : flow_conf) : bool :=
  match fc_todo c with
  | [] => false
  | num_frame :: _ =>
      match fs_frames s !! (fs_stime s + num_frame + 1) with
      | None => false
      | Some frame =>
          let '(_, new_status, _) :=
            calcOpticalFlowPyrLK (fc_old_gray c) (flat_color frame)
              (fc_p0 c) in
          forallb negb (zip_with andb (fc_status c) new_status)
      end
  end.

(** The job as its inputs decide it, apart from the table: the gray
    image, the positions and the statuses after [k] passes of which none
    met a frame that cannot be read or found every point lost.  The
    positions and statuses are those that the flow routine reports, from
    the seed row on. *)
Fixpoint flow_trace (s : flow_setup) (k : nat)
  : option (gray * list point * list bool) :=
  match k with
  | 0 => Some (fs_old_gray s, fs_p0 s, fs_status s)
  | S k' =>
      match flow_trace s k' with
      | None => None
      | Some (old_gray, p0, status) =>
          match fs_frames s !! (fs_stime s + k' + 1) with
          | None => None
          | Some frame =>
              let out :=
                calcOpticalFlowPyrLK old_gray (flat_color frame) p0 in
              let status := zip_with andb status out.1.2 in
              if forallb negb status then None
              else Some (flat_color frame, out.1.1, status)
          end
      end
  end.

(** [self.points], empty when the attribute is not there. *)
Definition table (w : world) : track_table :=
  default [] (points (self w)).

(** The value that the property [num_frames] returns, if it returns. *)
Definition known_frame_count (o : CameraOpticalFlow) : option nat :=
  match _num_frames o with
  | None => None
  | Some None => Some (get_video_frame_count (video_path o))
  | Some (Some n) => Some n
  end.

(** [run] *)
Fixpoint run_queues (queues : list FlowQueue) : M unit :=
  match queues with
  | [] => mret tt
  | queue :: rest =>
      next_inquiry;;
      total ← num_frames;
      ds ← (λ w, (w, Ok (dataset (self w))));
      ds ← SE.lift (save_flow_trajectory ds queue total);
      setattr (set_dataset ds);;
      run_queues rest
  end.

Definition run : M unit :=
  queues ← (λ w, (w, Ok (flow_queues (self w))));
  run_queues queues.

End Tracker.

Arguments video_path {FlowQueue TrackingData} c.
Arguments flow_queues {FlowQueue TrackingData} c.
Arguments dataset {FlowQueue TrackingData} c.
Arguments _num_frames {FlowQueue TrackingData} c.
Arguments inquiries {FlowQueue TrackingData} c.
Arguments history {FlowQueue TrackingData} c.
Arguments points {FlowQueue TrackingData} c.
Arguments tags {FlowQueue TrackingData} c.
Arguments init {FlowQueue TrackingData} video_path flow_queues dataset.
Arguments self {FlowQueue TrackingData} w.
Arguments stdout {FlowQueue TrackingData} w.
Arguments table {FlowQueue TrackingData} w.
Arguments fs_frames {frame gray} f.
Arguments fs_stime {frame gray} f.
Arguments fs_etime {frame gray} f.
Arguments fs_tag_order {frame gray} f.
Arguments fs_old_gray {frame gray} f.
Arguments fs_p0 {frame gray} f.
Arguments fs_status {frame gray} f.
Arguments fc_todo {gray FlowQueue TrackingData} f.
Arguments fc_old_gray {gray FlowQueue TrackingData} f.
Arguments fc_p0 {gray FlowQueue TrackingData} f.
Arguments fc_status {gray FlowQueue TrackingData} f.
Arguments fc_errors {gray FlowQueue TrackingData} f.
Arguments fc_world {gray FlowQueue TrackingData} f.
Arguments start_conf {frame gray FlowQueue TrackingData} s w.

(** *** The methods that read [self.p] and [self.is_occluded]

    [__init__] assigns neither attribute; the methods are written over
    the two values, [None] for an attribute that is not there.  Both are
    dicts from a key to a position and to a flag; a dict is kept as the
    list of its items in insertion order. *)

Module Occlusion.

Record attrs : Type := {
  p : option (list (tag * point));
  is_occluded : option (list (tag * bool));
}.

Definition getattr {A} (name : string) (field : option A) : result A :=
  match field with
  | Some v => Ok v
  | None => Raise (AttributeError name)
  end.

(** [d[key]] *)
Fixpoint dict_get {A} (d : list (tag * A)) (key : tag) : result A :=
  match d with
  | [] => Raise (KeyError key)
  | (k, v) :: d' => if decide (k = key) then Ok v else dict_get d' key
  end.

(** [d[key] = v] *)
Fixpoint dict_set {A} (d : list (tag * A)) (key : tag) (v : A)
  : list (tag * A) :=
  match d with
  | [] => [(key, v)]
  | (k, v') :: d' =>
      if decide (k = key) then (k, v) :: d'
      else (k, v') :: dict_set d' key v
  end.

(** [get_points_in_order] *)
Fixpoint get_points_in_order (self : attrs) (keys : list tag)
  : result (list point) :=
  match keys with
  | [] => Ok []
  | key :: rest =>
      d ← getattr "p" (p self);
      v ← dict_get d key;
      points ← get_points_in_order self rest;
      Ok (v :: points)
  end.

(** The loop of [get_none_occluded_points] over the items that remain,
    with the two lists built so far. *)
Fixpoint visible_loop (self : attrs) (items : list (tag * bool))
    (points : list point) (keys : list tag)
  : result (list point * list tag) :=
  match items with
  | [] => Ok (points, keys)
  | (k, occluded) :: rest =>
      if occluded then visible_loop self rest points keys
      else
        d ← getattr "p" (p self);
        v ← dict_get d k;
        visible_loop self rest (points ++ [v]) (keys ++ [k])
  end.

Definition get_none_occluded_points (self : attrs)
  : result (list point * list tag) :=
  items ← getattr "is_occluded" (is_occluded self);
  visible_loop self items [] [].

(** The loop of [get_none_occluded_points_dict]. *)
Fixpoint visible_dict_loop (self : attrs) (items : list (tag * bool))
    (points : list (tag * point)) : result (list (tag * point)) :=
  match items with
  | [] => Ok points
  | (k, occluded) :: rest =>
      if occluded then visible_dict_loop self rest points
      else
        d ← getattr "p" (p self);
        v ← dict_get d k;
        visible_dict_loop self rest (dict_set points k v)
  end.

Definition get_none_occluded_points_dict (self : attrs)
  : result (list (tag * point)) :=
  items ← getattr "is_occluded" (is_occluded self);
  visible_dict_loop self items [].

End Occlusion.

(** *** [crop_roi]

    An image is the list of its rows.  [x] and [y] are the integers that
    [int] makes of the two numbers of [uv]; the argument [scale] is not
    used by the body. *)

Section Crop.
Context {pixel : Type} (black : pixel).

(** [l[start:stop]] with Python's reading of a negative bound. *)
Definition py_slice {A} (l : list A) (start stop : Z) : list A :=
  let n := Z.of_nat (length l) in
  let clip (i : Z) := if (i <? 0)%Z then Z.max 0 (i + n) else Z.min i n in
  take (Z.to_nat (clip stop - clip start)) (drop (Z.to_nat (clip start)) l).

(** [cv2.copyMakeBorder(image, top, bottom, left, right,
    cv2.BORDER_CONSTANT, value=[0, 0, 0])] *)
Definition copyMakeBorder (image : list (list pixel))
    (top bottom left right : nat) : list (list pixel) :=
  let width := left + match image with [] => 0 | row :: _ => length row end
               + right in
  replicate top (replicate width black)
  ++ map (λ row, replicate left black ++ row ++ replicate right black) image
  ++ replicate bottom (replicate width black).

Definition crop_roi (image : list (list pixel)) (x y : Z)
    (disp_h disp_w : nat) : list (list pixel) :=
  let padded_img :=
    copyMakeBorder image (disp_h / 2) (disp_h / 2)
                   (disp_w / 2) (disp_w / 2) in
  map (λ row, py_slice row x (x + Z.of_nat disp_w))
      (py_slice padded_img y (y + Z.of_nat disp_h)).

(** The pixel of the image at a row and a column, black outside it. *)
Definition pixel_at (image : list (list pixel)) (r c : Z) : pixel :=
  if ((0 <=? r) && (0 <=? c))%Z
  then default black (image !! Z.to_nat r ≫= (.!! Z.to_nat c))
  else black.

End Crop.


End OpticalFlow.

(** ** [br2_vision/data_structure/posture_data.py] *)

Module PostureData.

(** An axis of length three. *)
Record V3 (A : Type) : Type := mkV3 { c0 : A; c1 : A; c2 : A }.
Arguments mkV3 {A} c0 c1 c2.
Arguments c0 {A} v.
Arguments c1 {A} v.
Arguments c2 {A} v.

Definition v3_map {A B} (f : A → B) (v : V3 A) : V3 B :=
  mkV3 (f (c0 v)) (f (c1 v)) (f (c2 v)).

Definition v3_get {A} (k : nat) (v : V3 A) : option A :=
  match k with 0 => Some (c0 v) | 1 => Some (c1 v) | 2 => Some (c2 v)
  | _ => None end.

Abbreviation vec3 := (V3 float64).
(** A 3×3 matrix by rows. *)
Abbreviation mat3 := (V3 (V3 float64)).

(** [M.T] *)
Definition transpose {A} (m : V3 (V3 A)) : V3 (V3 A) :=
  mkV3 (v3_map c0 m) (v3_map c1 m) (v3_map c2 m).

(** One row of [np.isnan(P).any(axis=1)]. *)
Definition has_nan (p : vec3) : bool :=
  isnan (c0 p) || isnan (c1 p) || isnan (c2 p).

(** The arrays the module handles, by shape: [T], [T, 3, N], [T, 3, 3, N]. *)
Abbreviation positions_t := (list (V3 (list float64))).
Abbreviation directors_t := (list (V3 (V3 (list float64)))).

Inductive ndarray : Type :=
  | Arr1 (a : list float64)
  | Arr3 (a : positions_t)
  | Arr4 (a : directors_t).

(** [MarkerPositions], as far as this module uses it: [len], [tags],
    [get_position], [origin] and [Q]. *)
Record MarkerPositions : Type := {
  mp_len : nat;
  mp_tags : list tag;
  get_position : nat → tag → vec3;
  origin : vec3;
  Q : mat3;
}.

(** [TrackingData], as far as this module uses it; [load_track] returns
    [None] for a tag without a track at that cross-section, else the
    series of its observations, of shape [T, 3]. *)
Record TrackingData : Type := {
  marker_positions : MarkerPositions;
  load_track : nat → tag → option (list vec3);
}.

(** The file at [path]: its datasets by key, and what
    [TrackingData.load(path)] reads from it. *)
Record h5file : Type := {
  datasets : gmap string ndarray;
  tracking : TrackingData;
}.

(** The tags of cross-section [z_index] that have a track, in the order
    of [marker_positions.tags]: [euler_coords] and [data_collection]. *)
Fixpoint collect (ds : TrackingData) (z_index : nat) (tgs : list tag)
  : list vec3 * list (list vec3) :=
  match tgs with
  | [] => ([], [])
  | tg :: rest =>
      let '(euler_coords, data_collection) := collect ds z_index rest in
      match load_track ds z_index tg with
      | None => (euler_coords, data_collection)            (* continue *)
      | Some data =>
          (get_position (marker_positions ds) z_index tg :: euler_coords,
           data :: data_collection)
      end
  end.

(** [np.array([data[tidx] for data in data_collection])] *)
Definition rows_at (tidx : nat) (data_collection : list (list vec3))
  : result (list vec3) :=
  mapM (λ data : list vec3,
          match data !! tidx with
          | Some p => Ok p
          | None => Raise IndexError
          end) data_collection.

(** [~nan_index] *)
Definition keep_mask (P : list vec3) : list bool :=
  map (λ p, negb (has_nan p)) P.

(** [np.stack(arrays, axis=-1)] over arrays indexed by time first: entry
    [t] of the result lists entry [t] of every array.  numpy refuses an
    empty list and arrays of different shapes. *)
Definition column {A} (t : nat) (xs : list (list A)) : list A :=
  omap (λ x : list A, x !! t) xs.

Definition stack_time {A} (xs : list (list A)) : result (list (list A)) :=
  match xs with
  | [] => Raise ValueError
  | x :: rest =>
      if forallb (λ y : list A, length y =? length x) rest
      then Ok (map (λ t, column t xs) (seq 0 (length x)))
      else Raise ValueError
  end.

(** From a list over the cross-sections to a trailing axis [N]. *)
Definition split3 {A} (l : list (V3 A)) : V3 (list A) :=
  mkV3 (map c0 l) (map c1 l) (map c2 l).

Definition stack_positions (xs : list (list vec3)) : result positions_t :=
  cols ← stack_time xs; Ok (map split3 cols).

Definition stack_directors (xs : list (list mat3)) : result directors_t :=
  cols ← stack_time xs; Ok (map (λ col, v3_map split3 (split3 col)) cols).

(** [x.shape] of a stacked array; numpy gives an array without
    timesteps the shape [(0, N)]. *)
Definition positions_shape (n : nat) (a : positions_t) : list nat :=
  match a with [] => [0; n] | _ => [length a; 3; n] end.
Definition directors_shape (n : nat) (a : directors_t) : list nat :=
  match a with [] => [0; n] | _ => [length a; 3; 3; n] end.

(** *** The reconstruction in the words of its contract

    The tags of a cross-section that have a track, each with its
    reference position in the ring and its series of observations. *)
Definition tracked (ds : TrackingData) (z : nat) : list (vec3 * list vec3) :=
  omap (λ tg, (λ data, (get_position (marker_positions ds) z tg, data))
                <$> load_track ds z tg)
       (mp_tags (marker_positions ds)).

(** The samples of the regression at cross-section [z] and timestep [t]:
    for every tracked tag whose observation at [t] has no NaN component,
    the reference position and that observation. *)
Definition samples (ds : TrackingData) (z t : nat) : list (vec3 * vec3) :=
  omap (λ '(r, data), p ← data !! t;
                      if has_nan p then None else Some (r, p))
       (tracked ds z).

(** The observation of a series at timestep [t]; NaN where the series
    has ended. *)
Definition obs_at (t : nat) (data : list vec3) : vec3 :=
  default (mkV3 nan nan nan) (data !! t).

(** Cross-section [z] has a tracked tag, the series of the first one has
    [T] timesteps and no other series is shorter: what the loop over
    [tidx] needs to read every row. *)
Definition well_tracked (ds : TrackingData) (z T : nat) : Prop :=
  match tracked ds z with
  | [] => False
  | first :: rest =>
      length first.2 = T ∧ Forall (λ rd, T ≤ length rd.2) rest
  end.

(** [positions[t, :, z]] and [directors[t, :, :, z]] *)
Definition position_at (positions : positions_t) (t z : nat) : option vec3 :=
  v ← positions !! t;
  x ← c0 v !! z; y ← c1 v !! z; w ← c2 v !! z;
  Some (mkV3 x y w).

Definition director_at (directors : directors_t) (t z : nat)
  : option mat3 :=
  m ← directors !! t;
  let row (r : V3 (list float64)) : option vec3 :=
    x ← c0 r !! z; y ← c1 r !! z; w ← c2 r !! z; Some (mkV3 x y w) in
  r0 ← row (c0 m); r1 ← row (c1 m); r2 ← row (c2 m);
  Some (mkV3 r0 r1 r2).

Section Reconstructor.
(** [sklearn.linear_model.LinearRegression]: [fit(R, P)] returns the
    fitted model or raises; [predict] maps every row of its argument on
    its own. *)
Variable model : Type.
Variable fit : list vec3 → list vec3 → result model.
Variable predict : model → vec3 → vec3.

(** The director that a fitted model gives: its columns are the
    predictions at the columns of [Q]. *)
Definition director_of (mp : MarkerPositions) (A : model) : mat3 :=
  transpose (v3_map (predict A) (transpose (Q mp))).

(** One pass of the loop over [tidx] (lines 47 to 55): the center and the
    director of the cross-section at that timestep. *)
Definition fit_timestep (mp : MarkerPositions) (euler_coords : list vec3)
    (data_collection : list (list vec3)) (tidx : nat)
  : result (vec3 * mat3) :=
  P ← rows_at tidx data_collection;
  let keep := keep_mask P in
  let P := compress keep P in
  let R := compress keep euler_coords in
  A ← fit R P;
  (* A.predict([origin])[0] *)
  let position := predict A (origin mp) in
  (* A.predict(Q.T).T *)
  let director := transpose (v3_map (predict A) (transpose (Q mp))) in
  Ok (position, director).

(** One pass of the loop over [z_index] (lines 34 to 57). *)
Definition fit_cross_section (ds : TrackingData) (z_index : nat)
  : result (list vec3 * list mat3) :=
  let mp := marker_positions ds in
  let '(euler_coords, data_collection) := collect ds z_index (mp_tags mp) in
  match data_collection with
  | [] => Raise IndexError                          (* data_collection[0] *)
  | first :: _ =>
      r ← mapM (fit_timestep mp euler_coords data_collection)
               (seq 0 (length first));
      Ok (map fst r, map snd r)
  end.

(** The arrays that the function returns. *)
Definition compute_arrays (ds : TrackingData)
  : result (positions_t * directors_t) :=
  r ← mapM (fit_cross_section ds) (seq 0 (mp_len (marker_positions ds)));
  positions ← stack_positions (map fst r);
  directors ← stack_directors (map snd r);
  Ok (positions, directors).

(** [compute_positions_and_directors(path)], on the file at [path], with
    what it prints.  The progress bars of [tqdm] go to standard error and
    are left out. *)
Definition compute_positions_and_directors (file : h5file)
  : list event * result (positions_t * directors_t) :=
  match compute_arrays (tracking file) with
  | Raise e => ([], Raise e)
  | Ok (positions, directors) =>
      let n := mp_len (marker_positions (tracking file)) in
      ([Print "Posture Interpolation";
        PrintShape "positions.shape" (positions_shape n positions);
        PrintShape "directors.shape" (directors_shape n directors)],
       Ok (positions, directors))
  end.

(** *** class [PostureData] *)

Definition _positions_key : string := "/posture/positions".
Definition _directors_key : string := "/posture/directors".
Definition _time_key : string := "/dlt-track/timestamps".

Record PostureData : Type := {
  path : string;
  _inside_context : bool;
  _positions : option ndarray;
  _directors : option ndarray;
  _time : option ndarray;
}.

(** [__init__] *)
Definition init (path : string) : PostureData :=
  {| path := path; _inside_context := false;
     _positions := None; _directors := None; _time := None |}.

(** The instance, the file at [self.path] ([None] when there is none) and
    what has been printed and logged. *)
Record world : Type := {
  self : PostureData;
  file : option h5file;
  output : list event;
}.

Definition M : Type → Type := SE.t world.

Definition update_self (f : PostureData → PostureData) : M unit :=
  SE.modify (λ w, {| self := f (self w); file := file w;
                     output := output w |}).

Definition emit (evs : list event) : M unit :=
  SE.modify (λ w, {| self := self w; file := file w;
                     output := output w ++ evs |}).

Definition set_positions (a : ndarray) (o : PostureData) : PostureData :=
  {| path := path o; _inside_context := _inside_context o;
     _positions := Some a; _directors := _directors o; _time := _time o |}.
Definition set_directors (a : ndarray) (o : PostureData) : PostureData :=
  {| path := path o; _inside_context := _inside_context o;
     _positions := _positions o; _directors := Some a; _time := _time o |}.
Definition set_time (a : ndarray) (o : PostureData) : PostureData :=
  {| path := path o; _inside_context := _inside_context o;
     _positions := _positions o; _directors := _directors o;
     _time := Some a |}.
Definition set_inside_context (b : bool) (o : PostureData) : PostureData :=
  {| path := path o; _inside_context := b;
     _positions := _positions o; _directors := _directors o;
     _time := _time o |}.

(** The decorator [raise_if_outside_context] of [data_structure/utils.py],
    which is not among the sources; by its name and its use it raises
    unless the instance is inside its [with] block. *)
Definition raise_if_outside_context {A} (method : M A) : M A :=
  λ w, if _inside_context (self w) then method w
       else (w, Raise OutsideContext).

(** [h5py.File(self.path, "r")] *)
Definition open_file : M h5file :=
  λ w, match file w with
       | Some h5f => (w, Ok h5f)
       | None => (w, Raise OSError)
       end.

(** [load_positions_and_directors] *)
Definition load_positions_and_directors : M unit :=
  raise_if_outside_context (
    h5f ← open_file;
    flag1 ← match datasets h5f !! _positions_key with
            | Some a => update_self (set_positions a);; mret false
            | None => mret true
            end;
    flag2 ← match datasets h5f !! _directors_key with
            | Some a => update_self (set_directors a);; mret false
            | None => mret true
            end;
    match datasets h5f !! _time_key with
    | None => SE.raise (KeyError _time_key)
    | Some a =>
        update_self (set_time a);;
        if flag1 || flag2 then
          emit [LogInfo "Computing positions and directors..."];;
          file ← open_file;                       (* compute(self.path) *)
          let '(printed, r) := compute_positions_and_directors file in
          emit printed;;
          '(positions, directors) ← SE.lift r;
          update_self (set_positions (Arr3 positions));;
          update_self (set_directors (Arr4 directors))
        else mret tt
    end).


(** [get_time], [get_cross_section_center_position] and
    [get_cross_section_director]: the attribute as it is, [None] before
    anything has been loaded. *)
Definition get_time : M (option ndarray) :=
  raise_if_outside_context (λ w, (w, Ok (_time (self w)))).

Definition get_cross_section_center_position : M (option ndarray) :=
  raise_if_outside_context (λ w, (w, Ok (_positions (self w)))).

Definition get_cross_section_director : M (option ndarray) :=
  raise_if_outside_context (λ w, (w, Ok (_directors (self w)))).

(** [__enter__]; [os.path.exists(self.path)] holds when there is a file. *)
Definition __enter__ : M unit :=
  update_self (set_inside_context true);;
  exists_ ← (λ w, (w, Ok (bool_decide (is_Some (file w)))));
  (if exists_ : bool then mret tt
   else λ w, (w, Raise (AssertionError
                          ("File does not exist " +:+ path (self w)
                           +:+ "."))));;
  load_positions_and_directors.


End Reconstructor.
End PostureData.

(** ** [script/data_augment_cross_section.py] *)

Module AugmentScript.
Import PostureData.

(** The values that the names of the module can be bound to. *)
Inductive pyval : Type :=
  | PyModule (name : string)
  | PyFunction (name : string)
  | PyStr (s : string)
  | PyInt (n : Z)
  | PyNone.

(** The arrays of an [.npz] archive; [position] records its shape
    [tags, T, 3] with the length [T] of its second axis. *)
Inductive npval (center director : Type) : Type :=
  | NpPosition (T : nat) (a : list (list vec3))
  | NpTags (a : list tag)
  | NpCenters (a : list center)
  | NpDirectors (a : list director).
Arguments NpPosition {center director} T a.
Arguments NpTags {center director} a.
Arguments NpCenters {center director} a.
Arguments NpDirectors {center director} a.

(** [labelled_points[tag] = points] on a dict kept in insertion order. *)
Fixpoint dict_set {V} (k : tag) (v : V) (d : list (tag * V))
  : list (tag * V) :=
  match d with
  | [] => [(k, v)]
  | (k', v') :: d' =>
      if decide (k = k') then (k, v) :: d' else (k', v') :: dict_set k v d'
  end.

(** [np.all(np.isnan(points))] *)
Definition all_nan (p : vec3) : bool :=
  isnan (c0 p) && isnan (c1 p) && isnan (c2 p).

Section Script.
(** The public names of [config.py], which [from config import *] binds. *)
Variable config : gmap string pyval.
(** [str.format] with one positional argument. *)
Variable str_format : string → Z → result string.
(** [utility.convert_coordinate.get_center_and_normal] and the types of
    the two values it returns. *)
Variables center director : Type.
Variable get_center_and_normal :
  list (tag * vec3) → nat → result (center * director).

Abbreviation npz := (gmap string (npval center director)).

(** The global names of the module when [main] runs, bound in the order
    of the source: the four imports, the names of [config], [main], and
    [runid] in the [__main__] block. *)
Definition module_globals : gmap string pyval :=
  <["runid" := PyInt 1]>
  (<["main" := PyFunction "main"]>
  (config ∪
   (<["get_center_and_normal" := PyFunction "get_center_and_normal"]>
   (<["sys" := PyModule "sys"]>
   (<["os" := PyModule "os"]>
   (<["np" := PyModule "numpy"]> ∅)))))).

(** The files on disk, the paths [np.load] has read, and what has been
    printed. *)
Record world : Type := {
  fs : gmap string npz;
  loaded : list string;
  stdout : list event;
}.

Definition M : Type → Type := SE.t world.

(** A name that is not local to [main]: looked up among the globals.
    None of the names used here is a builtin. *)
Definition global (name : string) : M pyval :=
  SE.lift (match module_globals !! name with
           | Some v => Ok v
           | None => Raise (NameError name)
           end).

Definition print (ev : event) : M unit :=
  SE.modify (λ w, {| fs := fs w; loaded := loaded w;
                     stdout := stdout w ++ [ev] |}).

(** [np.load(file_path)] *)
Definition np_load (np file_path : pyval) : M npz :=
  match np with
  | PyModule "numpy" =>
      match file_path with
      | PyStr p =>
          λ w, let w' := {| fs := fs w; loaded := loaded w ++ [p];
                            stdout := stdout w |} in
               match fs w !! p with
               | Some data => (w', Ok data)
               | None => (w', Raise OSError)
               end
      | _ => SE.raise TypeError
      end
  | _ => SE.raise (AttributeError "load")
  end.

(** [np.savez(output_file_path, **data)] *)
Definition np_savez (np : pyval) (p : string) (data : npz) : M unit :=
  match np with
  | PyModule "numpy" =>
      SE.modify (λ w, {| fs := <[p := data]> (fs w); loaded := loaded w;
                         stdout := stdout w |})
  | _ => SE.raise (AttributeError "savez")
  end.

(** The body of [for tag, points in zip(tags, position_collection[:,time,:])] *)
Fixpoint label_points (tgs : list tag) (points : list vec3)
    (labelled : list (tag * vec3)) : list (tag * vec3) :=
  match tgs, points with
  | tg :: tgs', p :: points' =>
      if all_nan p then label_points tgs' points' labelled
      else label_points tgs' points' (dict_set tg p labelled)
  | _, _ => labelled
  end.

(** The body of [for time in range(timelength)] *)
Fixpoint augment (fn : pyval) (n_ring : nat) (tgs : list tag)
    (position_collection : list (list vec3)) (times : list nat)
  : result (list center * list director) :=
  match times with
  | [] => Ok ([], [])
  | time :: times' =>
      points ← mapM (λ series : list vec3,
                       match series !! time with
                       | Some p => Ok p
                       | None => Raise IndexError
                       end) position_collection;
      let labelled_points := label_points tgs points [] in
      '(c, d) ← match fn with
                | PyFunction "get_center_and_normal" =>
                    get_center_and_normal labelled_points n_ring
                | _ => Raise TypeError
                end;
      '(cs, ds) ← augment fn n_ring tgs position_collection times';
      Ok (c :: cs, d :: ds)
  end.

(** [main(runid, n_ring)] *)
Definition main (runid : Z) (n_ring : nat) : M unit :=
  (* line 10 *)
  template ← global "PREPROCESSED_POSITION_PATH";
  output_file_path ← SE.lift (match template with
                              | PyStr s => str_format s runid
                              | _ => Raise (AttributeError "format")
                              end);
  (* line 11: [np.load] is looked up before its argument *)
  np ← global "np";
  SE.lift (match np with
           | PyModule "numpy" => Ok tt
           | _ => Raise (AttributeError "load")
           end);;
  file_path ← global "file_path";
  data ← np_load np file_path;
  '(timelength, position_collection) ←
    SE.lift (match data !! "position" with
             | Some (NpPosition T a) => Ok (T, a)
             | Some _ => Raise TypeError
             | None => Raise (KeyError "position")
             end);
  tgs ← SE.lift (match data !! "tags" with
                 | Some (NpTags a) => Ok a
                 | Some _ => Raise TypeError
                 | None => Raise (KeyError "tags")
                 end);
  (* the name is bound by the import, so looking it up once, before the
     loop, raises nothing that the loop would not *)
  fn ← global "get_center_and_normal";
  '(centers, directors) ←
    SE.lift (augment fn n_ring tgs position_collection (seq 0 timelength));
  print (PrintShape "cross_section_center_position.shape"
           [length centers]);;
  print (PrintShape "cross_section_director.shape" [length directors]);;
  _ ← SE.lift (match centers with
               | [] => Raise IndexError
               | _ :: _ => Ok tt
               end);
  print (Print "cross_section_center_position[0,...]");;
  let data := <["cross_section_director" := NpDirectors directors]>
              (<["cross_section_center_position" := NpCenters centers]>
               data) in
  np ← global "np";
  np_savez np output_file_path data;;
  print (Print "Data saved").

End Script.

Arguments fs {center director} w.
Arguments loaded {center director} w.
Arguments stdout {center director} w.
End AugmentScript.

(** ** [script/add_initial_flow_point.py]

    The handlers of the two windows in which the first points of a flow
    are chosen.  What the windows show is left to a parameter; the clicks
    and the keys are the input. *)

Module InitialFlowPoint.

(** The constants of OpenCV that the handlers compare with. *)
Definition EVENT_LBUTTONDOWN : Z := 1.
Definition EVENT_RBUTTONDOWN : Z := 2.
Definition EVENT_FLAG_CTRLKEY : Z := 8.

(** [ord("a")], [ord("d")], [ord("h")] *)
Definition ord_a : Z := 97.
Definition ord_d : Z := 100.
Definition ord_h : Z := 104.

Abbreviation pixel := (Z * Z)%type.

(** A mouse event as OpenCV hands it to a callback. *)
Record mouse : Type := {
  m_event : Z;
  m_x : Z;
  m_y : Z;
  m_flags : Z;
}.

(** [on_mouse_zoom]: [param["uv"]] is the array [_uv] of the inquiry,
    which the callback changes in place; the new value is returned. *)
Definition on_mouse_zoom (ev : mouse) (uv original_uv : pixel) : pixel :=
  if (m_event ev =? EVENT_LBUTTONDOWN)%Z then (m_x ev, m_y ev)
  else if (m_event ev =? EVENT_RBUTTONDOWN)%Z then original_uv
  else uv.

(** One pass of a window loop: the mouse events that OpenCV delivers
    while [cv2.waitKey(1)] runs, and the key code it returns. *)
Record pass : Type := {
  during : list mouse;
  waitKey : Z;
}.

Definition help_line : string := "d: cancel, a: accept, h: help".

(** [while inquiry_on] of [zoomed_inquiry], over the passes to come, with
    the variables [uv] and [_uv] and what has been printed.  [None]: the
    loop is still waiting for a key. *)
Fixpoint inquiry_loop (passes : list pass) (uv _uv original_uv : pixel)
    (printed : list string) : option (pixel * pixel * list string) :=
  match passes with
  | [] => None
  | ps :: rest =>
      let _uv := fold_left (λ uv ev, on_mouse_zoom ev uv original_uv)
                           (during ps) _uv in
      let key := Z.land (waitKey ps) 255 in
      if (key =? ord_d)%Z then
        Some (original_uv, _uv, printed)            (* uv = original_uv *)
      else if (key =? ord_a)%Z then Some (uv, _uv, printed)
      else if (key =? ord_h)%Z then
        inquiry_loop rest uv _uv original_uv (printed ++ [help_line])
      else inquiry_loop rest uv _uv original_uv printed
  end.

(** [astype(np.int32)] of a 64-bit integer *)
Definition int32 (z : Z) : Z := ((z + 2 ^ 31) mod 2 ^ 32 - 2 ^ 31)%Z.

Section Selection.
(** The tags that the prompt returns, and the value [""] that [prev_tag]
    starts with. *)
Variable label : Type.
Variable empty_str : label.
(** Lines 38 to 63 of [zoomed_inquiry]: the two windows are opened, the
    region around the point is cropped and scaled.  The calls into
    OpenCV and [scale_image] return or raise. *)
Variable show_zoom : pixel → result unit.

(** [zoomed_inquiry(current_frame, uv, scale, disp_h, disp_w)], for a
    [scale] that is a whole number (the default is 5.0).  [int] of a
    quotient truncates, [//] rounds down. *)
Definition zoomed_inquiry (uv : pixel) (scale disp_h disp_w : Z)
    (passes : list pass) : option (result (pixel * list string)) :=
  let '(x, y) := uv in
  match show_zoom uv with
  | Raise e => Some (Raise e)
  | Ok _ =>
      let _x := (disp_w * scale ÷ 2)%Z in
      let _y := (disp_h * scale ÷ 2)%Z in
      let _uv := (_x, _y) in
      let original_uv := _uv in
      '(_, _uv, printed) ←
        inquiry_loop passes uv _uv original_uv
                     ["zoomed-in inquiry"; help_line];
      let x := (_uv.1 ÷ scale + x - disp_w / 2)%Z in
      let y := (_uv.2 ÷ scale + y - disp_h / 2)%Z in
      Some (Ok ((x, y), printed))
  end.

(** What the first window prints. *)
Inductive line : Type :=
  | Text (s : string)
  | Added (point : pixel) (tg : label).

(** The two lists that [main] hands to the handler in [param], the
    global [prev_tag], and what has been printed. *)
Record selection : Type := {
  points : list pixel;
  marker_label : list label;
  prev_tag : label;
  printed : list line;
}.

(** The selection as [main] starts it. *)
Definition start : selection :=
  {| points := []; marker_label := []; prev_tag := empty_str;
     printed := [] |}.

(** [mouse_event_click_point(event, x, y, flags, param)].  [zoom] is the
    input of the second window, should it open; [answer] is what
    [param["prompt"]()] returns, should it be asked. *)
Definition mouse_event_click_point (ev : mouse) (zoom : list pass)
    (answer : option label) (s : selection)
  : option (result selection) :=
  let bypass_inquiry := Z.land (m_flags ev) EVENT_FLAG_CTRLKEY in
  let labelled (point : pixel) (out : list line) : selection :=
    (* points.append(point) *)
    let pts := points s ++ [point] in
    if negb (bypass_inquiry =? 0)%Z then
      {| points := pts; marker_label := marker_label s ++ [prev_tag s];
         prev_tag := prev_tag s;
         printed := out ++ [Text "added: "; Added point (prev_tag s)] |}
    else
      match answer with
      | None =>
          {| points := pts; marker_label := marker_label s;
             prev_tag := prev_tag s;
             printed := out ++ [Text "canceled"] |}
      | Some tg =>
          {| points := pts; marker_label := marker_label s ++ [tg];
             prev_tag := tg;
             printed := out ++ [Text "added: "; Added point tg] |}
      end in
  if (m_event ev =? EVENT_LBUTTONDOWN)%Z then
    Some (Ok (labelled (m_x ev, m_y ev) (printed s)))
  else if (m_event ev =? EVENT_RBUTTONDOWN)%Z then
    match zoomed_inquiry (m_x ev, m_y ev) 5 80 80 zoom with
    | None => None
    | Some (Raise e) => Some (Raise e)
    | Some (Ok (uv, out)) =>
        Some (Ok (labelled (int32 uv.1, int32 uv.2)
                           (printed s ++ map Text out)))
    end
  else Some (Ok s).

(** [frame_label(frame, points, marker_label)]: the labels that are
    drawn on the frame, in order. *)
Definition frame_label (points : list pixel) (marker_label : list label)
  : result (list (pixel * label)) :=
  mapM (λ inx,
          match points !! inx with
          | None => Raise IndexError
          | Some point =>
              match marker_label !! inx with
              | None => Raise IndexError
              | Some tg => Ok (point, tg)
              end
          end) (seq 0 (length points)).

End Selection.

Arguments points {label} s.
Arguments marker_label {label} s.
Arguments prev_tag {label} s.
Arguments printed {label} s.
Arguments Text {label} s.
Arguments Added {label} point tg.
End InitialFlowPoint.


(** ** A small tracker to run the definitions on

    A video of five frames, three tags, and a flow routine that moves a
    point to the next abscissa and loses it once its abscissa is 2. *)

Module TrackerExample.
Import OpticalFlow.

Definition VideoCapture (path : string) : option (list nat) :=
  if decide (path = "run.mp4") then Some [10; 11; 12; 13; 14] else None.

Definition get_video_frame_count (path : string) : nat := 5.

Definition flat_color (f : nat) : nat := f.

Definition lk_track (old_gray frame_gray : nat) (p : point)
  : point * bool * float64 :=
  ((p.1 + 1, p.2)%Z, (p.1 <? 2)%Z, 0%Z).

Definition save_flow_trajectory (ds : unit) (queue : unit) (n : nat)
  : result unit := Ok ds.

Definition stale : list point := [(9, 9); (9, 9); (9, 9)]%Z.

Definition table0 : track_table :=
  [[(0, 0); (7, 7); (2, 2)]%Z; stale; stale; stale; stale].

(** An instance whose attributes have all been assigned, with one job
    on the tags [a] and [c] from frame [stime] to frame 4. *)
Definition tracker (stime : nat) : world unit unit :=
  {| self := {| video_path := "run.mp4"; flow_queues := [tt];
                dataset := tt; _num_frames := Some None;
                inquiries := Some [(["a"; "c"], stime, 4)];
                history := Some [];
                points := Some table0;
                tags := Some ["a"; "b"; "c"] |};
     stdout := [] |}.

(** The instance as [__init__] leaves it. *)
Definition fresh (queues : list unit) : world unit unit :=
  {| self := init "run.mp4" queues tt; stdout := [] |}.

Definition next_inquiry : M unit unit unit :=
  OpticalFlow.next_inquiry nat nat unit unit VideoCapture
    get_video_frame_count flat_color lk_track.

Definition begin_job : M unit unit (option (flow_setup nat nat)) :=
  OpticalFlow.begin_job nat nat unit unit VideoCapture
    get_video_frame_count flat_color.

Definition run : M unit unit unit :=
  OpticalFlow.run nat nat unit unit VideoCapture get_video_frame_count
    flat_color lk_track save_flow_trajectory.

(** The job of [tracker 0] as the loop starts on it, and the state in
    which it starts. *)
Definition setup0 : flow_setup nat nat :=
  {| fs_frames := [10; 11; 12; 13; 14]; fs_stime := 0; fs_etime := 4;
     fs_tag_order := [0; 2]; fs_old_gray := 10;
     fs_p0 := [(0, 0); (2, 2)]%Z; fs_status := [true; true] |}.

Definition started0 : world unit unit := (begin_job (tracker 0)).1.

(** The loop of that job after two passes. *)
Definition after2 : flow_conf nat unit unit :=
  default (start_conf setup0 started0)
    (flow_after nat nat unit unit flat_color lk_track setup0 2
       (start_conf setup0 started0)).


(** A job on a tag that the tracker does not know. *)
Definition tracker_unknown_tag : world unit unit :=
  {| self := {| video_path := "run.mp4"; flow_queues := [tt];
                dataset := tt; _num_frames := Some None;
                inquiries := Some [(["a"; "z"], 0, 4)];
                history := Some [];
                points := Some table0;
                tags := Some ["a"; "b"; "c"] |};
     stdout := [] |}.

(** No inquiry is left, two queues are still to be run. *)
Definition tracker_idle : world unit unit :=
  {| self := {| video_path := "run.mp4"; flow_queues := [tt; tt];
                dataset := tt; _num_frames := Some None;
                inquiries := Some [];
                history := Some [(["a"; "c"], 0, 4)];
                points := Some table0;
                tags := Some ["a"; "b"; "c"] |};
     stdout := [] |}.

(** A job that runs to frame 9 on the video of five frames, with a
    table of seven rows. *)
Definition tracker_long_job : world unit unit :=
  {| self := {| video_path := "run.mp4"; flow_queues := [tt];
                dataset := tt; _num_frames := Some None;
                inquiries := Some [(["b"], 3, 9)];
                history := Some [];
                points := Some [stale; stale; stale;
                                [(0, 0); (0, 0); (0, 0)]%Z;
                                stale; stale; stale];
                tags := Some ["a"; "b"; "c"] |};
     stdout := [] |}.

Definition setup_long : flow_setup nat nat :=
  {| fs_frames := [10; 11; 12; 13; 14]; fs_stime := 3; fs_etime := 9;
     fs_tag_order := [1]; fs_old_gray := 13;
     fs_p0 := [(0, 0)]%Z; fs_status := [true] |}.

(** Two jobs wait and one queue is to be run. *)
Definition tracker_two_jobs : world unit unit :=
  {| self := {| video_path := "run.mp4"; flow_queues := [tt];
                dataset := tt; _num_frames := Some None;
                inquiries := Some [(["a"; "c"], 0, 4); (["b"], 0, 2)];
                history := Some [];
                points := Some table0;
                tags := Some ["a"; "b"; "c"] |};
     stdout := [] |}.


Definition num_frames : M unit unit nat :=
  OpticalFlow.num_frames unit unit get_video_frame_count.


(** Three tracked keys, the second one occluded. *)
Definition occlusion_attrs : Occlusion.attrs :=
  {| Occlusion.p := Some [("a", (1, 2)); ("b", (3, 4)); ("c", (5, 6))]%Z;
     Occlusion.is_occluded :=
       Some [("a", false); ("b", true); ("c", false)] |}.

(** An image of two rows and three columns; the pixels are numbers and
    black is 0. *)
Definition image0 : list (list nat) := [[1; 2; 3]; [4; 5; 6]].


End TrackerExample.


(** ** A small dataset to run the reconstruction on

    One cross-section with two tags and two timesteps; each tag is seen
    at one of the timesteps only.  The regressor of the examples refuses
    an empty sample, as [LinearRegression.fit] does (it requires one
    sample at least), and otherwise returns the constant model of its
    first observation, which is the least-squares fit when the sample
    has one observation. *)

Module PostureExample.
Import PostureData.

Definition f64_one : float64 := 0x3FF0000000000000%Z.
Definition f64_two : float64 := 0x4000000000000000%Z.
Definition f64_three : float64 := 0x4008000000000000%Z.

Definition fit (R P : list vec3) : result vec3 :=
  match P with
  | [] => Raise ValueError
  | p :: _ => Ok p
  end.

Definition predict (A : vec3) (x : vec3) : vec3 := A.

Definition seen : vec3 := mkV3 f64_one f64_two f64_three.
Definition seen_later : vec3 := mkV3 f64_three f64_two f64_one.
Definition missing : vec3 := mkV3 nan nan nan.

Definition ring : MarkerPositions :=
  {| mp_len := 1; mp_tags := ["a"; "b"];
     get_position := λ z tg,
       if decide (tg = "a") then mkV3 f64_one f64_zero f64_zero
       else mkV3 f64_zero f64_one f64_zero;
     origin := mkV3 f64_zero f64_zero f64_zero;
     Q := mkV3 (mkV3 f64_one f64_zero f64_zero)
               (mkV3 f64_zero f64_one f64_zero)
               (mkV3 f64_zero f64_zero f64_one) |}.

(** Tag [a] is seen at timestep 0, tag [b] at timestep 1. *)
Definition tracks : TrackingData :=
  {| marker_positions := ring;
     load_track := λ z tg,
       if decide (tg = "a") then Some [seen; missing]
       else if decide (tg = "b") then Some [missing; seen_later]
       else None |}.

(** No tag is seen at timestep 0. *)
Definition tracks_lost : TrackingData :=
  {| marker_positions := ring;
     load_track := λ z tg,
       if decide (tg = "a") then Some [missing; seen]
       else if decide (tg = "b") then Some [missing; seen_later]
       else None |}.

Definition timestamps : ndarray := Arr1 [f64_zero; f64_one].

(** A file with the tracks and the timestamps only. *)
Definition raw_file (ds : TrackingData) : h5file :=
  {| datasets := {[ _time_key := timestamps ]}; tracking := ds |}.

Definition stored_positions : ndarray :=
  Arr3 [mkV3 [f64_one] [f64_two] [f64_three]].
Definition stored_directors : ndarray :=
  Arr4 [mkV3 (mkV3 [f64_one] [f64_zero] [f64_zero])
             (mkV3 [f64_zero] [f64_one] [f64_zero])
             (mkV3 [f64_zero] [f64_zero] [f64_one])].

(** A file in which both arrays have been saved. *)
Definition cached_file : h5file :=
  {| datasets := <[ _positions_key := stored_positions ]>
                 (<[ _directors_key := stored_directors ]>
                  {[ _time_key := timestamps ]});
     tracking := tracks |}.

(** The instance inside its [with] block, before it loads. *)
Definition session (h5f : h5file) : world :=
  {| self := set_inside_context true (init "run.h5");
     file := Some h5f; output := [] |}.

Definition compute_positions_and_directors (h5f : h5file)
  : list event * result (positions_t * directors_t) :=
  PostureData.compute_positions_and_directors vec3 fit predict h5f.

Definition load_positions_and_directors : M unit :=
  PostureData.load_positions_and_directors vec3 fit predict.

(** A dataset without cross-sections. *)
Definition tracks_no_ring : TrackingData :=
  {| marker_positions :=
       {| mp_len := 0; mp_tags := mp_tags ring;
          get_position := get_position ring; origin := origin ring;
          Q := Q ring |};
     load_track := load_track tracks |}.

(** A dataset in which no tag has a track. *)
Definition tracks_untracked : TrackingData :=
  {| marker_positions := ring; load_track := λ z tg, None |}.

(** Two cross-sections: two timesteps at the first, one at the second. *)
Definition tracks_uneven : TrackingData :=
  {| marker_positions :=
       {| mp_len := 2; mp_tags := mp_tags ring;
          get_position := get_position ring; origin := origin ring;
          Q := Q ring |};
     load_track := λ z tg,
       if decide (tg = "a") then
         Some (if decide (z = 0) then [seen; seen_later] else [seen])
       else None |}.

(** The instance as [__init__] leaves it, with and without a file at its
    path. *)
Definition closed (h5f : option h5file) : world :=
  {| self := init "run.h5"; file := h5f; output := [] |}.

Definition __enter__ : M unit :=
  PostureData.__enter__ vec3 fit predict.


End PostureExample.


(** ** A configuration to run the script on *)

Module ScriptExample.
Import PostureData AugmentScript.

(** [template.format(runid)] for a template with one pair of braces. *)
Fixpoint fill_braces (template arg : string) : string :=
  match template with
  | String "{"%char (String "}"%char rest) => arg +:+ rest
  | String c rest => String c (fill_braces rest arg)
  | EmptyString => EmptyString
  end.

Definition str_format (template : string) (runid : Z) : result string :=
  Ok (fill_braces template (pretty runid)).

(** A [config.py] that defines the path template and nothing else. *)
Definition config : gmap string pyval :=
  {[ "PREPROCESSED_POSITION_PATH" := PyStr "data/run_{}.npz" ]}.

(** A [config.py] that also defines [file_path]. *)
Definition config_with_file_path : gmap string pyval :=
  <[ "file_path" := PyStr "data/run_1.npz" ]> config.

(** A helper that returns the first labelled point as center and as
    director. *)
Definition get_center_and_normal (labelled : list (tag * vec3))
    (n_ring : nat) : result (vec3 * vec3) :=
  match labelled with
  | [] => Raise ValueError
  | (_, p) :: _ => Ok (p, p)
  end.

(** A disk with one archive of two tags over two timesteps. *)
Definition archive : gmap string (npval vec3 vec3) :=
  {[ "position" := NpPosition 2
                     [[PostureExample.seen; PostureExample.missing];
                      [PostureExample.missing; PostureExample.seen_later]];
     "tags" := NpTags ["a"; "b"] ]}.

Definition disk : world vec3 vec3 :=
  {| fs := {[ "data/run_1.npz" := archive ]}; loaded := []; stdout := [] |}.

Definition main (cfg : gmap string pyval) : Z → nat → M vec3 vec3 unit :=
  AugmentScript.main cfg str_format vec3 vec3 get_center_and_normal.

(** A disk whose archive has no timestep. *)
Definition disk_without_timesteps : world vec3 vec3 :=
  {| fs := {[ "data/run_1.npz" :=
                {[ "position" := NpPosition 0 [[]; []];
                   "tags" := NpTags ["a"; "b"] ]} ]};
     loaded := []; stdout := [] |}.


End ScriptExample.


(** ** Clicks and keys to run the handlers on *)

Module SelectionExample.
Import InitialFlowPoint.

Definition show_zoom (uv : pixel) : result unit := Ok tt.

Definition left_click (x y : Z) : mouse :=
  {| m_event := EVENT_LBUTTONDOWN; m_x := x; m_y := y; m_flags := 0 |}.

Definition right_click (x y : Z) : mouse :=
  {| m_event := EVENT_RBUTTONDOWN; m_x := x; m_y := y; m_flags := 0 |}.

Definition ctrl_click (x y : Z) : mouse :=
  {| m_event := EVENT_LBUTTONDOWN; m_x := x; m_y := y;
     m_flags := EVENT_FLAG_CTRLKEY |}.

(** The mouse moves, no key is pressed. *)
Definition idle : pass :=
  {| during := [{| m_event := 0; m_x := 7; m_y := 7; m_flags := 0 |}];
     waitKey := -1 |}.

Definition press (key : Z) : pass := {| during := []; waitKey := key |}.

(** A click in the zoomed window at [(210, 195)], then a key. *)
Definition click_then (key : Z) : list pass :=
  [idle; {| during := [left_click 210 195]; waitKey := -1 |}; press key].

Definition zoomed_inquiry (uv : pixel) (passes : list pass)
  : option (result (pixel * list string)) :=
  InitialFlowPoint.zoomed_inquiry show_zoom uv 5 80 80 passes.

Definition mouse_event_click_point (ev : mouse) (zoom : list pass)
    (answer : option string) (s : selection string)
  : option (result (selection string)) :=
  InitialFlowPoint.mouse_event_click_point string show_zoom ev zoom answer s.

(** One point has been chosen and labelled. *)
Definition one_point : selection string :=
  {| points := [(10, 20)%Z]; marker_label := ["a"]; prev_tag := "a";
     printed := [] |}.

End SelectionExample.


(** * Properties *)

(** Unfolds the monad so that a computation applied to a state reduces. *)
Ltac se_unfold :=
  unfold mbind, se_bind, SE.bind, mret, se_ret, SE.ret, SE.modify, SE.lift,
    SE.raise.

Ltac decide_cases :=
  repeat match goal with
         | |- context [decide ?P] => destruct (decide P)
         end.

(** ** Lists and the monads *)

Lemma lookup_map {A B} (f : A → B) (l : list A) i :
  map f l !! i = f <$> l !! i.
Proof.
  revert i. induction l as [|x l IH]; intros [|i]; simpl; done.
Qed.

Lemma omap_cons {A B} (f : A → option B) (x : A) (l : list A) :
  omap f (x :: l)
  = match f x with Some y => y :: omap f l | None => omap f l end.
Proof. done. Qed.

Lemma mapM_ok {A B} (f : A → result B) (g : A → B) (l : list A) :
  (∀ x, x ∈ l → f x = Ok (g x)) → mapM f l = Ok (map g l).
Proof.
  induction l as [|x l IH]; intros Hf; [done|]. simpl.
  rewrite (Hf x) by set_solver. simpl.
  rewrite IH by (intros y Hy; apply Hf; set_solver). done.
Qed.

Lemma mapM_raise {A B} (f : A → result B) (l : list A) x e :
  x ∈ l → f x = Raise e → ∃ e', mapM f l = Raise e'.
Proof.
  induction l as [|y l IH]; intros Hin Hx; [by apply elem_of_nil in Hin|].
  simpl. destruct (f y) as [b|e'] eqn:Hy; simpl; [|by eexists].
  destruct IH as [e' ->]; [|done|by eexists].
  apply elem_of_cons in Hin as [->|Hin]; [congruence|done].
Qed.

(** The first element on which the function raises decides what [mapM]
    raises. *)
Lemma mapM_first_raise {A B} (f : A → result B) (l : list A) i x e :
  l !! i = Some x → f x = Raise e →
  (∀ j y, j < i → l !! j = Some y → is_ok (f y) = true) →
  mapM f l = Raise e.
Proof.
  revert i. induction l as [|y l IH]; intros [|i] Hx He Hbefore;
    simpl in *; try done.
  - injection Hx as ->. by rewrite He.
  - destruct (f y) as [b|e'] eqn:Hy.
    + simpl. rewrite (IH i Hx He); [done|].
      intros j z Hj Hz. apply (Hbefore (S j) z); [lia|done].
    + specialize (Hbefore 0 y (Nat.lt_0_succ i) eq_refl).
      rewrite Hy in Hbefore. discriminate Hbefore.
Qed.

(** ** The track table *)

Lemma put_cols_length cols vals row :
  length (put_cols cols vals row) = length row.
Proof.
  revert vals row. induction cols as [|c cols IH]; intros [|v vals] row;
    simpl; try done.
  by rewrite IH, length_insert.
Qed.

Lemma put_cols_lookup_notin cols vals row (c : nat) :
  c ∉ cols → put_cols cols vals row !! c = row !! c.
Proof.
  revert vals row. induction cols as [|c' cols IH]; intros [|v vals] row Hc;
    simpl; try done.
  rewrite IH by set_solver.
  apply list_lookup_insert_ne. set_solver.
Qed.

Lemma put_cols_replicate_lookup cols v row (c : nat) :
  put_cols cols (replicate (length cols) v) row !! c
  = (λ p, if decide (c ∈ cols) then v else p) <$> row !! c.
Proof.
  revert row. induction cols as [|c' cols IH]; intros row; simpl.
  - destruct (row !! c) eqn:E; simpl; [|done].
    decide_cases; try done; set_solver.
  - rewrite IH. destruct (decide (c = c')) as [->|Hne].
    + destruct (decide (c' < length row)) as [Hlt|Hge].
      * rewrite list_lookup_insert_eq by done.
        destruct (lookup_lt_is_Some_2 row c' Hlt) as [p ->]. simpl.
        decide_cases; try done; set_solver.
      * rewrite list_insert_ge by lia.
        by rewrite (lookup_ge_None_2 row c') by lia.
    + rewrite list_lookup_insert_ne by done.
      destruct (row !! c); simpl; [|done].
      decide_cases; try done; set_solver.
Qed.

Lemma put_cols_lookup_in cols vals row (i c : nat) v :
  NoDup cols → cols !! i = Some c → vals !! i = Some v → c < length row →
  put_cols cols vals row !! c = Some v.
Proof.
  revert vals row i. induction cols as [|c' cols IH];
    intros [|v' vals] row i Hnd Hc Hv Hlt;
    try (by rewrite lookup_nil in Hc); try (by rewrite lookup_nil in Hv).
  apply NoDup_cons in Hnd as [Hnotin Hnd]. destruct i as [|i]; simpl in *.
  - simplify_eq. rewrite put_cols_lookup_notin by done.
    by apply list_lookup_insert_eq.
  - apply (IH vals _ i); try done. by rewrite length_insert.
Qed.

Lemma compress_subseteq {A} (mask : list bool) (xs : list A) :
  compress mask xs ⊆ xs.
Proof.
  revert xs. induction mask as [|b mask IH]; intros [|x xs]; simpl;
    try set_solver.
  destruct b; specialize (IH xs); set_solver.
Qed.

Lemma compress_NoDup {A} (mask : list bool) (xs : list A) :
  NoDup xs → NoDup (compress mask xs).
Proof.
  revert xs. induction mask as [|b mask IH]; intros [|x xs] Hnd; simpl;
    try constructor.
  apply NoDup_cons in Hnd as [Hx Hnd]. destruct b; [|by apply IH].
  apply NoDup_cons. split; [|by apply IH].
  intros Hin. by apply Hx, (compress_subseteq mask).
Qed.

(** A position that the mask does not keep is absent from the compressed
    index array. *)
Lemma compress_masked_out (mask : list bool) (xs : list nat) i c :
  NoDup xs → xs !! i = Some c → mask !! i ≠ Some true →
  c ∉ compress mask xs.
Proof.
  revert xs i. induction mask as [|b mask IH]; intros [|x xs] i Hnd Hx Hm;
    try (by apply not_elem_of_nil).
  apply NoDup_cons in Hnd as [Hnotin Hnd]. destruct i as [|i]; simpl in *.
  - simplify_eq. destruct b; [done|].
    intros Hin. by apply Hnotin, (compress_subseteq mask).
  - assert (c ≠ x).
    { intros ->. apply Hnotin. by eapply list_elem_of_lookup_2. }
    destruct b; [|by eapply IH].
    apply not_elem_of_cons. split; [done|by eapply IH].
Qed.

(** A position kept by the mask keeps its place in every array that is
    compressed with that mask. *)
Lemma compress_kept {A B} (mask : list bool) (xs : list A) (ys : list B)
    i x y :
  xs !! i = Some x → ys !! i = Some y → mask !! i = Some true →
  ∃ j, compress mask xs !! j = Some x ∧ compress mask ys !! j = Some y.
Proof.
  revert xs ys i. induction mask as [|b mask IH];
    intros [|x' xs] [|y' ys] i Hx Hy Hm; try done.
  destruct i as [|i]; simpl in *.
  - simplify_eq. by exists 0.
  - destruct (IH xs ys i Hx Hy Hm) as (j & ? & ?).
    destruct b; [by exists (S j)|by exists j].
Qed.

Lemma cell_assign_block pts lo hi cols v pts' f c :
  assign_block pts lo hi cols v = Ok pts' →
  cell pts' f c
  = (λ p, if decide ((lo ≤ f < hi) ∧ c ∈ cols) then v else p)
      <$> cell pts f c.
Proof.
  unfold assign_block, cell. destruct (cols_in_bounds pts cols); [|done].
  intros [= <-]. rewrite list_lookup_imap.
  destruct (pts !! f) as [row|]; simpl; [|done].
  destruct (Nat.leb_spec lo f), (Nat.ltb_spec f hi); simpl;
    rewrite ?put_cols_replicate_lookup;
    (destruct (row !! c); simpl; [|done]);
    decide_cases; try done; try lia; tauto.
Qed.

Lemma assign_block_length pts lo hi cols v pts' :
  assign_block pts lo hi cols v = Ok pts' → length pts' = length pts.
Proof.
  unfold assign_block. destruct (cols_in_bounds pts cols); [|done].
  intros [= <-]. apply length_imap.
Qed.

Lemma ncols_lookup (pts : track_table) :
  ncols pts = from_option length 0 (pts !! 0).
Proof. by destruct pts. Qed.

Lemma rectangular_lookup (pts : track_table) :
  rectangular pts ↔ ∀ i row, pts !! i = Some row → length row = ncols pts.
Proof. unfold rectangular. by rewrite Forall_lookup. Qed.

Lemma rectangular_assign_block pts lo hi cols v pts' :
  assign_block pts lo hi cols v = Ok pts' →
  rectangular pts → rectangular pts'.
Proof.
  unfold assign_block. destruct (cols_in_bounds pts cols); [|done].
  intros [= <-]. rewrite !rectangular_lookup. intros Hrect i row.
  assert (∀ j (r : list point),
            length (if (lo <=? j) && (j <? hi)
                    then put_cols cols (replicate (length cols) v) r
                    else r) = length r) as Hlen.
  { intros j r. destruct (_ && _); by rewrite ?put_cols_length. }
  rewrite list_lookup_imap.
  destruct (pts !! i) as [r|] eqn:Hr; simpl; [|done].
  intros [= <-]. rewrite Hlen, (Hrect i r Hr), !ncols_lookup.
  rewrite list_lookup_imap.
  destruct (pts !! 0) as [r0|]; simpl; [|done]. by rewrite Hlen.
Qed.

Lemma rectangular_insert (pts : track_table) r row row' :
  pts !! r = Some row → length row' = length row →
  rectangular pts → rectangular (<[r := row']> pts).
Proof.
  rewrite !rectangular_lookup. intros Hrow Hlen Hrect i x.
  assert (ncols (<[r := row']> pts) = ncols pts) as ->.
  { rewrite !ncols_lookup. destruct (decide (r = 0)) as [->|Hne].
    - rewrite list_lookup_insert_eq by (by eapply lookup_lt_Some).
      rewrite Hrow. done.
    - by rewrite list_lookup_insert_ne. }
  destruct (decide (r = i)) as [->|Hne].
  - rewrite list_lookup_insert_eq by (by eapply lookup_lt_Some).
    intros [= <-]. rewrite Hlen. by eapply Hrect.
  - rewrite list_lookup_insert_ne by done. apply Hrect.
Qed.


(** ** The tracker *)

Module TrackerProofs.
Import OpticalFlow.

Section Proofs.
Context {frame gray FlowQueue TrackingData : Type}.
Context (VideoCapture : string → option (list frame)).
Context (get_video_frame_count : string → nat).
Context (flat_color : frame → gray).
Context (lk_track : gray → gray → point → point * bool * float64).
Context (save_flow_trajectory :
           TrackingData → FlowQueue → nat → result TrackingData).

Local Abbreviation world := (OpticalFlow.world FlowQueue TrackingData).
Local Abbreviation num_frames :=
  (OpticalFlow.num_frames FlowQueue TrackingData get_video_frame_count).
Local Abbreviation known_frame_count :=
  (OpticalFlow.known_frame_count FlowQueue TrackingData
     get_video_frame_count).
Local Abbreviation prepare_job :=
  (OpticalFlow.prepare_job frame gray FlowQueue TrackingData
     VideoCapture flat_color).
Local Abbreviation begin_job :=
  (OpticalFlow.begin_job frame gray FlowQueue TrackingData
     VideoCapture get_video_frame_count flat_color).
Local Abbreviation next_inquiry :=
  (OpticalFlow.next_inquiry frame gray FlowQueue TrackingData
     VideoCapture get_video_frame_count flat_color lk_track).
Local Abbreviation run_queues :=
  (OpticalFlow.run_queues frame gray FlowQueue TrackingData
     VideoCapture get_video_frame_count flat_color lk_track
     save_flow_trajectory).
Local Abbreviation run :=
  (OpticalFlow.run frame gray FlowQueue TrackingData
     VideoCapture get_video_frame_count flat_color lk_track
     save_flow_trajectory).

(** The property returns the cached count, or the count of the video,
    which it then caches. *)
Lemma num_frames_known (w : world) n :
  known_frame_count (self w) = Some n →
  ∃ w', num_frames w = (w', Ok n)
        ∧ points (self w') = points (self w)
        ∧ tags (self w') = tags (self w)
        ∧ inquiries (self w') = inquiries (self w)
        ∧ history (self w') = history (self w)
        ∧ dataset (self w') = dataset (self w)
        ∧ video_path (self w') = video_path (self w)
        ∧ flow_queues (self w') = flow_queues (self w)
        ∧ stdout w' = stdout w
        ∧ known_frame_count (self w') = Some n.
Proof.
  destruct w as [[vp fq ds nf inq hist pts tgs] out].
  unfold OpticalFlow.known_frame_count, OpticalFlow.num_frames. simpl.
  destruct nf as [[m|]|]; intros [= <-]; eexists; cbn; eauto 12.
Qed.


Local Abbreviation tag_indices :=
  (OpticalFlow.tag_indices FlowQueue TrackingData).

(** The tag columns of a job, as a function of [self.tags]. *)
Lemma tag_indices_pure (w : world) all_tags job_tags :
  tags (self w) = Some all_tags →
  tag_indices job_tags w
  = (w, mapM (λ tg, list_index tg all_tags) job_tags).
Proof.
  intros Htags. induction job_tags as [|tg rest IH]; [done|].
  cbn [OpticalFlow.tag_indices mapM]. unfold getattr. se_unfold.
  rewrite Htags. destruct (list_index tg all_tags) as [i|e]; [|done].
  fold (OpticalFlow.tag_indices FlowQueue TrackingData rest). rewrite IH.
  simpl. by destruct (mapM _ rest).
Qed.

Lemma list_index_lt tg all_tags i :
  list_index tg all_tags = Ok i → i < length all_tags.
Proof.
  revert i. induction all_tags as [|y l IH]; intros i; simpl; [done|].
  destruct (decide (tg = y)) as [|Hne]; [intros [= <-]; lia|].
  destruct (list_index tg l) as [m|]; simpl; [|done].
  intros [= <-]. specialize (IH m eq_refl). lia.
Qed.

Lemma list_index_lookup tg all_tags i :
  list_index tg all_tags = Ok i → all_tags !! i = Some tg.
Proof.
  revert i. induction all_tags as [|y l IH]; intros i; simpl; [done|].
  destruct (decide (tg = y)) as [->|Hne]; [by intros [= <-]|].
  destruct (list_index tg l) as [m|]; simpl; [|done].
  intros [= <-]. by apply IH.
Qed.

Lemma list_index_elem_of tg all_tags :
  tg ∈ all_tags → ∃ i, list_index tg all_tags = Ok i.
Proof.
  induction all_tags as [|y l IH]; [by intros ?%elem_of_nil|].
  intros Hin. simpl. destruct (decide (tg = y)) as [|Hne]; [by eexists|].
  destruct IH as [i Hi]; [set_solver|]. rewrite Hi. by eexists.
Qed.

(** What [prepare_job] does when the capture opens, the frame at [stime]
    can be read and the indices are within the table. *)
Lemma prepare_job_ok (w : world) job_tags stime etime pts all_tags frames
    frame0 tag_order :
  VideoCapture (video_path (self w)) = Some frames →
  frames !! stime = Some frame0 →
  tags (self w) = Some all_tags →
  mapM (λ tg, list_index tg all_tags) job_tags = Ok tag_order →
  points (self w) = Some pts →
  cols_in_bounds pts tag_order = true →
  stime < length pts →
  ∃ pts1 p0,
    assign_block pts (stime + 1) etime tag_order (f64_zero, f64_zero)
    = Ok pts1
    ∧ take_row pts1 stime tag_order = Ok p0
    ∧ length p0 = length tag_order
    ∧ prepare_job job_tags stime etime w
      = ({| self := set_points FlowQueue TrackingData pts1 (self w);
            stdout := stdout w |},
         Ok {| fs_frames := frames; fs_stime := stime; fs_etime := etime;
               fs_tag_order := tag_order; fs_old_gray := flat_color frame0;
               fs_p0 := p0; fs_status := replicate (length p0) true |}).
Proof.
  intros Hcap Hframe Htags Hidx Hpts Hbounds Hlt.
  assert (∃ pts1, assign_block pts (stime + 1) etime tag_order
                    (f64_zero, f64_zero) = Ok pts1) as [pts1 Hblock].
  { unfold assign_block. rewrite Hbounds. by eexists. }
  assert (cols_in_bounds pts1 tag_order = true) as Hbounds1.
  { unfold assign_block in Hblock. rewrite Hbounds in Hblock.
    injection Hblock as <-. unfold cols_in_bounds, ncols in *.
    destruct pts as [|row pts]; [done|]. simpl.
    destruct (_ && _); by rewrite ?put_cols_length. }
  assert (∃ p0, take_row pts1 stime tag_order = Ok p0
                ∧ length p0 = length tag_order) as (p0 & Htake & Hlen).
  { unfold take_row. rewrite Hbounds1.
    destruct (lookup_lt_is_Some_2 pts1 stime) as [row ->].
    { by rewrite (assign_block_length _ _ _ _ _ _ Hblock). }
    eexists. split; [done|]. by rewrite length_map. }
  exists pts1, p0. repeat split; try done.
  unfold OpticalFlow.prepare_job. se_unfold. rewrite Hcap, Hframe.
  rewrite (tag_indices_pure w all_tags job_tags Htags), Hidx.
  unfold getattr, setattr. se_unfold. rewrite Hpts, Hblock. simpl.
  by rewrite Htake.
Qed.


(** A job that passes the test on its start frame goes on to
    [prepare_job], with the table, the tags and the output as they were. *)
Lemma begin_job_passes (w : world) job_tags stime etime rest hist total :
  inquiries (self w) = Some ((job_tags, stime, etime) :: rest) →
  history (self w) = Some hist →
  known_frame_count (self w) = Some total →
  stime < total →
  ∃ w0,
    points (self w0) = points (self w)
    ∧ tags (self w0) = tags (self w)
    ∧ video_path (self w0) = video_path (self w)
    ∧ dataset (self w0) = dataset (self w)
    ∧ stdout w0 = stdout w
    ∧ begin_job w
      = (let (w1, r) := prepare_job job_tags stime etime w0 in
         (w1, match r with Ok s => Ok (Some s) | Raise e => Raise e end)).
Proof.
  intros Hinq Hhist Hn Hlt.
  destruct w as [[vp fq ds nf inq hs pts tgs] out]. simpl in *. subst.
  set (w1 := {| self := {| video_path := vp; flow_queues := fq;
                           dataset := ds; _num_frames := nf;
                           inquiries := Some rest;
                           history := Some (hist ++
                                              [(job_tags, stime, etime)]);
                           points := pts; tags := tgs |};
                stdout := out |}).
  destruct (num_frames_known w1 total Hn)
    as (w2 & Hrun & Hp & Ht & _ & _ & Hd & Hv & _ & Ho & _).
  exists w2. repeat split; try done.
  unfold OpticalFlow.begin_job, getattr, setattr, set_history,
    set_inquiries.
  se_unfold. cbn -[OpticalFlow.num_frames OpticalFlow.prepare_job].
  change (num_frames _) with (num_frames w1). rewrite Hrun.
  destruct (Nat.leb_spec total stime) as [?|_]; [lia|].
  by destruct (prepare_job _ _ _ _) as [? []].
Qed.


(** C2.  A job whose start frame is not below the frame count of the
    video is skipped: [next_inquiry] prints its message and returns, and
    neither the track table nor the dataset is touched.  The job leaves
    [inquiries] and is appended to [history]. *)
Theorem next_inquiry_skips_late_job (w : world) job_tags stime etime rest
    hist total :
  inquiries (self w) = Some ((job_tags, stime, etime) :: rest) →
  history (self w) = Some hist →
  known_frame_count (self w) = Some total →
  total ≤ stime →
  ∃ w', next_inquiry w = (w', Ok tt)
        ∧ points (self w') = points (self w)
        ∧ dataset (self w') = dataset (self w)
        ∧ stdout w'
          = stdout w ++ [Print "start frame greater than total video frame"]
        ∧ inquiries (self w') = Some rest
        ∧ history (self w') = Some (hist ++ [(job_tags, stime, etime)]).
Proof.
  intros Hinq Hhist Hn Hle.
  destruct w as [[vp fq ds nf inq hs pts tgs] out]. simpl in *. subst.
  set (w1 := {| self := {| video_path := vp; flow_queues := fq;
                           dataset := ds; _num_frames := nf;
                           inquiries := Some rest;
                           history := Some (hist ++
                                              [(job_tags, stime, etime)]);
                           points := pts; tags := tgs |};
                stdout := out |}).
  destruct (num_frames_known w1 total Hn)
    as (w2 & Hrun & Hp & _ & Hi & Hh & Hd & _ & _ & Ho & _).
  unfold OpticalFlow.next_inquiry, OpticalFlow.begin_job, getattr, setattr,
    print, set_history, set_inquiries.
  se_unfold. cbn -[OpticalFlow.num_frames].
  change (num_frames _) with (num_frames w1). rewrite Hrun.
  destruct (Nat.leb_spec total stime) as [_|?]; [|lia].
  cbn. eexists. split; [reflexivity|]. simpl.
  rewrite Hp, Hd, Ho, Hi, Hh. done.
Qed.

Local Abbreviation run_flow :=
  (OpticalFlow.run_flow frame gray FlowQueue TrackingData flat_color
     lk_track).

Lemma next_inquiry_started (w w1 : world) setup :
  begin_job w = (w1, Ok (Some setup)) →
  next_inquiry w = run_flow setup w1.
Proof.
  intros H. unfold OpticalFlow.next_inquiry. se_unfold. by rewrite H.
Qed.

(** C5.  For a job that passes the test on its start frame (the capture
    opens, the frame at [stime] is read, the tags of the job are tags of
    the tracker and index columns of the table), the state in which the
    flow loop starts has the entries of the job's tag columns at the
    frames [stime + 1] to [etime - 1] set to [0.0], the value this module
    writes for a position it does not know, and every other entry as it
    was. *)
Theorem begin_job_clears_job_range (w : world) job_tags stime etime rest
    hist total pts all_tags frames frame0 tag_order :
  inquiries (self w) = Some ((job_tags, stime, etime) :: rest) →
  history (self w) = Some hist →
  known_frame_count (self w) = Some total →
  stime < total →
  VideoCapture (video_path (self w)) = Some frames →
  frames !! stime = Some frame0 →
  tags (self w) = Some all_tags →
  mapM (λ tg, list_index tg all_tags) job_tags = Ok tag_order →
  points (self w) = Some pts →
  cols_in_bounds pts tag_order = true →
  stime < length pts →
  ∃ w1 setup pts1,
    begin_job w = (w1, Ok (Some setup))
    ∧ next_inquiry w = run_flow setup w1
    ∧ fs_tag_order setup = tag_order
    ∧ fs_stime setup = stime ∧ fs_etime setup = etime
    ∧ points (self w1) = Some pts1
    ∧ ∀ f c,
        cell pts1 f c
        = (λ p, if decide ((stime + 1 ≤ f < etime) ∧ c ∈ tag_order)
                then (f64_zero, f64_zero) else p) <$> cell pts f c.
Proof.
  intros Hinq Hhist Hn Hlt Hcap Hframe Htags Hidx Hpts Hbounds Hrow.
  destruct (begin_job_passes w _ _ _ _ _ _ Hinq Hhist Hn Hlt)
    as (w0 & Hp0 & Ht0 & Hv0 & _ & _ & Hbegin).
  rewrite <- Hv0 in Hcap. rewrite <- Ht0 in Htags. rewrite <- Hp0 in Hpts.
  destruct (prepare_job_ok w0 job_tags stime etime pts all_tags frames
              frame0 tag_order Hcap Hframe Htags Hidx Hpts Hbounds Hrow)
    as (pts1 & p0 & Hblock & _ & _ & Hprep).
  rewrite Hprep in Hbegin.
  eexists _, _, pts1. split; [exact Hbegin|].
  split; [by apply next_inquiry_started|].
  repeat split; try done.
  intros f c. by apply cell_assign_block.
Qed.


(** *** What a started job implies *)

Lemma num_frames_keeps (w w' : world) r :
  num_frames w = (w', r) →
  points (self w') = points (self w) ∧ tags (self w') = tags (self w)
  ∧ video_path (self w') = video_path (self w).
Proof.
  destruct w as [[vp fq ds nf inq hist pts tgs] out].
  unfold OpticalFlow.num_frames, getattr, setattr. se_unfold. simpl.
  destruct nf as [[m|]|]; by intros [= <- <-].
Qed.

Lemma tag_indices_keeps (w w' : world) job_tags r :
  tag_indices job_tags w = (w', r) → w' = w.
Proof.
  revert r. induction job_tags as [|tg rest IH]; intros r.
  - by intros [= <- <-].
  - cbn [OpticalFlow.tag_indices]. unfold getattr. se_unfold.
    destruct (tags (self w)); [|by intros [= <- <-]].
    destruct (list_index tg _); [|by intros [= <- <-]].
    fold (OpticalFlow.tag_indices FlowQueue TrackingData rest).
    destruct (tag_indices rest w) as [w2 [idxs|e]] eqn:Hrest.
    + intros [= <- <-]. by eapply IH.
    + intros [= <- <-]. by eapply IH.
Qed.

Lemma take_row_length pts r cols p0 :
  take_row pts r cols = Ok p0 → length p0 = length cols.
Proof.
  unfold take_row. destruct (pts !! r); [|done].
  destruct (cols_in_bounds pts cols); [|done].
  intros [= <-]. by rewrite length_map.
Qed.

Lemma prepare_job_inv (w w1 : world) job_tags stime etime setup :
  prepare_job job_tags stime etime w = (w1, Ok setup) →
  ∃ pts pts1,
    points (self w) = Some pts
    ∧ assign_block pts (stime + 1) etime (fs_tag_order setup)
        (f64_zero, f64_zero) = Ok pts1
    ∧ points (self w1) = Some pts1
    ∧ length (fs_p0 setup) = length (fs_tag_order setup)
    ∧ fs_status setup = replicate (length (fs_p0 setup)) true
    ∧ fs_stime setup = stime ∧ fs_etime setup = etime.
Proof.
  unfold OpticalFlow.prepare_job. se_unfold.
  destruct (VideoCapture _) as [frames|]; [|done].
  destruct (frames !! stime) as [frame0|]; [|done].
  destruct (tag_indices job_tags w) as [w2 [tag_order|e]] eqn:Hidx;
    [|done].
  apply tag_indices_keeps in Hidx as ->.
  unfold getattr, setattr. se_unfold.
  destruct (points (self w)) as [pts|] eqn:Hpts; [|done].
  destruct (assign_block _ _ _ _ _) as [pts1|] eqn:Hblock; [|done].
  simpl. destruct (take_row _ _ _) as [p0|] eqn:Htake; [|done].
  intros [= <- <-]. exists pts, pts1. simpl. repeat split; try done.
  by eapply take_row_length.
Qed.

Lemma begin_job_inv (w w1 : world) setup :
  begin_job w = (w1, Ok (Some setup)) →
  ∃ pts pts1,
    points (self w) = Some pts
    ∧ assign_block pts (fs_stime setup + 1) (fs_etime setup)
        (fs_tag_order setup) (f64_zero, f64_zero) = Ok pts1
    ∧ points (self w1) = Some pts1
    ∧ length (fs_p0 setup) = length (fs_tag_order setup)
    ∧ fs_status setup = replicate (length (fs_p0 setup)) true.
Proof.
  destruct w as [[vp fq ds nf inq hist pts tgs] out].
  destruct inq as [[|[[job_tags stime] etime] rest]|], hist as [hist|];
    unfold OpticalFlow.begin_job, getattr, setattr, print, set_history,
      set_inquiries;
    se_unfold; cbn -[OpticalFlow.num_frames OpticalFlow.prepare_job];
    try done.
  match goal with
  | |- context [OpticalFlow.num_frames _ _ _ ?x] =>
      destruct (num_frames x) as [w2 [total|e]] eqn:Hn; [|done]
  end.
  apply num_frames_keeps in Hn as (Hp & _ & _). simpl in Hp.
  destruct (total <=? stime); [done|].
  destruct (prepare_job _ _ _ w2) as [w3 [s|e]] eqn:Hprep; [|done].
  intros [= <- <-].
  destruct (prepare_job_inv _ _ _ _ _ _ Hprep)
    as (pts0 & pts1 & Hpts0 & Hblock & Hpts1 & Hlen & Hst & <- & <-).
  exists pts0, pts1. rewrite Hp in Hpts0. by repeat split.
Qed.


(** *** The flow loop *)

Local Abbreviation flow_body :=
  (OpticalFlow.flow_body frame gray FlowQueue TrackingData flat_color
     lk_track).
Local Abbreviation flow_pass :=
  (OpticalFlow.flow_pass frame gray FlowQueue TrackingData flat_color
     lk_track).
Local Abbreviation flow_after :=
  (OpticalFlow.flow_after frame gray FlowQueue TrackingData flat_color
     lk_track).
Local Abbreviation flow_rest :=
  (OpticalFlow.flow_rest frame gray FlowQueue TrackingData flat_color
     lk_track).
Local Abbreviation flow_report :=
  (OpticalFlow.flow_report frame gray FlowQueue TrackingData flat_color
     lk_track).
Local Abbreviation flow_conf :=
  (OpticalFlow.flow_conf gray FlowQueue TrackingData).
Local Abbreviation calcOpticalFlowPyrLK :=
  (OpticalFlow.calcOpticalFlowPyrLK gray lk_track).

(** A pass that does not complete leaves the instance as it was: the
    loop stops there, by [break] or by an exception of the write. *)
Lemma flow_rest_stop s (c : flow_conf) :
  flow_pass s c = None → (flow_rest s c).1 = fc_world c.
Proof.
  unfold OpticalFlow.flow_pass, OpticalFlow.flow_rest.
  destruct (fc_todo c) as [|num_frame todo]; [done|].
  cbn [OpticalFlow.flow_loop]. se_unfold.
  unfold OpticalFlow.flow_body.
  destruct (fs_frames s !! _) as [fr|]; [|done].
  destruct (calcOpticalFlowPyrLK _ _ _) as [[p1 new_status] err].
  destruct (forallb negb _); [done|].
  unfold getattr, setattr. se_unfold.
  destruct (points (self (fc_world c))) as [pts|]; [|done].
  by destruct (assign_row _ _ _ _).
Qed.

Lemma flow_rest_pass s (c c' : flow_conf) :
  flow_pass s c = Some c' → flow_rest s c = flow_rest s c'.
Proof.
  unfold OpticalFlow.flow_pass, OpticalFlow.flow_rest.
  destruct (fc_todo c) as [|num_frame todo]; [done|].
  cbn [OpticalFlow.flow_loop]. se_unfold.
  destruct (flow_body _ _ _ _ _ _ _ _ _) as [w' [[[[[g p] st] e]|]|]];
    try done.
  by intros [= <-].
Qed.

Lemma flow_rest_after s k (c c' : flow_conf) :
  flow_after s k c = Some c' → flow_rest s c = flow_rest s c'.
Proof.
  revert c. induction k as [|k IH]; intros c; simpl; [by intros [= ->]|].
  destruct (flow_pass s c) as [c1|] eqn:Hpass; [|done]. simpl.
  intros H. rewrite (flow_rest_pass _ _ _ Hpass). by apply IH.
Qed.

(** What a completed pass has done. *)
Lemma flow_pass_inv s (c c' : flow_conf) :
  flow_pass s c = Some c' →
  ∃ num_frame fr pts row,
    let r := fs_stime s + num_frame + 1 in
    let out := calcOpticalFlowPyrLK (fc_old_gray c) (flat_color fr)
                 (fc_p0 c) in
    fc_todo c = num_frame :: fc_todo c'
    ∧ fs_frames s !! r = Some fr
    ∧ fc_old_gray c' = flat_color fr
    ∧ fc_p0 c' = out.1.1
    ∧ fc_status c' = zip_with andb (fc_status c) out.1.2
    ∧ forallb negb (fc_status c') = false
    ∧ points (self (fc_world c)) = Some pts
    ∧ pts !! r = Some row
    ∧ cols_in_bounds pts (compress (fc_status c') (fs_tag_order s)) = true
    ∧ points (self (fc_world c'))
      = Some (<[r := put_cols (compress (fc_status c') (fs_tag_order s))
                       (compress (fc_status c') out.1.1) row]> pts)
    ∧ stdout (fc_world c') = stdout (fc_world c).
Proof.
  unfold OpticalFlow.flow_pass.
  destruct (fc_todo c) as [|num_frame todo] eqn:Htodo; [done|].
  unfold OpticalFlow.flow_body.
  destruct (fs_frames s !! _) as [fr|] eqn:Hfr; [|done].
  destruct (calcOpticalFlowPyrLK _ _ _) as [[p1 new_status] err] eqn:Hlk.
  destruct (forallb negb _) eqn:Hall; [done|].
  unfold getattr, setattr. se_unfold.
  destruct (points (self (fc_world c))) as [pts|] eqn:Hpts; [|done].
  unfold assign_row.
  destruct (pts !! _) as [row|] eqn:Hrow; [|done].
  destruct (cols_in_bounds _ _) eqn:Hb; [|done].
  intros [= <-]. exists num_frame, fr, pts, row. cbv zeta.
  rewrite Hlk. simpl. by repeat split.
Qed.

(** Induction over the passes that remain. *)
Lemma flow_conf_ind s (P : flow_conf → Prop) :
  (∀ c, flow_pass s c = None → P c) →
  (∀ c c', flow_pass s c = Some c' → P c' → P c) →
  ∀ c, P c.
Proof.
  intros Hstop Hpass c.
  remember (length (fc_todo c)) as n eqn:Hn.
  revert c Hn. induction n as [|n IH]; intros c Hn.
  - apply Hstop. unfold OpticalFlow.flow_pass.
    by destruct (fc_todo c).
  - destruct (flow_pass s c) as [c'|] eqn:Hc; [|by apply Hstop].
    apply (Hpass c c' Hc), IH.
    destruct (flow_pass_inv s c c' Hc) as (? & ? & ? & ? & Htodo & _).
    rewrite Htodo in Hn. simpl in Hn. lia.
Qed.


Lemma table_points (w : world) pts :
  points (self w) = Some pts → table w = pts.
Proof. unfold table. by intros ->. Qed.

(** A completed pass writes one row of the table, and in it only the
    columns of the points whose status is still valid. *)
Lemma flow_pass_cell s (c c' : flow_conf) num_frame f col :
  flow_pass s c = Some c' →
  fc_todo c = num_frame :: fc_todo c' →
  f ≠ fs_stime s + num_frame + 1
  ∨ col ∉ compress (fc_status c') (fs_tag_order s) →
  cell (table (fc_world c')) f col = cell (table (fc_world c)) f col.
Proof.
  intros Hpass Htodo Hcase.
  destruct (flow_pass_inv s c c' Hpass)
    as (m & fr & pts & row & Htodo' & _ & _ & _ & _ & _ & Hpts & Hrow & _
        & Hpts' & _).
  rewrite Htodo in Htodo'. injection Htodo' as <-.
  rewrite (table_points _ _ Hpts), (table_points _ _ Hpts').
  unfold cell.
  destruct (decide (f = fs_stime s + num_frame + 1)) as [->|Hne].
  - destruct Hcase as [?|Hcol]; [done|].
    rewrite list_lookup_insert_eq by (by eapply lookup_lt_Some).
    rewrite Hrow. simpl. by apply put_cols_lookup_notin.
  - by rewrite list_lookup_insert_ne.
Qed.

Lemma flow_pass_status_lost s (c c' : flow_conf) i :
  flow_pass s c = Some c' →
  fc_status c !! i ≠ Some true → fc_status c' !! i ≠ Some true.
Proof.
  intros Hpass Hst.
  destruct (flow_pass_inv s c c' Hpass)
    as (m & fr & pts & row & _ & _ & _ & _ & -> & _).
  rewrite lookup_zip_with.
  destruct (fc_status c !! i) as [[]|]; simpl; try done.
  by destruct (_ !! i).
Qed.

(** A point whose status is not valid is not written by the rest of the
    loop, at any frame. *)
Lemma flow_rest_masked s i col :
  NoDup (fs_tag_order s) → fs_tag_order s !! i = Some col →
  ∀ c : flow_conf,
    fc_status c !! i ≠ Some true →
    ∀ f, cell (table (flow_rest s c).1) f col
         = cell (table (fc_world c)) f col.
Proof.
  intros Hnd Hcol. apply (flow_conf_ind s (λ c, _ → ∀ f, _ = _)).
  - intros c Hstop _ f. by rewrite (flow_rest_stop _ _ Hstop).
  - intros c c' Hpass IH Hst f.
    rewrite (flow_rest_pass _ _ _ Hpass).
    rewrite IH by (by eapply flow_pass_status_lost).
    destruct (flow_pass_inv s c c' Hpass) as (m & ? & ? & ? & Htodo & _).
    apply (flow_pass_cell s c c' m); [done..|]. right.
    apply (compress_masked_out _ _ i); [done..|].
    by eapply flow_pass_status_lost.
Qed.

(** The rest of the loop writes only the rows of the frames it has still
    to read. *)
Lemma flow_rest_rows s f col :
  ∀ c : flow_conf,
    (∀ m, m ∈ fc_todo c → f ≠ fs_stime s + m + 1) →
    cell (table (flow_rest s c).1) f col = cell (table (fc_world c)) f col.
Proof.
  apply (flow_conf_ind s (λ c, _ → _ = _)).
  - intros c Hstop _. by rewrite (flow_rest_stop _ _ Hstop).
  - intros c c' Hpass IH Hf.
    rewrite (flow_rest_pass _ _ _ Hpass).
    destruct (flow_pass_inv s c c' Hpass) as (m & ? & ? & ? & Htodo & _).
    rewrite IH.
    + apply (flow_pass_cell s c c' m); [done..|]. left.
      apply Hf. rewrite Htodo. set_solver.
    + intros m' Hm'. apply Hf. rewrite Htodo. set_solver.
Qed.


(** The flow routine answers point by point. *)
Lemma calc_lookup g g' (p0 : list point) i :
  (calcOpticalFlowPyrLK g g' p0).1.1 !! i
  = (λ p, (lk_track g g' p).1.1) <$> p0 !! i
  ∧ (calcOpticalFlowPyrLK g g' p0).1.2 !! i
    = (λ p, (lk_track g g' p).1.2) <$> p0 !! i.
Proof.
  unfold OpticalFlow.calcOpticalFlowPyrLK. simpl.
  rewrite !lookup_map. by destruct (p0 !! i).
Qed.

(** The pass in which the flow routine reports a failure for a point, and
    every later pass, leave the column of that point as it was. *)
Lemma flow_rest_report_lost s (c : flow_conf) i col f0 p1 :
  NoDup (fs_tag_order s) → fs_tag_order s !! i = Some col →
  flow_report s c i = Some (f0, p1, false) →
  ∀ f, cell (table (flow_rest s c).1) f col
       = cell (table (fc_world c)) f col.
Proof.
  intros Hnd Hcol Hrep f.
  destruct (flow_pass s c) as [c'|] eqn:Hpass;
    [|by rewrite (flow_rest_stop _ _ Hpass)].
  rewrite (flow_rest_pass _ _ _ Hpass).
  destruct (flow_pass_inv s c c' Hpass)
    as (m & fr & pts & row & Htodo & Hfr & _ & _ & Hst & _).
  assert (fc_status c' !! i ≠ Some true) as Hlost.
  { unfold OpticalFlow.flow_report in Hrep. rewrite Htodo in Hrep.
    simpl in Hrep. rewrite Hfr in Hrep. simpl in Hrep.
    destruct (fc_p0 c !! i) as [p|] eqn:Hp; [|done]. simpl in Hrep.
    injection Hrep as _ _ Hfalse.
    rewrite Hst, lookup_zip_with.
    destruct (calc_lookup (fc_old_gray c) (flat_color fr) (fc_p0 c) i)
      as [_ ->].
    rewrite Hp. simpl. rewrite Hfalse.
    destruct (fc_status c !! i) as [[]|]; simpl; done. }
  rewrite (flow_rest_masked s i col Hnd Hcol c' Hlost).
  apply (flow_pass_cell s c c' m); [done..|]. right.
  by apply (compress_masked_out _ _ i).
Qed.

(** Once the status of a point is not valid it stays so. *)
Lemma flow_after_status_lost s j (c c' : flow_conf) i :
  flow_after s j c = Some c' →
  fc_status c !! i ≠ Some true → fc_status c' !! i ≠ Some true.
Proof.
  revert c. induction j as [|j IH]; intros c; simpl; [by intros [= ->]|].
  destruct (flow_pass s c) as [c1|] eqn:Hpass; [|done]. simpl.
  intros Hafter Hst. apply (IH c1 Hafter).
  by eapply flow_pass_status_lost.
Qed.

(** The loop keeps one status per point. *)
Lemma flow_pass_lengths s (c c' : flow_conf) :
  flow_pass s c = Some c' →
  length (fc_status c) = length (fc_p0 c) →
  length (fc_status c') = length (fc_p0 c')
  ∧ length (fc_p0 c') = length (fc_p0 c).
Proof.
  intros Hpass Hlen.
  destruct (flow_pass_inv s c c' Hpass)
    as (m & fr & pts & row & _ & _ & _ & -> & -> & _).
  unfold OpticalFlow.calcOpticalFlowPyrLK. simpl.
  rewrite length_zip_with, !length_map. lia.
Qed.

Lemma flow_after_lengths s j (c c' : flow_conf) :
  flow_after s j c = Some c' →
  length (fc_status c) = length (fc_p0 c) →
  length (fc_status c') = length (fc_p0 c')
  ∧ length (fc_p0 c') = length (fc_p0 c).
Proof.
  revert c. induction j as [|j IH]; intros c; simpl; [by intros [= ->]|].
  destruct (flow_pass s c) as [c1|] eqn:Hpass; [|done]. simpl.
  intros Hafter Hlen.
  destruct (flow_pass_lengths s c c1 Hpass Hlen) as [H1 H2].
  destruct (IH c1 Hafter H1) as [H3 H4]. split; [done|congruence].
Qed.

(** The passes already made have read the first frames of the job. *)
Lemma flow_after_todo s j (c c' : flow_conf) :
  flow_after s j c = Some c' → fc_todo c' = drop j (fc_todo c).
Proof.
  revert c. induction j as [|j IH]; intros c; simpl; [by intros [= ->]|].
  destruct (flow_pass s c) as [c1|] eqn:Hpass; [|done]. simpl.
  intros Hafter. rewrite (IH c1 Hafter).
  destruct (flow_pass_inv s c c1 Hpass) as (m & ? & ? & ? & -> & _).
  done.
Qed.

Lemma flow_after_rows s j (c c' : flow_conf) f col :
  flow_after s j c = Some c' →
  (∀ m, m ∈ take j (fc_todo c) → f ≠ fs_stime s + m + 1) →
  cell (table (fc_world c')) f col = cell (table (fc_world c)) f col.
Proof.
  revert c. induction j as [|j IH]; intros c; simpl; [by intros [= ->]|].
  destruct (flow_pass s c) as [c1|] eqn:Hpass; [|done]. simpl.
  intros Hafter Hf.
  destruct (flow_pass_inv s c c1 Hpass) as (m & ? & ? & ? & Htodo & _).
  rewrite Htodo in Hf. simpl in Hf.
  rewrite (IH c1 Hafter) by (intros m' Hm'; apply Hf; set_solver).
  apply (flow_pass_cell s c c1 m); [done..|]. left. apply Hf. set_solver.
Qed.


Lemma flow_pass_rectangular s (c c' : flow_conf) :
  flow_pass s c = Some c' →
  rectangular (table (fc_world c)) → rectangular (table (fc_world c')).
Proof.
  intros Hpass.
  destruct (flow_pass_inv s c c' Hpass)
    as (m & fr & pts & row & _ & _ & _ & _ & _ & _ & Hpts & Hrow & _
        & Hpts' & _).
  rewrite (table_points _ _ Hpts), (table_points _ _ Hpts').
  apply (rectangular_insert pts _ row); [done|apply put_cols_length].
Qed.

Lemma flow_after_rectangular s j (c c' : flow_conf) :
  flow_after s j c = Some c' →
  rectangular (table (fc_world c)) → rectangular (table (fc_world c')).
Proof.
  revert c. induction j as [|j IH]; intros c; simpl; [by intros [= ->]|].
  destruct (flow_pass s c) as [c1|] eqn:Hpass; [|done]. simpl.
  intros Hafter Hrect. apply (IH c1 Hafter).
  by eapply flow_pass_rectangular.
Qed.

(** A point whose status is valid after a pass has its new position in
    the table, at the frame of that pass, when the job ends. *)
Lemma flow_pass_written s (c c' : flow_conf) i col :
  NoDup (fs_tag_order s) → fs_tag_order s !! i = Some col →
  rectangular (table (fc_world c)) → NoDup (fc_todo c) →
  flow_pass s c = Some c' →
  fc_status c' !! i = Some true →
  ∃ f0 p1, flow_report s c i = Some (f0, p1, true)
           ∧ cell (table (flow_rest s c).1) f0 col = Some p1.
Proof.
  intros Hnd Hcol Hrect Htodo_nd Hpass Hst.
  destruct (flow_pass_inv s c c' Hpass)
    as (m & fr & pts & row & Htodo & Hfr & _ & Hp0' & Hst' & _ & Hpts
        & Hrow & Hbounds & Hpts' & _).
  cbv zeta in *.
  destruct (calc_lookup (fc_old_gray c) (flat_color fr) (fc_p0 c) i)
    as [Hp1 Hs1].
  rewrite Hst', lookup_zip_with, Hs1 in Hst.
  destruct (fc_status c !! i) as [b|] eqn:Hb;
    destruct (fc_p0 c !! i) as [p|] eqn:Hp;
    rewrite ?Hb, ?Hp in Hst; try done.
  cbn [fmap option_fmap option_map mbind option_bind] in Hst, Hp1, Hs1.
  injection Hst as Hst. apply andb_true_iff in Hst as [-> Hok].
  exists (fs_stime s + m + 1), (lk_track (fc_old_gray c) (flat_color fr) p).1.1.
  split.
  { unfold OpticalFlow.flow_report. rewrite Htodo. simpl.
    rewrite Hfr. simpl. rewrite Hp. simpl. by rewrite Hok. }
  rewrite (flow_rest_pass _ _ _ Hpass).
  rewrite flow_rest_rows.
  2:{ intros m' Hm' Heq. rewrite Htodo in Htodo_nd.
      apply NoDup_cons in Htodo_nd as [Hnotin _].
      apply Hnotin. by replace m with m' by lia. }
  rewrite (table_points _ _ Hpts'). unfold cell.
  rewrite list_lookup_insert_eq by (by eapply lookup_lt_Some). simpl.
  assert (fc_status c' !! i = Some true) as Hkept.
  { rewrite Hst', lookup_zip_with, Hb, Hs1. simpl. by rewrite Hok. }
  destruct (compress_kept (fc_status c') (fs_tag_order s)
              (calcOpticalFlowPyrLK (fc_old_gray c) (flat_color fr)
                 (fc_p0 c)).1.1 i col _ Hcol Hp1 Hkept)
    as (j & Hj1 & Hj2).
  apply (put_cols_lookup_in _ _ _ j); [by apply compress_NoDup|done..|].
  rewrite (table_points _ _ Hpts) in Hrect.
  rewrite rectangular_lookup in Hrect. rewrite (Hrect _ _ Hrow).
  unfold cols_in_bounds in Hbounds. rewrite forallb_forall in Hbounds.
  apply Nat.ltb_lt, Hbounds, list_elem_of_In.
  by eapply list_elem_of_lookup_2.
Qed.


Local Abbreviation all_lost_at :=
  (OpticalFlow.all_lost_at frame gray FlowQueue TrackingData flat_color
     lk_track).

Lemma flow_report_frame s (c : flow_conf) i f0 p1 b :
  flow_report s c i = Some (f0, p1, b) →
  ∃ m, head (fc_todo c) = Some m ∧ f0 = fs_stime s + m + 1.
Proof.
  unfold OpticalFlow.flow_report.
  destruct (head (fc_todo c)) as [m|]; [|done]. simpl.
  destruct (fs_frames s !! _); [|done]. simpl.
  destruct (fc_p0 c !! i); [|done]. simpl.
  intros [= <- _ _]. by exists m.
Qed.

Lemma flow_pass_report_lost s (c c' : flow_conf) i f0 p1 :
  flow_pass s c = Some c' →
  flow_report s c i = Some (f0, p1, false) →
  fc_status c' !! i ≠ Some true.
Proof.
  intros Hpass Hrep.
  destruct (flow_pass_inv s c c' Hpass)
    as (m & fr & pts & row & Htodo & Hfr & _ & _ & Hst & _).
  unfold OpticalFlow.flow_report in Hrep. rewrite Htodo in Hrep.
  simpl in Hrep. rewrite Hfr in Hrep. simpl in Hrep.
  destruct (fc_p0 c !! i) as [p|] eqn:Hp; [|done]. simpl in Hrep.
  injection Hrep as _ _ Hfalse.
  rewrite Hst, lookup_zip_with.
  destruct (calc_lookup (fc_old_gray c) (flat_color fr) (fc_p0 c) i)
    as [_ ->].
  rewrite Hp. simpl. rewrite Hfalse.
  destruct (fc_status c !! i) as [[]|]; simpl; done.
Qed.

Lemma next_inquiry_flow_rest (w w1 : world) setup :
  begin_job w = (w1, Ok (Some setup)) →
  next_inquiry w = flow_rest setup (start_conf setup w1).
Proof. intros H. by rewrite (next_inquiry_started _ _ _ H). Qed.

Lemma start_conf_todo_NoDup (w1 : world) setup k (c : flow_conf) :
  flow_after setup k (start_conf setup w1) = Some c →
  NoDup (fc_todo c)
  ∧ fc_todo c = drop k (seq 0 (fs_etime setup - fs_stime setup)).
Proof.
  intros Hafter. rewrite (flow_after_todo _ _ _ _ Hafter). simpl.
  split; [|done].
  eapply sublist_NoDup; first [apply sublist_drop|apply NoDup_seq].
Qed.


(** C7.  When in some pass of a job every point of the batch is lost,
    [next_inquiry] ends there without raising, and the instance, its track
    table included, is as it was before that pass: neither the frame of
    that pass nor any later frame is written. *)
Theorem all_points_lost_ends_job (w w1 : world) setup k (c : flow_conf) :
  begin_job w = (w1, Ok (Some setup)) →
  flow_after setup k (start_conf setup w1) = Some c →
  all_lost_at setup c = true →
  next_inquiry w = (fc_world c, Ok tt).
Proof.
  intros Hbegin Hafter Hlost.
  rewrite (next_inquiry_flow_rest _ _ _ Hbegin).
  rewrite (flow_rest_after _ _ _ _ Hafter).
  unfold OpticalFlow.all_lost_at in Hlost.
  unfold OpticalFlow.flow_rest.
  destruct (fc_todo c) as [|num_frame todo]; [done|].
  cbn [OpticalFlow.flow_loop]. unfold OpticalFlow.flow_body. se_unfold.
  destruct (fs_frames setup !! _) as [fr|]; [|done].
  destruct (calcOpticalFlowPyrLK _ _ _) as [[p1 new_status] err].
  by rewrite Hlost.
Qed.




(** *** What a call leaves alone *)

Lemma assign_block_beyond pts lo hi cols v pts' :
  assign_block pts lo hi cols v = Ok pts' → length pts ≤ lo → pts' = pts.
Proof.
  unfold assign_block. destruct (cols_in_bounds pts cols); [|done].
  intros [= <-] Hlen. apply list_eq. intros i.
  rewrite list_lookup_imap.
  destruct (pts !! i) as [row|] eqn:Hrow; [|done]. simpl.
  apply lookup_lt_Some in Hrow.
  destruct (Nat.leb_spec lo i); [lia|done].
Qed.

Lemma assign_block_bounds pts lo hi cols v pts' cols' :
  assign_block pts lo hi cols v = Ok pts' →
  cols_in_bounds pts' cols' = cols_in_bounds pts cols'.
Proof.
  unfold assign_block. destruct (cols_in_bounds pts cols); [|done].
  intros [= <-]. unfold cols_in_bounds, ncols.
  destruct pts as [|row pts]; [done|]. simpl.
  destruct (_ && _); by rewrite ?put_cols_length.
Qed.

(** Reading [num_frames] changes [_num_frames] at most. *)
Lemma num_frames_frame (w w' : world) r :
  num_frames w = (w', r) →
  points (self w') = points (self w) ∧ tags (self w') = tags (self w)
  ∧ inquiries (self w') = inquiries (self w)
  ∧ history (self w') = history (self w)
  ∧ dataset (self w') = dataset (self w)
  ∧ video_path (self w') = video_path (self w)
  ∧ flow_queues (self w') = flow_queues (self w)
  ∧ stdout w' = stdout w.
Proof.
  destruct w as [[vp fq ds nf inq hist pts tgs] out].
  unfold OpticalFlow.num_frames, getattr, setattr. se_unfold. simpl.
  destruct nf as [[m|]|]; by intros [= <- <-].
Qed.

(** [prepare_job] changes [points] at most, and not even that when it
    raises. *)
Lemma prepare_job_frame (w w' : world) job_tags stime etime r :
  prepare_job job_tags stime etime w = (w', r) →
  tags (self w') = tags (self w)
  ∧ inquiries (self w') = inquiries (self w)
  ∧ history (self w') = history (self w)
  ∧ dataset (self w') = dataset (self w)
  ∧ _num_frames (self w') = _num_frames (self w)
  ∧ stdout w' = stdout w
  ∧ (is_ok r = false → points (self w') = points (self w)).
Proof.
  unfold OpticalFlow.prepare_job. se_unfold.
  destruct (VideoCapture _) as [frames|]; [|by intros [= <- <-]].
  destruct (frames !! stime) as [frame0|]; [|by intros [= <- <-]].
  destruct (tag_indices job_tags w) as [w2 [tag_order|e]] eqn:Hidx;
    apply tag_indices_keeps in Hidx as ->; [|by intros [= <- <-]].
  unfold getattr, setattr. se_unfold.
  destruct (points (self w)) as [pts|] eqn:Hpts; [|by intros [= <- <-]].
  destruct (assign_block _ _ _ _ _) as [pts1|] eqn:Hblock;
    [|by intros [= <- <-]].
  simpl. unfold take_row.
  destruct (pts1 !! stime) as [row|] eqn:Hrow.
  - rewrite (assign_block_bounds _ _ _ _ _ _ tag_order Hblock).
    assert (cols_in_bounds pts tag_order = true) as ->.
    { unfold assign_block in Hblock.
      by destruct (cols_in_bounds pts tag_order). }
    by intros [= <- <-].
  - intros [= <- <-]. simpl. repeat split; try done. intros _.
    rewrite ?Hpts. f_equal. eapply assign_block_beyond; [done|].
    apply lookup_ge_None in Hrow.
    rewrite (assign_block_length _ _ _ _ _ _ Hblock) in Hrow. lia.
Qed.

(** X1.  Whenever [next_inquiry] stops before the flow loop, because no
    inquiry is left, because the job starts after the last frame or
    because something raises (a missing attribute, a video that does not
    open, an unknown tag, an index out of range), the track table and
    the dataset are exactly as they were. *)
Theorem begin_job_without_flow_keeps_table (w w' : world) r :
  begin_job w = (w', r) →
  (∀ setup, r ≠ Ok (Some setup)) →
  points (self w') = points (self w) ∧ dataset (self w') = dataset (self w)
  ∧ tags (self w') = tags (self w).
Proof.
  destruct w as [[vp fq ds nf inq hist pts tgs] out].
  destruct inq as [[|[[job_tags stime] etime] rest]|], hist as [hist|];
    unfold OpticalFlow.begin_job, getattr, setattr, print, set_history,
      set_inquiries;
    se_unfold; cbn -[OpticalFlow.num_frames OpticalFlow.prepare_job];
    try (by intros [= <- <-]).
  match goal with
  | |- context [OpticalFlow.num_frames _ _ _ ?x] =>
      destruct (num_frames x) as [w2 [total|e]] eqn:Hn
  end.
  2:{ apply num_frames_frame in Hn as (Hp & Ht & _ & _ & Hd & _).
      by intros [= <- <-]. }
  apply num_frames_frame in Hn as (Hp & Ht & _ & _ & Hd & _).
  simpl in Hp, Ht, Hd.
  destruct (total <=? stime).
  { intros [= <- <-] _. simpl. by rewrite Hp, Hd, Ht. }
  destruct (prepare_job _ _ _ w2) as [w3 [s|e]] eqn:Hprep.
  { intros [= <- <-] Hr. by destruct (Hr s). }
  apply prepare_job_frame in Hprep as (Ht3 & _ & _ & Hd3 & _ & _ & Hp3).
  intros [= <- <-] _. rewrite Hp3 by done. by rewrite Ht3, Hd3, Hp, Hd, Ht.
Qed.


(** The flow loop assigns [points] and nothing else. *)
Lemma flow_pass_attrs s (c c' : flow_conf) :
  flow_pass s c = Some c' →
  inquiries (self (fc_world c')) = inquiries (self (fc_world c))
  ∧ history (self (fc_world c')) = history (self (fc_world c))
  ∧ dataset (self (fc_world c')) = dataset (self (fc_world c))
  ∧ tags (self (fc_world c')) = tags (self (fc_world c))
  ∧ _num_frames (self (fc_world c')) = _num_frames (self (fc_world c))
  ∧ length (table (fc_world c')) = length (table (fc_world c)).
Proof.
  unfold OpticalFlow.flow_pass, table.
  destruct (fc_todo c) as [|num_frame todo]; [done|].
  unfold OpticalFlow.flow_body.
  destruct (fs_frames s !! _) as [fr|]; [|done].
  destruct (calcOpticalFlowPyrLK _ _ _) as [[p1 new_status] err].
  destruct (forallb negb _); [done|].
  unfold getattr, setattr. se_unfold.
  destruct (points (self (fc_world c))) as [pts|]; [|done].
  unfold assign_row.
  destruct (pts !! _) as [row|]; [|done].
  destruct (cols_in_bounds _ _); [|done].
  intros [= <-]. simpl. by rewrite length_insert.
Qed.

Lemma flow_rest_attrs s :
  ∀ c : flow_conf,
    inquiries (self (flow_rest s c).1) = inquiries (self (fc_world c))
    ∧ history (self (flow_rest s c).1) = history (self (fc_world c))
    ∧ dataset (self (flow_rest s c).1) = dataset (self (fc_world c))
    ∧ tags (self (flow_rest s c).1) = tags (self (fc_world c))
    ∧ length (table (flow_rest s c).1) = length (table (fc_world c)).
Proof.
  apply (flow_conf_ind s).
  - intros c Hstop. by rewrite (flow_rest_stop _ _ Hstop).
  - intros c c' Hpass (Hi & Hh & Hd & Ht & Hl).
    rewrite (flow_rest_pass _ _ _ Hpass).
    destruct (flow_pass_attrs s c c' Hpass) as (Hi' & Hh' & Hd' & Ht' & _ & Hl').
    by rewrite Hi, Hh, Hd, Ht, Hl, Hi', Hh', Hd', Ht', Hl'.
Qed.

(** What [next_inquiry] does to the two job lists, whether it runs the
    job, skips it, raises or finds no job. *)
Lemma next_inquiry_queue (w : world) inq hist :
  inquiries (self w) = Some inq →
  history (self w) = Some hist →
  inquiries (self (next_inquiry w).1) = Some (drop 1 inq)
  ∧ history (self (next_inquiry w).1) = Some (hist ++ take 1 inq)
  ∧ dataset (self (next_inquiry w).1) = dataset (self w).
Proof.
  intros Hinq Hhist.
  assert (∀ w1 r, begin_job w = (w1, r) →
                  inquiries (self w1) = Some (drop 1 inq)
                  ∧ history (self w1) = Some (hist ++ take 1 inq)
                  ∧ dataset (self w1) = dataset (self w)) as Hbegin.
  { destruct w as [[vp fq ds nf inq0 hs pts tgs] out]. simpl in *. subst.
    destruct inq as [|[[job_tags stime] etime] rest].
    { unfold OpticalFlow.begin_job, getattr, print. se_unfold. simpl.
      intros w1 r [= <- <-]. simpl. by rewrite app_nil_r. }
    unfold OpticalFlow.begin_job, getattr, setattr, print, set_history,
      set_inquiries.
    se_unfold. cbn -[OpticalFlow.num_frames OpticalFlow.prepare_job].
    intros w1 r.
    match goal with
    | |- context [OpticalFlow.num_frames _ _ _ ?x] =>
        destruct (num_frames x) as [w2 [total|e]] eqn:Hn
    end;
      apply num_frames_frame in Hn as (_ & _ & Hi & Hh & Hd & _);
      simpl in Hi, Hh, Hd; [|by intros [= <- <-]].
    destruct (total <=? stime); [by intros [= <- <-]|].
    destruct (prepare_job _ _ _ w2) as [w3 r3] eqn:Hprep.
    apply prepare_job_frame in Hprep as (_ & Hi3 & Hh3 & Hd3 & _).
    destruct r3; intros [= <- <-]; by rewrite Hi3, Hh3, Hd3. }
  unfold OpticalFlow.next_inquiry. se_unfold.
  destruct (begin_job w) as [w1 [[setup|]|e]] eqn:Hb;
    destruct (Hbegin _ _ eq_refl) as (Hi & Hh & Hd); try done.
  change (run_flow setup w1) with (flow_rest setup (start_conf setup w1)).
  destruct (flow_rest_attrs setup (start_conf setup w1))
    as (Hi' & Hh' & Hd' & _).
  simpl in Hi', Hh', Hd'. by rewrite Hi', Hh', Hd'.
Qed.

(** X2.  A job is taken from [inquiries] and appended to [history] once,
    whatever [next_inquiry] then does with it: run it, skip it or raise;
    and the dataset is never touched by [next_inquiry]. *)
Theorem next_inquiry_consumes_job (w : world) job rest hist :
  inquiries (self w) = Some (job :: rest) →
  history (self w) = Some hist →
  inquiries (self (next_inquiry w).1) = Some rest
  ∧ history (self (next_inquiry w).1) = Some (hist ++ [job])
  ∧ dataset (self (next_inquiry w).1) = dataset (self w).
Proof.
  intros Hinq Hhist.
  by destruct (next_inquiry_queue w (job :: rest) hist Hinq Hhist)
    as (? & ? & ?).
Qed.

(** Columns that are not columns of the job are not written by the
    loop. *)
Lemma flow_rest_other_columns s f col :
  col ∉ fs_tag_order s →
  ∀ c : flow_conf,
    cell (table (flow_rest s c).1) f col = cell (table (fc_world c)) f col.
Proof.
  intros Hcol. apply (flow_conf_ind s).
  - intros c Hstop. by rewrite (flow_rest_stop _ _ Hstop).
  - intros c c' Hpass IH.
    rewrite (flow_rest_pass _ _ _ Hpass), IH.
    destruct (flow_pass_inv s c c' Hpass) as (m & ? & ? & ? & Htodo & _).
    apply (flow_pass_cell s c c' m); [done..|]. right.
    intros Hin. by apply Hcol, (compress_subseteq (fc_status c')).
Qed.

(** Rows of frames that the capture cannot read are not written by the
    loop. *)
Lemma flow_rest_unread_rows s f col :
  fs_frames s !! f = None →
  ∀ c : flow_conf,
    cell (table (flow_rest s c).1) f col = cell (table (fc_world c)) f col.
Proof.
  intros Hf. apply (flow_conf_ind s).
  - intros c Hstop. by rewrite (flow_rest_stop _ _ Hstop).
  - intros c c' Hpass IH.
    rewrite (flow_rest_pass _ _ _ Hpass), IH.
    destruct (flow_pass_inv s c c' Hpass)
      as (m & fr & ? & ? & Htodo & Hfr & _).
    apply (flow_pass_cell s c c' m); [done..|]. left.
    intros ->. congruence.
Qed.

(** X3.  A job that runs changes the track table only in the columns of
    its tags and in the rows of the frames [stime + 1] to [etime]: the
    seed row [stime], the rows after [etime] and the columns of the other
    tags are as they were, and the table keeps its number of rows.  (The
    last row, [etime], can be written although it is not cleared.) *)
Theorem next_inquiry_writes_job_range_only (w w1 : world) setup f col :
  begin_job w = (w1, Ok (Some setup)) →
  f ≤ fs_stime setup ∨ fs_etime setup < f ∨ col ∉ fs_tag_order setup →
  cell (table (next_inquiry w).1) f col = cell (table w) f col
  ∧ length (table (next_inquiry w).1) = length (table w).
Proof.
  intros Hbegin Hout.
  destruct (begin_job_inv w w1 setup Hbegin)
    as (pts & pts1 & Hpts & Hblock & Hpts1 & _).
  rewrite (next_inquiry_flow_rest _ _ _ Hbegin). split.
  - transitivity (cell (table w1) f col).
    + destruct (decide (col ∈ fs_tag_order setup)) as [Hin|Hnotin].
      * apply (flow_rest_rows setup f col (start_conf setup w1)).
        simpl. intros m Hm. apply list_elem_of_In, in_seq in Hm.
        destruct Hout as [?|[?|?]]; [lia|lia|done].
      * by apply (flow_rest_other_columns setup f col Hnotin
                    (start_conf setup w1)).
    + rewrite (table_points _ _ Hpts1), (table_points _ _ Hpts).
      rewrite (cell_assign_block _ _ _ _ _ _ f col Hblock).
      destruct (cell pts f col); [|done]. simpl.
      rewrite decide_False; [done|].
      intros [? ?]. destruct Hout as [?|[?|?]]; [lia|lia|done].
  - destruct (flow_rest_attrs setup (start_conf setup w1))
      as (_ & _ & _ & _ & ->).
    simpl. rewrite (table_points _ _ Hpts1), (table_points _ _ Hpts).
    by eapply assign_block_length.
Qed.

(** X4.  The loop stops at the first frame that the capture cannot
    read: a row at or beyond the number of frames of the video is never
    given a flow position; it holds what the clearing left there. *)
Theorem next_inquiry_stops_at_end_of_video (w w1 : world) setup f col :
  begin_job w = (w1, Ok (Some setup)) →
  length (fs_frames setup) ≤ f →
  cell (table (next_inquiry w).1) f col = cell (table w1) f col
  ∧ (fs_stime setup < f < fs_etime setup → col ∈ fs_tag_order setup →
     is_Some (cell (table w) f col) →
     cell (table (next_inquiry w).1) f col = Some (f64_zero, f64_zero)).
Proof.
  intros Hbegin Hf.
  destruct (begin_job_inv w w1 setup Hbegin)
    as (pts & pts1 & Hpts & Hblock & Hpts1 & _).
  rewrite (next_inquiry_flow_rest _ _ _ Hbegin).
  assert (cell (table (flow_rest setup (start_conf setup w1)).1) f col
          = cell (table w1) f col) as Hsame.
  { apply (flow_rest_unread_rows setup f col
             (lookup_ge_None_2 _ _ Hf) (start_conf setup w1)). }
  split; [done|]. intros Hrange Hcol Hcell. rewrite Hsame.
  rewrite (table_points _ _ Hpts1).
  rewrite (cell_assign_block _ _ _ _ _ _ f col Hblock).
  rewrite (table_points _ _ Hpts) in Hcell. destruct Hcell as [p ->].
  simpl. rewrite decide_True; [done|]. split; [lia|done].
Qed.


(** X5.  The frames of the video are counted at most once: a call of
    [num_frames] that returns leaves its value in [_num_frames], and the
    next call returns it without changing the instance. *)
Theorem num_frames_counts_once (w w' : world) n :
  num_frames w = (w', Ok n) →
  _num_frames (self w') = Some (Some n)
  ∧ num_frames w' = (w', Ok n)
  ∧ known_frame_count (self w) = Some n.
Proof.
  destruct w as [[vp fq ds nf inq hist pts tgs] out].
  unfold OpticalFlow.num_frames, OpticalFlow.known_frame_count, getattr,
    setattr.
  se_unfold. simpl.
  destruct nf as [[m|]|]; [| |done]; by intros [= <- <-].
Qed.

Lemma run_queues_queue queues :
  ∀ (w w' : world) inq hist,
    run_queues queues w = (w', Ok tt) →
    inquiries (self w) = Some inq → history (self w) = Some hist →
    inquiries (self w') = Some (drop (length queues) inq)
    ∧ history (self w') = Some (hist ++ take (length queues) inq).
Proof.
  induction queues as [|queue queues IH]; intros w w' inq hist.
  - intros [= <-] -> ->. by rewrite drop_0, app_nil_r.
  - cbn [OpticalFlow.run_queues]. se_unfold.
    intros Hrun Hinq Hhist.
    destruct (next_inquiry_queue w inq hist Hinq Hhist) as (Hi & Hh & _).
    destruct (next_inquiry w) as [w1 [[]|e]]; [|done]. simpl in Hi, Hh.
    destruct (num_frames w1) as [w2 [total|e]] eqn:Hn; [|done].
    apply num_frames_frame in Hn as (_ & _ & Hi2 & Hh2 & _).
    unfold setattr in Hrun. se_unfold.
    destruct (save_flow_trajectory _ _ _) as [ds|e]; [|done].
    simpl in Hrun.
    apply (IH _ _ (drop 1 inq) (hist ++ take 1 inq)) in Hrun as [-> ->];
      [|simpl; congruence..].
    rewrite <-(assoc_L (++)).
    destruct inq as [|job inq]; simpl; [by rewrite drop_nil, take_nil|].
    by rewrite ?drop_0, ?take_0.
Qed.

(** X6.  [run] takes one job for each flow queue, in order: when it
    returns, the first [len(flow_queues)] waiting jobs (all of them when
    fewer wait) have moved from [inquiries] to the end of [history]. *)
Theorem run_takes_one_job_per_queue (w w' : world) inq hist :
  run w = (w', Ok tt) →
  inquiries (self w) = Some inq → history (self w) = Some hist →
  inquiries (self w') = Some (drop (length (flow_queues (self w))) inq)
  ∧ history (self w')
    = Some (hist ++ take (length (flow_queues (self w))) inq).
Proof.
  unfold OpticalFlow.run. se_unfold. apply run_queues_queue.
Qed.


(** *** The loop against its inputs *)

Local Abbreviation flow_trace :=
  (OpticalFlow.flow_trace frame gray flat_color lk_track).

Lemma flow_trace_step s k g' p' st' :
  flow_trace s (S k) = Some (g', p', st') →
  ∃ g p st fr,
    flow_trace s k = Some (g, p, st)
    ∧ fs_frames s !! (fs_stime s + k + 1) = Some fr
    ∧ g' = flat_color fr
    ∧ p' = (calcOpticalFlowPyrLK g (flat_color fr) p).1.1
    ∧ st' = zip_with andb st (calcOpticalFlowPyrLK g (flat_color fr) p).1.2
    ∧ forallb negb st' = false.
Proof.
  cbn [OpticalFlow.flow_trace].
  destruct (flow_trace s k) as [[[g p] st]|]; [|done].
  destruct (fs_frames s !! _) as [fr|]; [|done]. cbv zeta.
  destruct (forallb negb _) eqn:Hall; [done|].
  intros [= <- <- <-]. by exists g, p, st, fr.
Qed.

Lemma flow_trace_prefix s k j :
  k ≤ j → is_Some (flow_trace s j) → is_Some (flow_trace s k).
Proof.
  induction 1 as [|j Hle IH]; [done|].
  intros [[[g p] st] Hj]. apply flow_trace_step in Hj as (? & ? & ? & ? & H & _).
  apply IH. by rewrite H.
Qed.

(** Along the job a status that is not valid does not become valid. *)
Lemma flow_trace_status_lost s i k j g p st g' p' st' :
  k ≤ j →
  flow_trace s k = Some (g, p, st) → st !! i ≠ Some true →
  flow_trace s j = Some (g', p', st') → st' !! i ≠ Some true.
Proof.
  intros Hle Hk Hst. revert g' p' st'.
  induction Hle as [|j Hle IH]; intros g' p' st' Hj; [congruence|].
  apply flow_trace_step in Hj as (g0 & p0 & st0 & fr & Hj & _ & _ & _ & -> & _).
  specialize (IH _ _ _ Hj). rewrite lookup_zip_with.
  destruct (st0 !! i) as [[]|]; simpl; try done.
  by destruct (map _ _ !! i).
Qed.

Lemma flow_trace_lengths s k g p st :
  length (fs_status s) = length (fs_p0 s) →
  flow_trace s k = Some (g, p, st) →
  length st = length (fs_p0 s) ∧ length p = length (fs_p0 s).
Proof.
  intros Hlen. revert g p st.
  induction k as [|k IH]; intros g p st Hk.
  - injection Hk as <- <- <-. done.
  - apply flow_trace_step in Hk as (g0 & p0 & st0 & fr & Hk & _ & _ & -> & -> & _).
    destruct (IH _ _ _ Hk) as [Hst Hp].
    unfold OpticalFlow.calcOpticalFlowPyrLK. simpl.
    rewrite length_zip_with, !length_map. lia.
Qed.

Lemma flow_after_snoc s k (c c1 c2 : flow_conf) :
  flow_after s k c = Some c1 → flow_pass s c1 = Some c2 →
  flow_after s (S k) c = Some c2.
Proof.
  revert c. induction k as [|k IH]; intros c.
  - simpl. intros [= ->] ->. done.
  - intros Hafter Hpass. cbn [OpticalFlow.flow_after] in Hafter |- *.
    destruct (flow_pass s c) as [c'|]; [|done]. simpl in Hafter |- *.
    by apply IH.
Qed.

Lemma flow_after_last s k (c c2 : flow_conf) :
  flow_after s (S k) c = Some c2 →
  ∃ c1, flow_after s k c = Some c1 ∧ flow_pass s c1 = Some c2.
Proof.
  revert c. induction k as [|k IH]; intros c.
  - simpl. destruct (flow_pass s c) as [c'|] eqn:Hpass; [|done]. simpl.
    intros [= <-]. by exists c.
  - intros Hafter. cbn [OpticalFlow.flow_after] in Hafter |- *.
    destruct (flow_pass s c) as [c'|]; [|done]. simpl in Hafter |- *.
    by apply IH.
Qed.

Lemma cols_in_bounds_compress pts (mask : list bool) cols :
  cols_in_bounds pts cols = true →
  cols_in_bounds pts (compress mask cols) = true.
Proof.
  unfold cols_in_bounds. rewrite !forallb_forall. intros H c Hc.
  apply H, list_elem_of_In, (compress_subseteq mask), list_elem_of_In, Hc.
Qed.

Lemma cols_in_bounds_insert (pts : track_table) r row row' cols :
  pts !! r = Some row → length row' = length row →
  cols_in_bounds (<[r := row']> pts) cols = cols_in_bounds pts cols.
Proof.
  intros Hrow Hlen. unfold cols_in_bounds.
  assert (ncols (<[r := row']> pts) = ncols pts) as ->; [|done].
  rewrite !ncols_lookup. destruct (decide (r = 0)) as [->|Hne].
  - rewrite list_lookup_insert_eq by (by eapply lookup_lt_Some).
    by rewrite Hrow.
  - by rewrite list_lookup_insert_ne.
Qed.

(** A pass completes when its frame is read, not every point is lost
    and the row of the frame is in the table. *)
Lemma flow_pass_complete s (c : flow_conf) m todo fr pts :
  fc_todo c = m :: todo →
  fs_frames s !! (fs_stime s + m + 1) = Some fr →
  forallb negb
    (zip_with andb (fc_status c)
       (calcOpticalFlowPyrLK (fc_old_gray c) (flat_color fr)
          (fc_p0 c)).1.2) = false →
  points (self (fc_world c)) = Some pts →
  fs_stime s + m + 1 < length pts →
  cols_in_bounds pts (fs_tag_order s) = true →
  is_Some (flow_pass s c).
Proof.
  intros Htodo Hfr Hall Hpts Hrow Hb.
  unfold OpticalFlow.flow_pass. rewrite Htodo.
  unfold OpticalFlow.flow_body. rewrite Hfr.
  destruct (calcOpticalFlowPyrLK _ _ _) as [[p1 new_status] err].
  simpl in Hall. rewrite Hall.
  unfold getattr, setattr. se_unfold. rewrite Hpts.
  unfold assign_row.
  destruct (lookup_lt_is_Some_2 pts _ Hrow) as [row ->].
  rewrite cols_in_bounds_compress by done. by eexists.
Qed.

(** As long as the inputs let the job go on and the rows of its frames
    are in the table, the loop makes the passes that the inputs decide,
    with the positions and the statuses of the flow routine. *)
Lemma flow_after_trace (w1 : world) setup pts1 k g p st :
  points (self w1) = Some pts1 →
  cols_in_bounds pts1 (fs_tag_order setup) = true →
  k ≤ fs_etime setup - fs_stime setup →
  fs_stime setup + k < length pts1 →
  flow_trace setup k = Some (g, p, st) →
  ∃ (c : flow_conf) pts,
    flow_after setup k (start_conf setup w1) = Some c
    ∧ fc_old_gray c = g ∧ fc_p0 c = p ∧ fc_status c = st
    ∧ points (self (fc_world c)) = Some pts
    ∧ length pts = length pts1
    ∧ cols_in_bounds pts (fs_tag_order setup) = true.
Proof.
  intros Hpts1 Hb1. revert g p st.
  induction k as [|k IH]; intros g p st Hk Hrows Htrace.
  - injection Htrace as <- <- <-.
    exists (start_conf setup w1), pts1. by repeat split.
  - apply flow_trace_step in Htrace
      as (g0 & p0 & st0 & fr & Htrace & Hfr & -> & -> & -> & Hall).
    destruct (IH g0 p0 st0) as (c & pts & Hafter & <- & <- & <- & Hpts
                                & Hlen & Hb); [lia|lia|done|].
    pose proof (flow_after_todo _ _ _ _ Hafter) as Htodo. simpl in Htodo.
    rewrite (drop_S _ k k) in Htodo by (apply lookup_seq_lt; lia).
    destruct (flow_pass_complete setup c k _ fr pts Htodo Hfr Hall Hpts)
      as [c' Hpass]; [lia|done|].
    destruct (flow_pass_inv setup c c' Hpass)
      as (m & fr' & pts' & row & Htodo' & Hfr' & Hg & Hp & Hst & _ & Hpts'
          & Hrow & _ & Hpts'' & _).
    cbv zeta in *. rewrite Htodo in Htodo'. injection Htodo' as <- _.
    rewrite Hfr in Hfr'. injection Hfr' as <-.
    rewrite Hpts in Hpts'. injection Hpts' as <-.
    eexists c', _. split; [by eapply flow_after_snoc|].
    split; [done|]. split; [done|]. split; [done|].
    split; [exact Hpts''|]. split; [by rewrite length_insert|].
    rewrite (cols_in_bounds_insert pts _ row) by (done || apply put_cols_length).
    done.
Qed.

(** The position that a completed pass reports for a point is the
    position with which the next pass starts. *)
Lemma flow_pass_report_p0 s (c c' : flow_conf) i f0 p1 b :
  flow_pass s c = Some c' →
  flow_report s c i = Some (f0, p1, b) →
  fc_p0 c' !! i = Some p1.
Proof.
  intros Hpass Hrep.
  destruct (flow_pass_inv s c c' Hpass)
    as (m & fr & pts & row & Htodo & Hfr & _ & -> & _).
  unfold OpticalFlow.flow_report in Hrep. rewrite Htodo in Hrep.
  simpl in Hrep. rewrite Hfr in Hrep. simpl in Hrep.
  destruct (fc_p0 c !! i) as [pt|] eqn:Hp; [|done]. simpl in Hrep.
  injection Hrep as _ <- _.
  destruct (calc_lookup (fc_old_gray c) (flat_color fr) (fc_p0 c) i)
    as [-> _].
  by rewrite Hp.
Qed.

(** C6.  Within one job (tags without repetition, a rectangular table
    that has the rows of the frames in question), with the positions and
    the statuses that the flow routine reports from the seed row on:
    every point whose status is still valid after the pass on a frame
    has, when [next_inquiry] ends, the position reported for that frame
    in its column, at every frame up to there; and once the routine
    reports a failed status for a point, its column is written neither
    at the frame of the failure nor at any later frame of the job: it
    holds what the clearing left, which up to [etime - 1] is [0.0], and
    the status of the point is invalid in every later pass. *)
Theorem lost_point_is_not_written_again (w w1 : world) setup k g p st :
  begin_job w = (w1, Ok (Some setup)) →
  NoDup (fs_tag_order setup) →
  rectangular (table w) →
  k ≤ fs_etime setup - fs_stime setup →
  fs_stime setup + k < length (table w) →
  flow_trace setup k = Some (g, p, st) →
  (∀ i col, 0 < k → fs_tag_order setup !! i = Some col →
            st !! i = Some true →
            ∃ pos, p !! i = Some pos
                   ∧ cell (table (next_inquiry w).1) (fs_stime setup + k) col
                     = Some pos)
  ∧ (∀ i col fr pt,
       k < fs_etime setup - fs_stime setup →
       fs_tag_order setup !! i = Some col →
       fs_frames setup !! (fs_stime setup + k + 1) = Some fr →
       p !! i = Some pt →
       (lk_track g (flat_color fr) pt).1.2 = false →
       (∀ f, fs_stime setup + k < f →
             cell (table (next_inquiry w).1) f col = cell (table w1) f col)
       ∧ (∀ f, fs_stime setup + k < f < fs_etime setup →
               is_Some (cell (table w) f col) →
               cell (table (next_inquiry w).1) f col
               = Some (f64_zero, f64_zero))
       ∧ (∀ j g' p' st', k < j → flow_trace setup j = Some (g', p', st') →
                         st' !! i = Some false)).
Proof.
  intros Hbegin Hnd Hrect Hk Hrows Htrace.
  destruct (begin_job_inv w w1 setup Hbegin)
    as (pts & pts1 & Hpts & Hblock & Hpts1 & Hlen0 & Hst0).
  rewrite (next_inquiry_flow_rest _ _ _ Hbegin).
  rewrite (table_points _ _ Hpts) in Hrows, Hrect.
  assert (rectangular (table w1)) as Hrect1.
  { rewrite (table_points _ _ Hpts1). by eapply rectangular_assign_block. }
  assert (cols_in_bounds pts1 (fs_tag_order setup) = true) as Hb1.
  { rewrite (assign_block_bounds _ _ _ _ _ _ _ Hblock).
    unfold assign_block in Hblock.
    by destruct (cols_in_bounds pts (fs_tag_order setup)). }
  pose proof (assign_block_length _ _ _ _ _ _ Hblock) as Hlen1.
  assert (length (fs_status setup) = length (fs_p0 setup)) as Hl0.
  { by rewrite Hst0, length_replicate. }
  destruct (flow_after_trace w1 setup pts1 k g p st Hpts1 Hb1 Hk)
    as (c & ptsc & Hafter & Hg & Hp & Hst & _); [lia|done|].
  split.
  - intros i col Hpos Hcol Hvalid. destruct k as [|k]; [lia|].
    destruct (flow_after_last _ _ _ _ Hafter) as (c0 & Hafter0 & Hpass).
    destruct (flow_pass_written setup c0 c i col Hnd Hcol)
      as (f0 & p1 & Hrep & Hcell); try done.
    + by eapply flow_after_rectangular.
    + by destruct (start_conf_todo_NoDup _ _ _ _ Hafter0).
    + by rewrite Hst.
    + exists p1. split.
      * rewrite <- Hp. by eapply flow_pass_report_p0.
      * rewrite (flow_rest_after _ _ _ _ Hafter0).
        destruct (flow_report_frame _ _ _ _ _ _ Hrep) as (m & Hhead & ->).
        destruct (start_conf_todo_NoDup _ _ _ _ Hafter0) as [_ Htodo].
        rewrite Htodo, head_lookup, lookup_drop in Hhead.
        apply lookup_seq in Hhead as [-> _].
        by replace (fs_stime setup + S k)
          with (fs_stime setup + (0 + (k + 0)) + 1) by lia.
  - intros i col fr pt Hk' Hcol Hfr Hpt Hfail.
    pose proof (flow_after_todo _ _ _ _ Hafter) as Htodo. simpl in Htodo.
    rewrite (drop_S _ k k) in Htodo by (apply lookup_seq_lt; lia).
    assert (flow_report setup c i
            = Some (fs_stime setup + k + 1,
                    (lk_track g (flat_color fr) pt).1.1, false)) as Hrep.
    { unfold OpticalFlow.flow_report. rewrite Htodo. simpl.
      rewrite Hfr. simpl. rewrite Hp, Hpt. simpl. by rewrite Hg, Hfail. }
    assert (∀ f, fs_stime setup + k < f →
                 cell (table (flow_rest setup (start_conf setup w1)).1) f col
                 = cell (table w1) f col) as Hsame.
    { intros f Hf. rewrite (flow_rest_after _ _ _ _ Hafter).
      rewrite (flow_rest_report_lost setup c i col _ _ Hnd Hcol Hrep).
      rewrite (flow_after_rows _ _ _ _ f col Hafter); [done|].
      simpl. intros m Hm. apply elem_of_take in Hm as (j & Hj & Hlt).
      apply lookup_seq in Hj as [-> _]. lia. }
    split; [exact Hsame|]. split.
    + intros f Hf Hcell. rewrite Hsame by lia.
      rewrite (table_points _ _ Hpts1).
      rewrite (cell_assign_block _ _ _ _ _ _ f col Hblock).
      rewrite (table_points _ _ Hpts) in Hcell.
      destruct Hcell as [p0 ->]. simpl.
      rewrite decide_True; [done|]. split; [lia|].
      by eapply list_elem_of_lookup_2.
    + intros j g' p' st' Hj Htrace'.
      assert (is_Some (flow_trace setup (S k))) as [[[g1 p1] st1] Hnext].
      { apply (flow_trace_prefix setup (S k) j); [lia|by eexists]. }
      assert (st1 !! i ≠ Some true) as Hlost.
      { apply flow_trace_step in Hnext
          as (g0 & p0 & st0 & fr0 & Htr0 & Hfr0 & _ & _ & -> & _).
        rewrite Htrace in Htr0. injection Htr0 as <- <- <-.
        rewrite Hfr in Hfr0. injection Hfr0 as <-.
        rewrite lookup_zip_with.
        destruct (calc_lookup g (flat_color fr) p i) as [_ ->].
        rewrite Hpt. simpl. rewrite Hfail.
        destruct (st !! i) as [[]|]; simpl; done. }
      pose proof (flow_trace_status_lost setup i (S k) j _ _ _ _ _ _
                    Hj Hnext Hlost Htrace') as Hlost'.
      destruct (flow_trace_lengths setup j _ _ _ Hl0 Htrace') as [Hl1 _].
      destruct (lookup_lt_is_Some_2 st' i) as [[] Hb]; try done.
      apply lookup_lt_Some in Hcol. lia.
Qed.


End Proofs.

(** *** The example tracker *)

(** The job of the example: tag [a] is followed for two frames and lost
    at the third, tag [c] is lost at once; the loop stops at frame 3. *)
Example tracker_run_table :
  TrackerExample.next_inquiry (TrackerExample.tracker 0)
  = (fc_world TrackerExample.after2, Ok tt)
  ∧ table (fc_world TrackerExample.after2)
    = [[(0, 0); (7, 7); (2, 2)]; [(1, 0); (9, 9); (0, 0)];
       [(2, 0); (9, 9); (0, 0)]; [(0, 0); (9, 9); (0, 0)];
       [(9, 9); (9, 9); (9, 9)]]%Z.
Proof. split; vm_compute; reflexivity. Qed.

Lemma next_inquiry_skips_late_job_witness :
  ∃ w', TrackerExample.next_inquiry (TrackerExample.tracker 5) = (w', Ok tt)
        ∧ points (self w') = points (self (TrackerExample.tracker 5))
        ∧ dataset (self w') = dataset (self (TrackerExample.tracker 5))
        ∧ stdout w'
          = stdout (TrackerExample.tracker 5)
            ++ [Print "start frame greater than total video frame"]
        ∧ inquiries (self w') = Some []
        ∧ history (self w') = Some ([] ++ [(["a"; "c"], 5, 4)]).
Proof.
  apply (next_inquiry_skips_late_job TrackerExample.VideoCapture
           TrackerExample.get_video_frame_count TrackerExample.flat_color
           TrackerExample.lk_track (TrackerExample.tracker 5)
           ["a"; "c"] 5 4 [] [] 5);
    [reflexivity..|apply Nat.le_refl].
Defined.

Lemma begin_job_clears_job_range_witness :
  ∃ w1 setup pts1,
    TrackerExample.begin_job (TrackerExample.tracker 0)
    = (w1, Ok (Some setup))
    ∧ TrackerExample.next_inquiry (TrackerExample.tracker 0)
      = OpticalFlow.run_flow nat nat unit unit TrackerExample.flat_color
          TrackerExample.lk_track setup w1
    ∧ fs_tag_order setup = [0; 2]
    ∧ fs_stime setup = 0 ∧ fs_etime setup = 4
    ∧ points (self w1) = Some pts1
    ∧ ∀ f c,
        cell pts1 f c
        = (λ p, if decide ((0 + 1 ≤ f < 4) ∧ c ∈ [0; 2])
                then (f64_zero, f64_zero) else p)
            <$> cell TrackerExample.table0 f c.
Proof.
  apply (begin_job_clears_job_range TrackerExample.VideoCapture
           TrackerExample.get_video_frame_count TrackerExample.flat_color
           TrackerExample.lk_track (TrackerExample.tracker 0)
           ["a"; "c"] 0 4 [] [] 5 TrackerExample.table0 ["a"; "b"; "c"]
           [10; 11; 12; 13; 14] 10 [0; 2]);
    try reflexivity; repeat constructor.
Defined.

(** The job of the example after two passes: tag [a] is still valid,
    with the position reported for frame 2 in the table; the pass on
    frame 3 reports it lost. *)
Lemma lost_point_is_not_written_again_witness :
  (∀ i col, 0 < 2 → [0; 2] !! i = Some col →
            [true; false] !! i = Some true →
            ∃ pos, [(2, 0); (4, 2)]%Z !! i = Some pos
                   ∧ cell (table (TrackerExample.next_inquiry
                                    (TrackerExample.tracker 0)).1)
                          (0 + 2) col
                     = Some pos)
  ∧ (∀ i col fr pt,
       2 < 4 - 0 →
       [0; 2] !! i = Some col →
       [10; 11; 12; 13; 14] !! (0 + 2 + 1) = Some fr →
       [(2, 0); (4, 2)]%Z !! i = Some pt →
       (TrackerExample.lk_track 12 (TrackerExample.flat_color fr) pt).1.2
       = false →
       (∀ f, 0 + 2 < f →
             cell (table (TrackerExample.next_inquiry
                            (TrackerExample.tracker 0)).1) f col
             = cell (table TrackerExample.started0) f col)
       ∧ (∀ f, 0 + 2 < f < 4 →
               is_Some (cell (table (TrackerExample.tracker 0)) f col) →
               cell (table (TrackerExample.next_inquiry
                              (TrackerExample.tracker 0)).1) f col
               = Some (f64_zero, f64_zero))
       ∧ (∀ j g' p' st', 2 < j →
            OpticalFlow.flow_trace nat nat TrackerExample.flat_color
              TrackerExample.lk_track TrackerExample.setup0 j
            = Some (g', p', st') →
            st' !! i = Some false)).
Proof.
  apply (lost_point_is_not_written_again TrackerExample.VideoCapture
           TrackerExample.get_video_frame_count TrackerExample.flat_color
           TrackerExample.lk_track (TrackerExample.tracker 0)
           TrackerExample.started0 TrackerExample.setup0 2
           12 [(2, 0); (4, 2)]%Z [true; false]).
  - reflexivity.
  - apply NoDup_cons. split; [by intros ?%list_elem_of_singleton|].
    apply NoDup_singleton.
  - repeat constructor.
  - simpl. lia.
  - simpl. lia.
  - reflexivity.
Defined.

(** What the job of the example leaves in the table, read with the
    statuses that the flow routine reports: tag [a] (column 0) is valid
    after the passes on the frames 1 and 2 and has the reported positions
    there; it is lost at frame 3, tag [c] (column 2) at frame 1, and from
    the frame of the loss on each column holds the [0.0] of the
    clearing. *)
Example tracker_valid_and_lost_points :
  OpticalFlow.flow_trace nat nat TrackerExample.flat_color
    TrackerExample.lk_track TrackerExample.setup0 1
  = Some (11, [(1, 0); (3, 2)]%Z, [true; false])
  ∧ OpticalFlow.flow_trace nat nat TrackerExample.flat_color
      TrackerExample.lk_track TrackerExample.setup0 2
    = Some (12, [(2, 0); (4, 2)]%Z, [true; false])
  ∧ OpticalFlow.flow_trace nat nat TrackerExample.flat_color
      TrackerExample.lk_track TrackerExample.setup0 3
    = None
  ∧ map (λ f, cell (table (TrackerExample.next_inquiry
                             (TrackerExample.tracker 0)).1) f 0)
        [1; 2; 3]
    = [Some (1, 0); Some (2, 0); Some (0, 0)]%Z
  ∧ map (λ f, cell (table (TrackerExample.next_inquiry
                             (TrackerExample.tracker 0)).1) f 2)
        [1; 2; 3]
    = [Some (0, 0); Some (0, 0); Some (0, 0)]%Z.
Proof. repeat split; vm_compute; reflexivity. Qed.

Lemma all_points_lost_ends_job_witness :
  TrackerExample.next_inquiry (TrackerExample.tracker 0)
  = (fc_world TrackerExample.after2, Ok tt).
Proof.
  apply (all_points_lost_ends_job TrackerExample.VideoCapture
           TrackerExample.get_video_frame_count TrackerExample.flat_color
           TrackerExample.lk_track (TrackerExample.tracker 0)
           TrackerExample.started0 TrackerExample.setup0 2
           TrackerExample.after2);
    reflexivity.
Defined.


(** The instance as [__init__] leaves it, with one flow queue: [run]
    stops at [self.inquiries], the first attribute it reads that
    [__init__] has not assigned. *)
Example run_on_new_instance :
  TrackerExample.run (TrackerExample.fresh [tt])
  = (TrackerExample.fresh [tt], Raise (AttributeError "inquiries"))
  ∧ TrackerExample.num_frames (TrackerExample.fresh [tt])
    = (TrackerExample.fresh [tt], Raise (AttributeError "_num_frames")).
Proof. split; reflexivity. Qed.

Lemma begin_job_without_flow_keeps_table_witness :
  points (self (TrackerExample.begin_job
                  TrackerExample.tracker_unknown_tag).1)
  = points (self TrackerExample.tracker_unknown_tag)
  ∧ dataset (self (TrackerExample.begin_job
                     TrackerExample.tracker_unknown_tag).1)
    = dataset (self TrackerExample.tracker_unknown_tag)
  ∧ tags (self (TrackerExample.begin_job
                  TrackerExample.tracker_unknown_tag).1)
    = tags (self TrackerExample.tracker_unknown_tag).
Proof.
  apply (begin_job_without_flow_keeps_table TrackerExample.VideoCapture
           TrackerExample.get_video_frame_count TrackerExample.flat_color
           TrackerExample.tracker_unknown_tag _ (Raise ValueError)).
  - reflexivity.
  - intros setup. discriminate.
Defined.

Lemma next_inquiry_consumes_job_witness :
  inquiries (self (TrackerExample.next_inquiry
                     TrackerExample.tracker_two_jobs).1)
  = Some [(["b"], 0, 2)]
  ∧ history (self (TrackerExample.next_inquiry
                     TrackerExample.tracker_two_jobs).1)
    = Some ([] ++ [(["a"; "c"], 0, 4)])
  ∧ dataset (self (TrackerExample.next_inquiry
                     TrackerExample.tracker_two_jobs).1)
    = dataset (self TrackerExample.tracker_two_jobs).
Proof.
  apply (next_inquiry_consumes_job TrackerExample.VideoCapture
           TrackerExample.get_video_frame_count TrackerExample.flat_color
           TrackerExample.lk_track TrackerExample.tracker_two_jobs
           (["a"; "c"], 0, 4) [(["b"], 0, 2)] []);
    reflexivity.
Defined.

Lemma next_inquiry_writes_job_range_only_witness :
  cell (table (TrackerExample.next_inquiry (TrackerExample.tracker 0)).1)
       0 0
  = cell (table (TrackerExample.tracker 0)) 0 0
  ∧ length (table (TrackerExample.next_inquiry
                     (TrackerExample.tracker 0)).1)
    = length (table (TrackerExample.tracker 0)).
Proof.
  apply (next_inquiry_writes_job_range_only TrackerExample.VideoCapture
           TrackerExample.get_video_frame_count TrackerExample.flat_color
           TrackerExample.lk_track (TrackerExample.tracker 0)
           TrackerExample.started0 TrackerExample.setup0 0 0).
  - reflexivity.
  - left. apply Nat.le_refl.
Defined.

(** The long job writes frame 4, the last of the video, and stops: rows
    5 and 6 keep the cleared value. *)
Example tracker_long_job_table :
  table (TrackerExample.next_inquiry TrackerExample.tracker_long_job).1
  = [TrackerExample.stale; TrackerExample.stale; TrackerExample.stale;
     [(0, 0); (0, 0); (0, 0)]; [(9, 9); (1, 0); (9, 9)];
     [(9, 9); (0, 0); (9, 9)]; [(9, 9); (0, 0); (9, 9)]]%Z.
Proof. vm_compute. reflexivity. Qed.

Lemma next_inquiry_stops_at_end_of_video_witness :
  cell (table (TrackerExample.next_inquiry
                 TrackerExample.tracker_long_job).1) 5 1
  = cell (table (TrackerExample.begin_job
                   TrackerExample.tracker_long_job).1) 5 1
  ∧ cell (table (TrackerExample.next_inquiry
                   TrackerExample.tracker_long_job).1) 5 1
    = Some (f64_zero, f64_zero).
Proof.
  destruct (next_inquiry_stops_at_end_of_video TrackerExample.VideoCapture
              TrackerExample.get_video_frame_count
              TrackerExample.flat_color TrackerExample.lk_track
              TrackerExample.tracker_long_job
              (TrackerExample.begin_job TrackerExample.tracker_long_job).1
              TrackerExample.setup_long 5 1) as [Hsame Hzero].
  - reflexivity.
  - apply Nat.le_refl.
  - split; [exact Hsame|]. apply Hzero.
    + simpl. lia.
    + repeat constructor.
    + by eexists.
Defined.


Lemma num_frames_counts_once_witness :
  _num_frames (self (TrackerExample.num_frames
                       (TrackerExample.tracker 0)).1)
  = Some (Some 5)
  ∧ TrackerExample.num_frames
      (TrackerExample.num_frames (TrackerExample.tracker 0)).1
    = ((TrackerExample.num_frames (TrackerExample.tracker 0)).1, Ok 5)
  ∧ OpticalFlow.known_frame_count unit unit
      TrackerExample.get_video_frame_count
      (self (TrackerExample.tracker 0)) = Some 5.
Proof.
  apply (num_frames_counts_once TrackerExample.get_video_frame_count
           (TrackerExample.tracker 0)).
  reflexivity.
Defined.

Lemma run_takes_one_job_per_queue_witness :
  inquiries (self (TrackerExample.run TrackerExample.tracker_two_jobs).1)
  = Some (drop 1 [(["a"; "c"], 0, 4); (["b"], 0, 2)])
  ∧ history (self (TrackerExample.run TrackerExample.tracker_two_jobs).1)
    = Some ([] ++ take 1 [(["a"; "c"], 0, 4); (["b"], 0, 2)]).
Proof.
  apply (run_takes_one_job_per_queue TrackerExample.VideoCapture
           TrackerExample.get_video_frame_count TrackerExample.flat_color
           TrackerExample.lk_track TrackerExample.save_flow_trajectory
           TrackerExample.tracker_two_jobs);
    reflexivity.
Defined.


End TrackerProofs.

(** ** The tracker's views: visible points and the region of interest *)

Module ViewProofs.
Import OpticalFlow OpticalFlow.Occlusion.

Lemma dict_set_fresh {A} (d : list (tag * A)) k v :
  k ∉ d.*1 → dict_set d k v = d ++ [(k, v)].
Proof.
  induction d as [|[k' v'] d IH]; simpl; [done|].
  intros Hk. apply not_elem_of_cons in Hk as [Hne Hk].
  rewrite decide_False by done. by rewrite IH.
Qed.

Lemma zip_snoc {A B} (xs : list A) (ys : list B) x y :
  length ys = length xs → zip (xs ++ [x]) (ys ++ [y]) = zip xs ys ++ [(x, y)].
Proof.
  revert ys. induction xs as [|x' xs IH]; intros [|y' ys]; simpl; try done.
  intros [= Hlen]. by rewrite IH.
Qed.

Lemma visible_loops_agree self items :
  NoDup items.*1 →
  ∀ points keys,
    length points = length keys →
    (∀ k, k ∈ keys → k ∉ items.*1) →
    match visible_loop self items points keys with
    | Ok (points', keys') =>
        visible_dict_loop self items (zip keys points)
        = Ok (zip keys' points')
        ∧ length points' = length keys'
        ∧ keys' = keys ++ (filter (λ kv, kv.2 = false) items).*1
    | Raise e =>
        visible_dict_loop self items (zip keys points) = Raise e
    end.
Proof.
  induction items as [|[k occluded] items IH]; intros Hnd points keys Hlen Hk.
  - simpl. by rewrite app_nil_r.
  - apply NoDup_cons in Hnd as [Hfresh Hnd].
    cbn [visible_loop visible_dict_loop].
    destruct occluded.
    + rewrite filter_cons_False by done.
      apply IH; [done..|]. intros k' Hk'. specialize (Hk k' Hk').
      by apply not_elem_of_cons in Hk as [_ Hk].
    + rewrite filter_cons_True by done.
      destruct (getattr "p" (p self)) as [d|e]; [|done]. simpl.
      destruct (dict_get d k) as [v|e]; [|done]. simpl.
      rewrite dict_set_fresh.
      2:{ rewrite fst_zip by lia. intros Hin. specialize (Hk k Hin).
          apply Hk. left. }
      replace (zip keys points ++ [(k, v)])
        with (zip (keys ++ [k]) (points ++ [v])).
      2:{ by apply zip_snoc. }
      specialize (IH Hnd (points ++ [v]) (keys ++ [k])).
      destruct (visible_loop self items _ _) as [[points' keys']|e].
      * destruct IH as (-> & -> & ->).
        { rewrite !length_app. simpl. lia. }
        { intros k' [Hk'| ->%list_elem_of_singleton]%elem_of_app; [|done].
          specialize (Hk k' Hk').
          by apply not_elem_of_cons in Hk as [_ Hk]. }
        by rewrite <-(assoc_L (++)).
      * apply IH.
        { rewrite !length_app. simpl. lia. }
        { intros k' [Hk'| ->%list_elem_of_singleton]%elem_of_app; [|done].
          specialize (Hk k' Hk').
          by apply not_elem_of_cons in Hk as [_ Hk]. }
Qed.

(** X7.  [get_none_occluded_points] and [get_none_occluded_points_dict]
    agree: they raise the same exception, or the dict pairs the keys of
    the first with its points, in the same order, and the keys are those
    that [is_occluded] marks as visible. *)
Theorem visible_points_and_dict_agree self items :
  is_occluded self = Some items →
  NoDup items.*1 →
  match get_none_occluded_points self with
  | Ok (points, keys) =>
      get_none_occluded_points_dict self = Ok (zip keys points)
      ∧ length points = length keys
      ∧ keys = (filter (λ kv, kv.2 = false) items).*1
  | Raise e => get_none_occluded_points_dict self = Raise e
  end.
Proof.
  intros Hitems Hnd.
  unfold get_none_occluded_points, get_none_occluded_points_dict.
  rewrite Hitems. simpl.
  apply (visible_loops_agree self items Hnd [] []); [done|].
  intros k Hk. by apply elem_of_nil in Hk.
Qed.

Lemma visible_points_and_dict_agree_witness :
  get_none_occluded_points_dict TrackerExample.occlusion_attrs
  = Ok (zip ["a"; "c"] [(1, 2); (5, 6)]%Z)
  ∧ get_none_occluded_points TrackerExample.occlusion_attrs
    = Ok ([(1, 2); (5, 6)]%Z, ["a"; "c"]).
Proof.
  pose proof (visible_points_and_dict_agree TrackerExample.occlusion_attrs
                [("a", false); ("b", true); ("c", false)] eq_refl) as H.
  assert (NoDup ([("a", false); ("b", true); ("c", false)].*1 : list tag))
    as Hnd by (apply (bool_decide_unpack _); by vm_compute).
  specialize (H Hnd).
  change (get_none_occluded_points TrackerExample.occlusion_attrs)
    with (Ok ([(1, 2); (5, 6)]%Z, ["a"; "c"]) : result (list point * list tag))
    in H.
  split; [apply H|reflexivity].
Defined.

(** *** [crop_roi] *)

Section CropProofs.
Context {pixel : Type} (black : pixel).

Lemma py_slice_lookup {A} (l : list A) (start stop : Z) i :
  (0 ≤ start)%Z → (start + Z.of_nat i < stop)%Z →
  (start + Z.of_nat i < Z.of_nat (length l))%Z →
  py_slice l start stop !! i = l !! (Z.to_nat start + i).
Proof.
  intros Hstart Hstop Hlen. unfold py_slice.
  assert ((start <? 0)%Z = false) as -> by lia.
  assert ((stop <? 0)%Z = false) as -> by lia.
  rewrite lookup_take_lt by lia. rewrite lookup_drop. f_equal. lia.
Qed.

Lemma py_slice_length {A} (l : list A) (start stop : Z) :
  (0 ≤ start)%Z → (start ≤ stop)%Z → (stop ≤ Z.of_nat (length l))%Z →
  length (py_slice l start stop) = Z.to_nat (stop - start).
Proof.
  intros Hstart Hstop Hlen. unfold py_slice.
  assert ((start <? 0)%Z = false) as -> by lia.
  assert ((stop <? 0)%Z = false) as -> by lia.
  rewrite length_take, length_drop. lia.
Qed.

(** A list between two constant borders. *)
Lemma lookup_border {A} (b : A) (l : list A) (left right k : nat) :
  k < left + length l + right →
  (replicate left b ++ l ++ replicate right b) !! k
  = Some (if decide (left ≤ k) then default b (l !! (k - left)) else b).
Proof.
  intros Hk. destruct (decide (left ≤ k)) as [Hle|Hlt].
  - rewrite lookup_app_r by (rewrite length_replicate; lia).
    rewrite length_replicate.
    destruct (l !! (k - left)) as [v|] eqn:Hl.
    + by rewrite (lookup_app_l_Some _ _ _ _ Hl).
    + apply lookup_ge_None in Hl.
      rewrite lookup_app_r by lia. simpl.
      apply lookup_replicate_2. lia.
  - rewrite lookup_app_l by (rewrite length_replicate; lia).
    apply lookup_replicate_2. lia.
Qed.

Lemma copyMakeBorder_lookup (image : list (list pixel)) W top bottom left
    right r c :
  0 < length image → Forall (λ row, length row = W) image →
  r < top + length image + bottom → c < left + W + right →
  copyMakeBorder black image top bottom left right !! r ≫= (.!! c)
  = Some (if decide (top ≤ r ∧ left ≤ c)
          then default black (image !! (r - top) ≫= (.!! (c - left)))
          else black)
  ∧ length <$> copyMakeBorder black image top bottom left right !! r
    = Some (left + W + right).
Proof.
  intros Hne Hrect Hr Hc. unfold copyMakeBorder.
  assert (match image with [] => 0 | row :: _ => length row end = W) as ->.
  { destruct image as [|row image]; [simpl in Hne; lia|].
    by apply Forall_cons in Hrect as [? _]. }
  rewrite lookup_border by (rewrite length_map; lia).
  rewrite list_lookup_fmap. simpl.
  destruct (decide (top ≤ r)) as [Htop|Htop].
  - destruct (image !! (r - top)) as [row|] eqn:Hrow; simpl.
    + assert (length row = W) as Hlen.
      { by eapply (proj1 (Forall_lookup _ _) Hrect). }
      rewrite lookup_border by lia.
      rewrite !length_app, !length_replicate, Hlen.
      split; [|f_equal; lia].
      f_equal. destruct (decide (left ≤ c)).
      * by rewrite decide_True.
      * rewrite decide_False by tauto. done.
    + rewrite length_replicate. split; [|done].
      rewrite lookup_replicate_2 by lia. f_equal.
      by destruct (decide _).
  - simpl. rewrite length_replicate. split; [|done].
    rewrite lookup_replicate_2 by lia. f_equal.
    rewrite decide_False by tauto. done.
Qed.

(** X8.  [crop_roi] is a window of [disp_h] by [disp_w] pixels around
    the point: for a point with coordinates that are not negative, the
    pixel [(i, j)] of the crop is the pixel of the image at row [y + i -
    disp_h // 2] and column [x + j - disp_w // 2], and black where that
    lies outside the image. *)
Theorem crop_roi_window (image : list (list pixel)) W x y disp_h disp_w i j :
  0 < length image → Forall (λ row, length row = W) image →
  (0 ≤ x)%Z → (0 ≤ y)%Z → i < disp_h → j < disp_w →
  (y + Z.of_nat i < Z.of_nat (length image + 2 * (disp_h / 2)))%Z →
  (x + Z.of_nat j < Z.of_nat (W + 2 * (disp_w / 2)))%Z →
  crop_roi black image x y disp_h disp_w !! i ≫= (.!! j)
  = Some (pixel_at black image
            (y + Z.of_nat i - Z.of_nat (disp_h / 2))
            (x + Z.of_nat j - Z.of_nat (disp_w / 2))).
Proof.
  intros Hne Hrect Hx Hy Hi Hj Hrow Hcol. unfold crop_roi.
  set (h2 := disp_h / 2) in *. set (w2 := disp_w / 2) in *.
  destruct (copyMakeBorder_lookup image W h2 h2 w2 w2
              (Z.to_nat y + i) (Z.to_nat x + j) Hne Hrect)
    as [Hcell Hlen]; [lia..|].
  assert (length (copyMakeBorder black image h2 h2 w2 w2)
          = h2 + length image + h2) as Hrows.
  { unfold copyMakeBorder.
    rewrite !length_app, !length_replicate, length_map. lia. }
  rewrite list_lookup_fmap, py_slice_lookup by lia.
  destruct (copyMakeBorder black image h2 h2 w2 w2 !! (Z.to_nat y + i))
    as [row|]; [|done].
  simpl in *. injection Hlen as Hlen.
  rewrite py_slice_lookup by lia. rewrite Hcell. f_equal.
  unfold pixel_at.
  destruct (decide (h2 ≤ Z.to_nat y + i ∧ w2 ≤ Z.to_nat x + j))
    as [[Hr Hc]|Hout].
  - assert ((0 <=? y + Z.of_nat i - Z.of_nat h2)%Z = true) as -> by lia.
    assert ((0 <=? x + Z.of_nat j - Z.of_nat w2)%Z = true) as -> by lia.
    simpl. do 3 f_equal; [|f_equal]; lia.
  - destruct (0 <=? y + Z.of_nat i - Z.of_nat h2)%Z eqn:Hr; [|done].
    destruct (0 <=? x + Z.of_nat j - Z.of_nat w2)%Z eqn:Hc; [|done].
    lia.
Qed.

End CropProofs.

Lemma crop_roi_window_witness :
  crop_roi 0 TrackerExample.image0 2 1 4 4 !! 2 ≫= (.!! 2) = Some 6.
Proof.
  apply (crop_roi_window 0 TrackerExample.image0 3 2 1 4 4 2 2);
    [cbn; lia | repeat constructor | lia | lia | lia | lia
    | vm_compute; reflexivity | vm_compute; reflexivity].
Defined.

(** The window of four by four pixels around column 2 of row 1, and
    what a negative coordinate gives: Python reads the bound from the
    end of the row and the window is empty. *)
Example crop_roi_image0 :
  crop_roi 0 TrackerExample.image0 2 1 4 4
  = [[0; 0; 0; 0]; [1; 2; 3; 0]; [4; 5; 6; 0]; [0; 0; 0; 0]]
  ∧ crop_roi 0 TrackerExample.image0 (-1) 0 4 4 = [[]; []; []; []].
Proof. split; reflexivity. Qed.


End ViewProofs.


(** ** The posture reconstruction *)

Module ReconstructorProofs.
Import PostureData.

Lemma transpose_involutive {A} (m : V3 (V3 A)) : transpose (transpose m) = m.
Proof. by destruct m as [[] [] []]. Qed.

(** [has_nan] holds exactly when a component is NaN. *)
Lemma has_nan_spec (p : vec3) :
  has_nan p = true ↔ ∃ k x, v3_get k p = Some x ∧ isnan x = true.
Proof.
  unfold has_nan. rewrite !orb_true_iff. split.
  - intros [[H|H]|H]; [exists 0|exists 1|exists 2]; eexists; by split.
  - intros ([|[|[|k]]] & x & [= <-] & H); auto.
Qed.

(** The two lists that the loop over the tags builds are the tracked
    tags, side by side. *)
Lemma collect_tracked ds z :
  collect ds z (mp_tags (marker_positions ds))
  = (map fst (tracked ds z), map snd (tracked ds z)).
Proof.
  unfold tracked. induction (mp_tags (marker_positions ds)) as [|tg l IH];
    [done|].
  simpl. rewrite IH. by destruct (load_track ds z tg).
Qed.

Lemma rows_at_ok t (dc : list (list vec3)) :
  Forall (λ data, t < length data) dc →
  rows_at t dc = Ok (map (obs_at t) dc).
Proof.
  intros Hlen. apply mapM_ok. intros data Hin.
  rewrite Forall_forall in Hlen. specialize (Hlen data Hin).
  unfold obs_at. destruct (data !! t) as [p|] eqn:E; [done|].
  apply lookup_ge_None in E. lia.
Qed.

(** Compressing with the mask of the rows without NaN keeps the samples
    of the contract, in order. *)
Lemma compress_keep_samples t (trk : list (vec3 * list vec3)) :
  Forall (λ rd, t < length rd.2) trk →
  let P := map (obs_at t) (map snd trk) in
  let kept := omap (λ '(r, data), p ← data !! t;
                              if has_nan p then None else Some (r, p)) trk in
  compress (keep_mask P) (map fst trk) = map fst kept
  ∧ compress (keep_mask P) P = map snd kept.
Proof.
  induction trk as [|[r data] trk IH]; intros Hlen; [done|].
  apply Forall_cons in Hlen as [Hd Hlen]. cbn [snd] in Hd.
  destruct (IH Hlen) as [IH1 IH2].
  destruct (lookup_lt_is_Some_2 data t Hd) as [p Hp].
  assert (obs_at t data = p) as Hobs by (unfold obs_at; by rewrite Hp).
  cbv zeta. rewrite omap_cons, Hp.
  cbn [map keep_mask compress fst snd mbind option_bind].
  rewrite Hobs. unfold keep_mask in IH1, IH2.
  destruct (has_nan p); cbn [negb map fst snd];
    by rewrite ?IH1, ?IH2.
Qed.

(** *** Stacking *)

Lemma column_grid {A} (f : nat → nat → A) (zs : list nat) T t :
  t < T →
  column t (map (λ z, map (f z) (seq 0 T)) zs) = map (λ z, f z t) zs.
Proof.
  intros Ht. unfold column. induction zs as [|z zs IH]; [done|].
  cbn [map]. rewrite omap_cons, lookup_map, lookup_seq_lt by done.
  cbn [fmap option_fmap option_map]. by rewrite IH.
Qed.

(** Stacking [N] series of length [T] gives, at each timestep, the
    entries of the [N] series at that timestep. *)
Lemma stack_time_grid {A} (f : nat → nat → A) N T :
  0 < N →
  stack_time (map (λ z, map (f z) (seq 0 T)) (seq 0 N))
  = Ok (map (λ t, map (λ z, f z t) (seq 0 N)) (seq 0 T)).
Proof.
  intros HN. unfold stack_time.
  destruct (seq 0 N) as [|z0 zs] eqn:Hseq.
  { destruct N; [lia|done]. }
  cbn [map]. rewrite length_map, length_seq.
  assert (forallb (λ y : list A, length y =? T)
            (map (λ z, map (f z) (seq 0 T)) zs) = true) as ->.
  { apply forallb_forall. intros y Hy. apply in_map_iff in Hy as (z & <- & _).
    rewrite length_map, length_seq. apply Nat.eqb_refl. }
  f_equal. apply map_ext_in. intros t Ht. apply in_seq in Ht.
  assert (t < T) as HtT by lia.
  exact (column_grid f (z0 :: zs) T t HtT).
Qed.

Lemma stack_time_empty {A} : stack_time (@nil (list A)) = Raise ValueError.
Proof. done. Qed.

Lemma position_at_grid (f : nat → nat → vec3) N T t z :
  t < T → z < N →
  position_at (map split3 (map (λ t, map (λ z, f z t) (seq 0 N)) (seq 0 T)))
    t z
  = Some (f z t).
Proof.
  intros Ht Hz. unfold position_at.
  rewrite !lookup_map, lookup_seq_lt by done. simpl.
  rewrite !lookup_map, lookup_seq_lt by done. simpl.
  by destruct (f z t).
Qed.

Lemma director_at_grid (f : nat → nat → mat3) N T t z :
  t < T → z < N →
  director_at
    (map (λ col, v3_map split3 (split3 col))
       (map (λ t, map (λ z, f z t) (seq 0 N)) (seq 0 T))) t z
  = Some (f z t).
Proof.
  intros Ht Hz. unfold director_at.
  rewrite !lookup_map, lookup_seq_lt by done. simpl.
  rewrite !lookup_map, lookup_seq_lt by done. simpl.
  by destruct (f z t) as [[] [] []].
Qed.


Section Proofs.
Context {model : Type}.
Context (fit : list vec3 → list vec3 → result model).
Context (predict : model → vec3 → vec3).

Local Abbreviation fit_timestep := (PostureData.fit_timestep model fit predict).
Local Abbreviation fit_cross_section :=
  (PostureData.fit_cross_section model fit predict).
Local Abbreviation compute_arrays :=
  (PostureData.compute_arrays model fit predict).
Local Abbreviation compute_positions_and_directors :=
  (PostureData.compute_positions_and_directors model fit predict).

Local Abbreviation director_of := (PostureData.director_of model predict).

(** One timestep of one cross-section, on the samples of the contract. *)
Lemma fit_timestep_samples ds z t :
  Forall (λ rd, t < length rd.2) (tracked ds z) →
  fit_timestep (marker_positions ds) (map fst (tracked ds z))
    (map snd (tracked ds z)) t
  = (A ← fit (map fst (samples ds z t)) (map snd (samples ds z t));
     Ok (predict A (origin (marker_positions ds)),
         director_of (marker_positions ds) A)).
Proof.
  intros Hlen. unfold PostureData.fit_timestep.
  rewrite rows_at_ok.
  2:{ clear -Hlen. induction Hlen; simpl; by constructor. }
  simpl.
  destruct (compress_keep_samples t (tracked ds z) Hlen) as [-> ->].
  done.
Qed.

Lemma well_tracked_rows ds z T t :
  well_tracked ds z T → t < T →
  Forall (λ rd, t < length rd.2) (tracked ds z).
Proof.
  unfold well_tracked. destruct (tracked ds z) as [|first rest]; [done|].
  intros [Hfirst Hrest] Ht. constructor; [lia|].
  eapply Forall_impl; [exact Hrest|]. simpl. intros. lia.
Qed.

(** One cross-section: the series of its centers and of its directors. *)
Lemma fit_cross_section_samples ds z T (A : nat → model) :
  well_tracked ds z T →
  (∀ t, t < T →
        fit (map fst (samples ds z t)) (map snd (samples ds z t))
        = Ok (A t)) →
  fit_cross_section ds z
  = Ok (map (λ t, predict (A t) (origin (marker_positions ds))) (seq 0 T),
        map (λ t, director_of (marker_positions ds) (A t)) (seq 0 T)).
Proof.
  intros Hwt Hfit. unfold PostureData.fit_cross_section.
  rewrite collect_tracked.
  pose proof (λ t, well_tracked_rows ds z T t Hwt) as Hrows.
  unfold well_tracked in Hwt.
  destruct (tracked ds z) as [|first rest] eqn:Htrk; [done|].
  destruct Hwt as [HT _]. cbn [map]. rewrite HT.
  change (first.2 :: map snd rest) with (map snd (first :: rest)).
  change (first.1 :: map fst rest) with (map fst (first :: rest)).
  rewrite <- Htrk.
  rewrite (mapM_ok _ (λ t, (predict (A t) (origin (marker_positions ds)),
                            director_of (marker_positions ds) (A t)))).
  - simpl. by rewrite !map_map.
  - intros t Ht. apply list_elem_of_In, in_seq in Ht.
    rewrite fit_timestep_samples by (rewrite Htrk; apply Hrows; lia).
    rewrite Hfit by lia. done.
Qed.

(** The arrays of the helper, entry by entry. *)
Lemma compute_arrays_grid ds T (A : nat → nat → model) :
  let mp := marker_positions ds in
  0 < mp_len mp →
  (∀ z, z < mp_len mp → well_tracked ds z T) →
  (∀ z t, z < mp_len mp → t < T →
          fit (map fst (samples ds z t)) (map snd (samples ds z t))
          = Ok (A z t)) →
  ∃ positions directors,
    compute_arrays ds = Ok (positions, directors)
    ∧ length positions = T ∧ length directors = T
    ∧ ∀ z t, z < mp_len mp → t < T →
        position_at positions t z = Some (predict (A z t) (origin mp))
        ∧ ∃ D, director_at directors t z = Some D
               ∧ transpose D = v3_map (predict (A z t)) (transpose (Q mp)).
Proof.
  intros mp HN Hwt Hfit. unfold PostureData.compute_arrays. fold mp.
  rewrite (mapM_ok _
             (λ z, (map (λ t, predict (A z t) (origin mp)) (seq 0 T),
                    map (λ t, director_of mp (A z t)) (seq 0 T)))).
  2:{ intros z Hz. apply list_elem_of_In, in_seq in Hz.
      apply fit_cross_section_samples; [apply Hwt; lia|].
      intros t Ht. apply Hfit; [lia|done]. }
  simpl. rewrite !map_map. simpl.
  unfold stack_positions, stack_directors.
  rewrite (stack_time_grid (λ z t, predict (A z t) (origin mp))) by done.
  simpl.
  rewrite (stack_time_grid (λ z t, director_of mp (A z t))) by done.
  simpl. eexists _, _. split; [reflexivity|].
  rewrite !length_map, !length_seq. repeat split.
  - by apply (position_at_grid (λ z t, predict (A z t) (origin mp))).
  - exists (director_of mp (A z t)). split.
    + by apply (director_at_grid (λ z t, director_of mp (A z t))).
    + unfold PostureData.director_of. apply transpose_involutive.
Qed.

(** C1.  When every cross-section of the file has a tracked tag and
    series of [T] timesteps, and the regression can be fitted at every
    cross-section and timestep on the tags whose observation there has
    no NaN component, [compute_positions_and_directors] prints its three
    lines and returns arrays of [T] timesteps whose entry at [(z, t)] is,
    for the positions, the prediction of that fit at the local origin
    and, for the directors, the matrix whose columns are its predictions
    at the columns of [Q]. *)
Theorem compute_fits_surviving_tags (h5f : h5file) T
    (A : nat → nat → model) :
  let ds := tracking h5f in
  let mp := marker_positions ds in
  0 < mp_len mp →
  (∀ z, z < mp_len mp → well_tracked ds z T) →
  (∀ z t, z < mp_len mp → t < T →
          fit (map fst (samples ds z t)) (map snd (samples ds z t))
          = Ok (A z t)) →
  ∃ positions directors,
    compute_positions_and_directors h5f
    = ([Print "Posture Interpolation";
        PrintShape "positions.shape"
          (positions_shape (mp_len mp) positions);
        PrintShape "directors.shape"
          (directors_shape (mp_len mp) directors)],
       Ok (positions, directors))
    ∧ length positions = T ∧ length directors = T
    ∧ ∀ z t, z < mp_len mp → t < T →
        position_at positions t z = Some (predict (A z t) (origin mp))
        ∧ ∃ D, director_at directors t z = Some D
               ∧ transpose D = v3_map (predict (A z t)) (transpose (Q mp)).
Proof.
  intros ds mp HN Hwt Hfit.
  destruct (compute_arrays_grid ds T A HN Hwt Hfit)
    as (positions & directors & Hcompute & Hrest).
  exists positions, directors. split; [|exact Hrest].
  unfold PostureData.compute_positions_and_directors.
  fold ds. by rewrite Hcompute.
Qed.


(** C3, as the code has it.  Nothing is flagged: the output of
    [compute_positions_and_directors] holds no warning, whatever the
    dataset, and at a timestep whose rows are read the regression is
    fitted on the tags that survive, however few they are; the timestep
    fails exactly when the fit itself raises. *)
Theorem compute_flags_nothing (h5f : h5file) :
  existsb is_warning (compute_positions_and_directors h5f).1 = false
  ∧ ∀ mp euler dc t P,
      rows_at t dc = Ok P →
      is_ok (fit_timestep mp euler dc t)
      = is_ok (fit (compress (keep_mask P) euler)
                   (compress (keep_mask P) P)).
Proof.
  split.
  - unfold PostureData.compute_positions_and_directors.
    by destruct (compute_arrays (tracking h5f)) as [[ps dsz]|e].
  - intros mp euler dc t P HP. unfold PostureData.fit_timestep.
    rewrite HP. cbn [mbind result_bind]. by destruct (fit _ _).
Qed.

(** An error at one cross-section and timestep is an error of the whole
    computation. *)
Lemma compute_arrays_raises ds z T t e :
  z < mp_len (marker_positions ds) → well_tracked ds z T → t < T →
  fit (map fst (samples ds z t)) (map snd (samples ds z t)) = Raise e →
  ∃ e', compute_arrays ds = Raise e'.
Proof.
  intros Hz Hwt Ht Hfit.
  assert (∃ e1, fit_cross_section ds z = Raise e1) as [e1 He1].
  { unfold PostureData.fit_cross_section. rewrite collect_tracked.
    pose proof (well_tracked_rows ds z T t Hwt Ht) as Hrows.
    unfold well_tracked in Hwt.
    destruct (tracked ds z) as [|first rest] eqn:Htrk; [done|].
    destruct Hwt as [HT _]. cbn [map]. rewrite HT.
    change (first.2 :: map snd rest) with (map snd (first :: rest)).
    change (first.1 :: map fst rest) with (map fst (first :: rest)).
    rewrite <- Htrk.
    destruct (mapM_raise
                (fit_timestep (marker_positions ds)
                   (map fst (tracked ds z)) (map snd (tracked ds z)))
                (seq 0 T) t e) as [e1 ->].
    - apply list_elem_of_In, in_seq. lia.
    - rewrite fit_timestep_samples by (by rewrite Htrk).
      by rewrite Hfit.
    - by eexists. }
  unfold PostureData.compute_arrays.
  destruct (mapM_raise (fit_cross_section ds)
              (seq 0 (mp_len (marker_positions ds))) z e1) as [e' ->];
    [apply list_elem_of_In, in_seq; lia|done|by eexists].
Qed.

(** C4, as the code has it.  When no tracked tag of a cross-section has
    an observation without NaN at a timestep, the regression is fitted
    on the empty sample: the entry is what that fit predicts, no NaN is
    written in its place, and if the fit raises on the empty sample the
    whole computation raises. *)
Theorem all_missing_fits_empty_sample ds z T t :
  z < mp_len (marker_positions ds) → well_tracked ds z T → t < T →
  samples ds z t = [] →
  fit_timestep (marker_positions ds) (map fst (tracked ds z))
    (map snd (tracked ds z)) t
  = (A ← fit [] [];
     Ok (predict A (origin (marker_positions ds)),
         director_of (marker_positions ds) A))
  ∧ ∀ e, fit [] [] = Raise e → ∃ e', compute_arrays ds = Raise e'.
Proof.
  intros Hz Hwt Ht Hnone. split.
  - rewrite fit_timestep_samples by (by eapply well_tracked_rows).
    by rewrite Hnone.
  - intros e He. eapply compute_arrays_raises; try done.
    by rewrite Hnone.
Qed.


(** *** The posture cache *)

Local Abbreviation load_positions_and_directors :=
  (PostureData.load_positions_and_directors model fit predict).

(** C8.  Inside the [with] block, on a file that has its timestamps:
    when both arrays are in the file they are loaded as they are, nothing
    is computed or logged, and loading again gives the same instance;
    when one of them is absent, and only then, the loader logs that it
    computes, runs [compute_positions_and_directors] on the file and
    takes both arrays from it, or raises what it raises. *)
Theorem load_recomputes_iff_absent (w : world) h5f tm :
  _inside_context (self w) = true →
  file w = Some h5f →
  datasets h5f !! _time_key = Some tm →
  let w' := (load_positions_and_directors w).1 in
  let r := (load_positions_and_directors w).2 in
  match datasets h5f !! _positions_key, datasets h5f !! _directors_key with
  | Some p, Some d =>
      r = Ok tt ∧ output w' = output w
      ∧ _positions (self w') = Some p ∧ _directors (self w') = Some d
      ∧ _time (self w') = Some tm
      ∧ load_positions_and_directors w' = (w', Ok tt)
  | _, _ =>
      output w'
      = output w ++ [LogInfo "Computing positions and directors..."]
        ++ (compute_positions_and_directors h5f).1
      ∧ match (compute_positions_and_directors h5f).2 with
        | Ok (ps, dsz) =>
            r = Ok tt ∧ _positions (self w') = Some (Arr3 ps)
            ∧ _directors (self w') = Some (Arr4 dsz)
        | Raise e => r = Raise e
        end
  end.
Proof.
  intros Hctx Hfile Htime.
  destruct w as [[pth ctx ps0 ds0 tm0] fl out]. simpl in *. subst.
  unfold PostureData.load_positions_and_directors,
    raise_if_outside_context, open_file, update_self, emit, set_positions,
    set_directors, set_time.
  se_unfold. cbn [self file output _inside_context].
  destruct (datasets h5f !! _positions_key) as [p|] eqn:Hp;
    destruct (datasets h5f !! _directors_key) as [d|] eqn:Hd;
    cbn [self file output _inside_context path _positions _directors _time
         fst snd orb];
    rewrite ?Htime, ?Hp, ?Hd;
    cbn [self file output _inside_context path _positions _directors _time
         fst snd orb].
  - rewrite ?Htime, ?Hp, ?Hd.
    cbn [self file output _inside_context path _positions _directors _time
         fst snd orb].
    by rewrite ?Htime.
  - destruct (compute_positions_and_directors h5f) as [printed [[a b]|e]];
      cbn; rewrite <- ?app_assoc; done.
  - destruct (compute_positions_and_directors h5f) as [printed [[a b]|e]];
      cbn; rewrite <- ?app_assoc; done.
  - destruct (compute_positions_and_directors h5f) as [printed [[a b]|e]];
      cbn; rewrite <- ?app_assoc; done.
Qed.


(** *** What the reconstruction refuses *)

(** X9.  Without a cross-section there is nothing to stack:
    [compute_positions_and_directors] raises [ValueError] and prints
    nothing. *)
Theorem compute_needs_a_cross_section (h5f : h5file) :
  mp_len (marker_positions (tracking h5f)) = 0 →
  compute_positions_and_directors h5f = ([], Raise ValueError).
Proof.
  intros Hlen.
  unfold PostureData.compute_positions_and_directors,
    PostureData.compute_arrays.
  by rewrite Hlen.
Qed.

(** X10.  A cross-section on which no tag has a track stops the
    computation with [IndexError] (at [data_collection[0]]), when the
    cross-sections before it have been fitted. *)
Theorem compute_needs_a_track_per_cross_section ds z :
  z < mp_len (marker_positions ds) →
  tracked ds z = [] →
  (∀ z', z' < z → is_ok (fit_cross_section ds z') = true) →
  compute_arrays ds = Raise IndexError.
Proof.
  intros Hz Hnone Hbefore. unfold PostureData.compute_arrays.
  rewrite (mapM_first_raise (fit_cross_section ds) _ z z IndexError).
  - done.
  - by apply lookup_seq_lt.
  - unfold PostureData.fit_cross_section. rewrite collect_tracked.
    by rewrite Hnone.
  - intros j y Hj Hy. apply lookup_seq in Hy as [-> _].
    by apply Hbefore.
Qed.

(** X11.  Cross-sections whose series differ in their number of
    timesteps cannot be stacked: when every cross-section has been
    fitted and one has another number of timesteps than the first,
    [compute_positions_and_directors] raises [ValueError]. *)
Theorem compute_needs_equal_timesteps ds (T : nat → nat)
    (A : nat → nat → model) z :
  (∀ z', z' < mp_len (marker_positions ds) → well_tracked ds z' (T z')) →
  (∀ z' t, z' < mp_len (marker_positions ds) → t < T z' →
     fit (map fst (samples ds z' t)) (map snd (samples ds z' t))
     = Ok (A z' t)) →
  z < mp_len (marker_positions ds) → T z ≠ T 0 →
  compute_arrays ds = Raise ValueError.
Proof.
  intros Hwt Hfit Hz Hne. unfold PostureData.compute_arrays.
  set (mp := marker_positions ds) in *.
  rewrite (mapM_ok _
             (λ z', (map (λ t, predict (A z' t) (origin mp)) (seq 0 (T z')),
                     map (λ t, director_of mp (A z' t)) (seq 0 (T z'))))).
  2:{ intros z' Hz'. apply list_elem_of_In, in_seq in Hz'.
      apply fit_cross_section_samples; [apply Hwt; lia|].
      intros t Ht. apply Hfit; [lia|done]. }
  cbn [mbind result_bind]. rewrite !map_map. cbn [fst snd].
  unfold stack_positions, stack_time.
  destruct (mp_len mp) as [|N] eqn:HN; [lia|].
  cbn [seq map]. rewrite length_map, length_seq.
  destruct (forallb _ _) eqn:Hall; [|done].
  exfalso. destruct z as [|z]; [done|].
  rewrite forallb_forall in Hall.
  specialize (Hall (map (λ t, predict (A (S z) t) (origin mp))
                        (seq 0 (T (S z))))).
  rewrite length_map, length_seq in Hall.
  apply Hne, Nat.eqb_eq, Hall.
  apply in_map_iff. exists (S z). split; [done|]. apply in_seq. lia.
Qed.

(** *** Entering the [with] block *)

Local Abbreviation __enter__ := (PostureData.__enter__ model fit predict).

(** X12.  [__enter__] on a path without a file raises [AssertionError],
    and leaves the instance marked as inside its context: the flag is set
    before the assertion and nothing resets it, so that the getters no
    longer refuse and answer [None]. *)
Theorem failed_enter_leaves_context_open (w : world) :
  file w = None →
  (__enter__ w).2
  = Raise (AssertionError ("File does not exist " +:+ path (self w)
                           +:+ "."))
  ∧ _inside_context (self (__enter__ w).1) = true
  ∧ output (__enter__ w).1 = output w
  ∧ get_time (__enter__ w).1 = ((__enter__ w).1, Ok (_time (self w))).
Proof.
  intros Hfile. destruct w as [[pth ctx ps0 ds0 tm0] fl out].
  simpl in Hfile. subst.
  unfold PostureData.__enter__, update_self, set_inside_context, get_time,
    raise_if_outside_context.
  se_unfold. by cbn.
Qed.

(** X13.  [__enter__] on a file that holds the timestamps and both
    arrays serves exactly what is stored: each getter then returns the
    dataset of its key, and nothing is computed, printed or logged. *)
Theorem enter_serves_stored_arrays (w : world) h5f p d tm :
  file w = Some h5f →
  datasets h5f !! _positions_key = Some p →
  datasets h5f !! _directors_key = Some d →
  datasets h5f !! _time_key = Some tm →
  let w' := (__enter__ w).1 in
  __enter__ w = (w', Ok tt)
  ∧ output w' = output w
  ∧ get_cross_section_center_position w' = (w', Ok (Some p))
  ∧ get_cross_section_director w' = (w', Ok (Some d))
  ∧ get_time w' = (w', Ok (Some tm)).
Proof.
  intros Hfile Hp Hd Htm. destruct w as [[pth ctx ps0 ds0 tm0] fl out].
  simpl in Hfile. subst.
  unfold PostureData.__enter__, PostureData.load_positions_and_directors,
    get_time, get_cross_section_center_position,
    get_cross_section_director, raise_if_outside_context, open_file,
    update_self, emit, set_positions, set_directors, set_time,
    set_inside_context.
  se_unfold.
  cbn [self file output _inside_context path _positions _directors _time
       fst snd orb].
  rewrite (bool_decide_eq_true_2 (is_Some (Some h5f)))
    by (by eexists).
  cbn [self file output _inside_context path _positions _directors _time
       fst snd orb].
  rewrite Hp, Hd, Htm.
  cbn [self file output _inside_context path _positions _directors _time
       fst snd orb].
  rewrite ?Hp, ?Hd, ?Htm.
  by cbn [self file output _inside_context path _positions _directors _time
          fst snd orb].
Qed.


End Proofs.

(** *** The example dataset *)

Lemma compute_fits_surviving_tags_witness :
  ∃ positions directors,
    PostureExample.compute_positions_and_directors
      (PostureExample.raw_file PostureExample.tracks)
    = ([Print "Posture Interpolation";
        PrintShape "positions.shape" (positions_shape 1 positions);
        PrintShape "directors.shape" (directors_shape 1 directors)],
       Ok (positions, directors))
    ∧ length positions = 2 ∧ length directors = 2
    ∧ ∀ z t, z < 1 → t < 2 →
        position_at positions t z
        = Some (PostureExample.predict
                  (if decide (t = 0) then PostureExample.seen
                   else PostureExample.seen_later)
                  (origin PostureExample.ring))
        ∧ ∃ D, director_at directors t z = Some D
               ∧ transpose D
                 = v3_map (PostureExample.predict
                             (if decide (t = 0) then PostureExample.seen
                              else PostureExample.seen_later))
                     (transpose (Q PostureExample.ring)).
Proof.
  apply (compute_fits_surviving_tags PostureExample.fit
           PostureExample.predict
           (PostureExample.raw_file PostureExample.tracks) 2
           (λ z t, if decide (t = 0) then PostureExample.seen
                   else PostureExample.seen_later)).
  - repeat constructor.
  - intros [|z] Hz; [|cbn in Hz; lia]. split; [done|].
    by repeat constructor.
  - intros [|z] [|[|t]] Hz Ht; cbn in Hz; try lia; reflexivity.
Defined.

(** A cross-section with one observed tag is fitted like any other:
    the call returns its arrays and prints its three lines. *)
Lemma one_tag_is_fitted_silently :
  length (samples PostureExample.tracks 0 0) = 1
  ∧ ∃ arrays,
      PostureExample.compute_positions_and_directors
        (PostureExample.raw_file PostureExample.tracks)
      = ([Print "Posture Interpolation";
          PrintShape "positions.shape" [2; 3; 1];
          PrintShape "directors.shape" [2; 3; 3; 1]], Ok arrays)
      ∧ position_at arrays.1 0 0 = Some PostureExample.seen.
Proof. split; [done|]. eexists. split; vm_compute; reflexivity. Qed.

Lemma compute_flags_nothing_witness :
  existsb is_warning
    (PostureExample.compute_positions_and_directors
       (PostureExample.raw_file PostureExample.tracks)).1 = false
  ∧ ∀ mp euler dc t P,
      rows_at t dc = Ok P →
      is_ok (PostureData.fit_timestep vec3 PostureExample.fit
               PostureExample.predict mp euler dc t)
      = is_ok (PostureExample.fit (compress (keep_mask P) euler)
                 (compress (keep_mask P) P)).
Proof.
  apply (compute_flags_nothing PostureExample.fit PostureExample.predict
           (PostureExample.raw_file PostureExample.tracks)).
Defined.

(** With every tag missing at timestep 0 the call raises. *)
Lemma all_missing_raises :
  samples PostureExample.tracks_lost 0 0 = []
  ∧ PostureExample.compute_positions_and_directors
      (PostureExample.raw_file PostureExample.tracks_lost)
    = ([], Raise ValueError).
Proof. split; vm_compute; reflexivity. Qed.

Lemma all_missing_fits_empty_sample_witness :
  PostureData.fit_timestep vec3 PostureExample.fit PostureExample.predict
    (marker_positions PostureExample.tracks_lost)
    (map fst (tracked PostureExample.tracks_lost 0))
    (map snd (tracked PostureExample.tracks_lost 0)) 0
  = (A ← PostureExample.fit [] [];
     Ok (PostureExample.predict A
           (origin (marker_positions PostureExample.tracks_lost)),
         PostureData.director_of vec3 PostureExample.predict
           (marker_positions PostureExample.tracks_lost) A))
  ∧ ∀ e, PostureExample.fit [] [] = Raise e →
         ∃ e', PostureData.compute_arrays vec3 PostureExample.fit
                 PostureExample.predict PostureExample.tracks_lost
               = Raise e'.
Proof.
  apply (all_missing_fits_empty_sample PostureExample.fit
           PostureExample.predict PostureExample.tracks_lost 0 2 0).
  - repeat constructor.
  - split; [done|]. by repeat constructor.
  - repeat constructor.
  - reflexivity.
Defined.


Lemma load_recomputes_iff_absent_witness :
  let w' := (PostureExample.load_positions_and_directors
               (PostureExample.session PostureExample.cached_file)).1 in
  (PostureExample.load_positions_and_directors
     (PostureExample.session PostureExample.cached_file)).2 = Ok tt
  ∧ output w' = []
  ∧ _positions (self w') = Some PostureExample.stored_positions
  ∧ _directors (self w') = Some PostureExample.stored_directors
  ∧ _time (self w') = Some PostureExample.timestamps
  ∧ PostureExample.load_positions_and_directors w' = (w', Ok tt).
Proof.
  exact (load_recomputes_iff_absent PostureExample.fit
           PostureExample.predict
           (PostureExample.session PostureExample.cached_file)
           PostureExample.cached_file PostureExample.timestamps
           eq_refl eq_refl eq_refl).
Defined.

(** On a file without the two arrays the loader computes them. *)
Example load_computes_on_raw_file :
  let w' := (PostureExample.load_positions_and_directors
               (PostureExample.session
                  (PostureExample.raw_file PostureExample.tracks))).1 in
  output w'
  = [LogInfo "Computing positions and directors...";
     Print "Posture Interpolation";
     PrintShape "positions.shape" [2; 3; 1];
     PrintShape "directors.shape" [2; 3; 3; 1]]
  ∧ (_positions (self w') ≫= λ a,
       match a with Arr3 ps => position_at ps 0 0 | _ => None end)
    = Some PostureExample.seen.
Proof. split; vm_compute; reflexivity. Qed.


Lemma compute_needs_a_cross_section_witness :
  PostureExample.compute_positions_and_directors
    (PostureExample.raw_file PostureExample.tracks_no_ring)
  = ([], Raise ValueError).
Proof.
  apply (compute_needs_a_cross_section PostureExample.fit
           PostureExample.predict
           (PostureExample.raw_file PostureExample.tracks_no_ring)).
  reflexivity.
Defined.

Lemma compute_needs_a_track_per_cross_section_witness :
  PostureData.compute_arrays vec3 PostureExample.fit PostureExample.predict
    PostureExample.tracks_untracked
  = Raise IndexError.
Proof.
  apply (compute_needs_a_track_per_cross_section PostureExample.fit
           PostureExample.predict PostureExample.tracks_untracked 0).
  - simpl. lia.
  - reflexivity.
  - intros z' Hz'. lia.
Defined.

Lemma compute_needs_equal_timesteps_witness :
  PostureData.compute_arrays vec3 PostureExample.fit PostureExample.predict
    PostureExample.tracks_uneven
  = Raise ValueError.
Proof.
  apply (compute_needs_equal_timesteps PostureExample.fit
           PostureExample.predict PostureExample.tracks_uneven
           (λ z, match z with 0 => 2 | _ => 1 end)
           (λ z t, match z, t with
                   | 0, 0 => PostureExample.seen
                   | 0, _ => PostureExample.seen_later
                   | _, _ => PostureExample.seen
                   end)
           1).
  - intros [|[|z']] Hz'; [by vm_compute..|simpl in Hz'; lia].
  - intros [|[|z']] [|[|t]] Hz' Ht; simpl in Hz', Ht; try lia;
      reflexivity.
  - simpl. lia.
  - simpl. lia.
Defined.

Lemma failed_enter_leaves_context_open_witness :
  (PostureExample.__enter__ (PostureExample.closed None)).2
  = Raise (AssertionError "File does not exist run.h5.")
  ∧ _inside_context
      (self (PostureExample.__enter__ (PostureExample.closed None)).1)
    = true
  ∧ output (PostureExample.__enter__ (PostureExample.closed None)).1 = []
  ∧ get_time (PostureExample.__enter__ (PostureExample.closed None)).1
    = ((PostureExample.__enter__ (PostureExample.closed None)).1, Ok None).
Proof.
  apply (failed_enter_leaves_context_open PostureExample.fit
           PostureExample.predict (PostureExample.closed None)).
  reflexivity.
Defined.

Lemma enter_serves_stored_arrays_witness :
  PostureExample.__enter__
    (PostureExample.closed (Some PostureExample.cached_file))
  = ((PostureExample.__enter__
        (PostureExample.closed (Some PostureExample.cached_file))).1, Ok tt)
  ∧ output (PostureExample.__enter__
              (PostureExample.closed (Some PostureExample.cached_file))).1
    = []
  ∧ get_cross_section_center_position
      (PostureExample.__enter__
         (PostureExample.closed (Some PostureExample.cached_file))).1
    = ((PostureExample.__enter__
          (PostureExample.closed (Some PostureExample.cached_file))).1,
       Ok (Some PostureExample.stored_positions))
  ∧ get_cross_section_director
      (PostureExample.__enter__
         (PostureExample.closed (Some PostureExample.cached_file))).1
    = ((PostureExample.__enter__
          (PostureExample.closed (Some PostureExample.cached_file))).1,
       Ok (Some PostureExample.stored_directors))
  ∧ get_time
      (PostureExample.__enter__
         (PostureExample.closed (Some PostureExample.cached_file))).1
    = ((PostureExample.__enter__
          (PostureExample.closed (Some PostureExample.cached_file))).1,
       Ok (Some PostureExample.timestamps)).
Proof.
  apply (enter_serves_stored_arrays PostureExample.fit
           PostureExample.predict
           (PostureExample.closed (Some PostureExample.cached_file))
           PostureExample.cached_file);
    reflexivity.
Defined.


End ReconstructorProofs.

(** ** The augmentation script *)

Module ScriptProofs.
Import PostureData AugmentScript.

Section Proofs.
Context (config : gmap string pyval).
Context (str_format : string → Z → result string).
Context {center director : Type}.
Context (get_center_and_normal :
           list (tag * vec3) → nat → result (center * director)).

Local Abbreviation main :=
  (AugmentScript.main config str_format center director
     get_center_and_normal).
Local Abbreviation module_globals := (AugmentScript.module_globals config).
Local Abbreviation world := (AugmentScript.world center director).

(** A name that neither the module nor [config] binds is not a global. *)
Lemma module_globals_file_path :
  config !! "file_path" = None → module_globals !! "file_path" = None.
Proof.
  intros H. unfold AugmentScript.module_globals.
  rewrite !lookup_insert_ne by done. rewrite lookup_union_None.
  split; [done|]. by rewrite !lookup_insert_ne.
Qed.

Lemma module_globals_np :
  ∃ v, module_globals !! "np" = Some v
       ∧ (config !! "np" = None → v = PyModule "numpy").
Proof.
  unfold AugmentScript.module_globals.
  rewrite !lookup_insert_ne by done.
  destruct (config !! "np") as [v|] eqn:Hnp.
  - exists v. split; [|done]. by apply lookup_union_Some_l.
  - exists (PyModule "numpy"). split; [|done].
    rewrite lookup_union_r by done.
    rewrite !lookup_insert_ne by done. by rewrite lookup_insert_eq.
Qed.

Lemma module_globals_template :
  module_globals !! "PREPROCESSED_POSITION_PATH"
  = config !! "PREPROCESSED_POSITION_PATH".
Proof.
  unfold AugmentScript.module_globals.
  rewrite !lookup_insert_ne by done.
  destruct (config !! "PREPROCESSED_POSITION_PATH") as [v|] eqn:H.
  - by apply lookup_union_Some_l.
  - apply lookup_union_None. split; [done|].
    by rewrite !lookup_insert_ne.
Qed.

Lemma global_eq name (w : world) :
  AugmentScript.global config center director name w
  = (w, match module_globals !! name with
        | Some v => Ok v
        | None => Raise (NameError name)
        end).
Proof. done. Qed.

(** C10.  When [config] binds no name [file_path], [main] raises for
    every [runid] and [n_ring] before anything is loaded, printed or
    saved; and once line 10 has built its path (the template is a string
    that [format] accepts) and [np] is still numpy, what it raises is
    the [NameError] of [file_path]. *)
Theorem main_raises_before_loading (runid : Z) (n_ring : nat) (w : world) :
  config !! "file_path" = None →
  (∃ e, main runid n_ring w = (w, Raise e))
  ∧ ∀ template path,
      config !! "PREPROCESSED_POSITION_PATH" = Some (PyStr template) →
      str_format template runid = Ok path →
      config !! "np" = None →
      main runid n_ring w = (w, Raise (NameError "file_path")).
Proof.
  intros Hfp. pose proof (module_globals_file_path Hfp) as Hg.
  destruct module_globals_np as (np & Hnp & Hnumpy).
  pose proof module_globals_template as Htmpl.
  split.
  - unfold AugmentScript.main. se_unfold. rewrite !global_eq.
    rewrite Htmpl, Hnp, Hg.
    destruct (config !! "PREPROCESSED_POSITION_PATH") as [[| |tmpl| |]|];
      try (by eexists).
    destruct (str_format tmpl runid) as [path|e]; [|by eexists].
    destruct (match np with PyModule "numpy" => Ok tt | _ => _ end)
      as [[]|e] eqn:Hmod; by eexists.
  - intros template path Ht Hf Hnone.
    rewrite (Hnumpy Hnone) in Hnp.
    unfold AugmentScript.main. se_unfold. rewrite !global_eq.
    by rewrite Htmpl, Hnp, Hg, Ht, Hf.
Qed.

(** *** The labelled points of a timestep *)

Lemma script_dict_set_fresh {V} (k : tag) (v : V) (d : list (tag * V)) :
  k ∉ d.*1 → AugmentScript.dict_set k v d = d ++ [(k, v)].
Proof.
  induction d as [|[k' v'] d IH]; simpl; [done|].
  intros Hk. apply not_elem_of_cons in Hk as [Hne Hk].
  rewrite decide_False by done. by rewrite IH.
Qed.

Lemma label_points_acc (tgs : list tag) :
  NoDup tgs →
  ∀ points labelled,
    (∀ k, k ∈ labelled.*1 → k ∉ tgs) →
    label_points tgs points labelled
    = labelled ++ filter (λ kv, all_nan kv.2 = false) (zip tgs points).
Proof.
  induction 1 as [|tg tgs Hfresh Hnd IH]; intros points labelled Hdisj.
  - simpl. by rewrite app_nil_r.
  - destruct points as [|p points]; cbn [label_points zip_with];
      [by rewrite filter_nil, app_nil_r|].
    destruct (all_nan p) eqn:Hp.
    + rewrite filter_cons_False by (cbn [snd]; congruence).
      apply IH. intros k Hk. specialize (Hdisj k Hk).
      by apply not_elem_of_cons in Hdisj as [_ ?].
    + rewrite filter_cons_True by done.
      rewrite script_dict_set_fresh.
      2:{ intros Hin. specialize (Hdisj tg Hin). apply Hdisj. left. }
      rewrite IH; [by rewrite <-(assoc_L (++))|].
      intros k Hk. rewrite fmap_app in Hk.
      apply elem_of_app in Hk as [Hk| ->%list_elem_of_singleton]; [|done].
      specialize (Hdisj k Hk).
      by apply not_elem_of_cons in Hdisj as [_ ?].
Qed.

(** X14.  The points that the script hands to [get_center_and_normal]
    at a timestep are, in the order of the tags, those that are not NaN
    in all three coordinates: a point with one or two NaN coordinates is
    kept (the posture reconstruction drops such a point). *)
Theorem label_points_drops_fully_missing_only (tgs : list tag) points :
  NoDup tgs →
  label_points tgs points []
  = filter (λ kv, all_nan kv.2 = false) (zip tgs points).
Proof.
  intros Hnd. rewrite (label_points_acc tgs Hnd points []); [done|].
  intros k Hk. by apply elem_of_nil in Hk.
Qed.

(** X15.  On an archive whose positions have no timestep, [main] reads
    the archive, prints the two shapes [(0,)] and raises [IndexError] at
    [cross_section_center_position[0,...]]: nothing is saved. *)
Theorem main_without_timesteps_saves_nothing (runid : Z) (n_ring : nat)
    (w : world) template out_path p data a tgs fn :
  module_globals !! "PREPROCESSED_POSITION_PATH" = Some (PyStr template) →
  str_format template runid = Ok out_path →
  module_globals !! "np" = Some (PyModule "numpy") →
  module_globals !! "file_path" = Some (PyStr p) →
  module_globals !! "get_center_and_normal" = Some fn →
  fs w !! p = Some data →
  data !! "position" = Some (NpPosition 0 a) →
  data !! "tags" = Some (NpTags tgs) →
  main runid n_ring w
  = ({| fs := fs w; loaded := loaded w ++ [p];
        stdout := stdout w
                  ++ [PrintShape "cross_section_center_position.shape" [0]]
                  ++ [PrintShape "cross_section_director.shape" [0]] |},
     Raise IndexError).
Proof.
  intros Htmpl Hfmt Hnp Hfp Hfn Hfile Hpos Htags.
  unfold AugmentScript.main, np_load, AugmentScript.print. se_unfold.
  rewrite !global_eq. rewrite Htmpl, Hfmt, Hnp, Hfp.
  cbn [fs loaded stdout]. rewrite Hfile, Hpos, Htags.
  rewrite !global_eq. rewrite Hfn.
  cbn [augment seq fs loaded stdout length mbind]. by rewrite <-(assoc_L (++)).
Qed.


End Proofs.

Lemma main_raises_before_loading_witness :
  (∃ e, ScriptExample.main ScriptExample.config 1 5 ScriptExample.disk
        = (ScriptExample.disk, Raise e))
  ∧ ∀ template path,
      ScriptExample.config !! "PREPROCESSED_POSITION_PATH"
      = Some (PyStr template) →
      ScriptExample.str_format template 1 = Ok path →
      ScriptExample.config !! "np" = None →
      ScriptExample.main ScriptExample.config 1 5 ScriptExample.disk
      = (ScriptExample.disk, Raise (NameError "file_path")).
Proof.
  apply (main_raises_before_loading ScriptExample.config
           ScriptExample.str_format ScriptExample.get_center_and_normal
           1 5 ScriptExample.disk).
  reflexivity.
Defined.

(** The script as it stands raises the [NameError]; with a [config] that
    binds [file_path] it reads the archive and saves the centers and the
    directors beside the arrays it read. *)
Example main_on_example_configs :
  ScriptExample.main ScriptExample.config 1 5 ScriptExample.disk
  = (ScriptExample.disk, Raise (NameError "file_path"))
  ∧ ∃ w', ScriptExample.main ScriptExample.config_with_file_path 1 5
            ScriptExample.disk = (w', Ok tt)
          ∧ loaded w' = ["data/run_1.npz"]
          ∧ (fs w' !! "data/run_1.npz" ≫= (.!! "cross_section_director"))
            = Some (NpDirectors
                      [PostureExample.seen; PostureExample.seen_later]).
Proof.
  split; [vm_compute; reflexivity|].
  eexists. split; [vm_compute; reflexivity|]. split; vm_compute; reflexivity.
Qed.


Lemma label_points_drops_fully_missing_only_witness :
  label_points ["a"; "b"]
    [mkV3 nan PostureExample.f64_one nan; PostureExample.missing] []
  = [("a", mkV3 nan PostureExample.f64_one nan)].
Proof.
  apply (label_points_drops_fully_missing_only ["a"; "b"]
           [mkV3 nan PostureExample.f64_one nan; PostureExample.missing]).
  apply (bool_decide_unpack _). by vm_compute.
Defined.

Lemma main_without_timesteps_saves_nothing_witness :
  ScriptExample.main ScriptExample.config_with_file_path 1 5
    ScriptExample.disk_without_timesteps
  = ({| fs := fs ScriptExample.disk_without_timesteps;
        loaded := [] ++ ["data/run_1.npz"];
        stdout := [] ++ [PrintShape "cross_section_center_position.shape"
                           [0]]
                  ++ [PrintShape "cross_section_director.shape" [0]] |},
     Raise IndexError).
Proof.
  apply (main_without_timesteps_saves_nothing
           ScriptExample.config_with_file_path ScriptExample.str_format
           ScriptExample.get_center_and_normal 1 5
           ScriptExample.disk_without_timesteps
           "data/run_{}.npz" "data/run_1.npz" "data/run_1.npz"
           {[ "position" := NpPosition 0 [[]; []];
              "tags" := NpTags ["a"; "b"] ]}
           [[]; []] ["a"; "b"] (PyFunction "get_center_and_normal"));
    by vm_compute.
Defined.


End ScriptProofs.

(** ** The choice of the initial points *)

Module SelectionProofs.
Import InitialFlowPoint.

(** The key that ends the inquiry, [d] or [a], makes no difference to
    what the loop leaves in [_uv]. *)
Lemma inquiry_loop_cancel_is_accept clicks :
  ∀ passes uv _uv original_uv printed,
    (λ r, (r.1.2, r.2))
      <$> inquiry_loop (passes ++ [{| during := clicks; waitKey := ord_d |}])
            uv _uv original_uv printed
    = (λ r, (r.1.2, r.2))
        <$> inquiry_loop
              (passes ++ [{| during := clicks; waitKey := ord_a |}])
              uv _uv original_uv printed.
Proof.
  induction passes as [|ps passes IH]; intros uv _uv original_uv printed.
  - done.
  - cbn [app inquiry_loop].
    destruct (Z.land (waitKey ps) 255 =? ord_d)%Z; [done|].
    destruct (Z.land (waitKey ps) 255 =? ord_a)%Z; [done|].
    destruct (Z.land (waitKey ps) 255 =? ord_h)%Z; apply IH.
Qed.

(** Without a left click [_uv] is [original_uv] when the loop ends. *)
Lemma inquiry_loop_without_click original_uv :
  ∀ passes uv printed r,
    Forall (λ ps, Forall (λ ev, m_event ev ≠ EVENT_LBUTTONDOWN) (during ps))
           passes →
    inquiry_loop passes uv original_uv original_uv printed = Some r →
    r.1.2 = original_uv.
Proof.
  assert (∀ evs, Forall (λ ev, m_event ev ≠ EVENT_LBUTTONDOWN) evs →
                 fold_left (λ uv ev, on_mouse_zoom ev uv original_uv) evs
                           original_uv = original_uv) as Hfold.
  { induction 1 as [|ev evs Hev _ IH]; [done|]. simpl.
    unfold on_mouse_zoom at 2.
    apply Z.eqb_neq in Hev. rewrite Hev.
    by destruct (m_event ev =? EVENT_RBUTTONDOWN)%Z. }
  induction passes as [|ps passes IH]; intros uv printed r Hno; [done|].
  apply Forall_cons in Hno as [Hps Hno].
  cbn [inquiry_loop]. rewrite (Hfold _ Hps).
  destruct (Z.land (waitKey ps) 255 =? ord_d)%Z; [by intros [= <-]|].
  destruct (Z.land (waitKey ps) 255 =? ord_a)%Z; [by intros [= <-]|].
  destruct (Z.land (waitKey ps) 255 =? ord_h)%Z; by apply IH.
Qed.

Section Proofs.
Context {label : Type} (empty_str : label).
Context (show_zoom : pixel → result unit).

Local Abbreviation zoomed_inquiry :=
  (InitialFlowPoint.zoomed_inquiry show_zoom).
Local Abbreviation mouse_event_click_point :=
  (InitialFlowPoint.mouse_event_click_point label show_zoom).
Local Abbreviation frame_label := (InitialFlowPoint.frame_label label).

(** X16.  In the zoomed window the key [d] (cancel) does what the key
    [a] (accept) does: it sets the local name [uv], which is not read
    again, and the point returned is computed from [_uv], so that a
    click made before the cancel is returned all the same. *)
Theorem zoomed_inquiry_cancel_is_accept uv scale disp_h disp_w passes
    clicks :
  zoomed_inquiry uv scale disp_h disp_w
    (passes ++ [{| during := clicks; waitKey := ord_d |}])
  = zoomed_inquiry uv scale disp_h disp_w
      (passes ++ [{| during := clicks; waitKey := ord_a |}]).
Proof.
  unfold InitialFlowPoint.zoomed_inquiry. destruct uv as [x y].
  destruct (show_zoom (x, y)) as [[]|e]; [|done].
  pose proof (inquiry_loop_cancel_is_accept clicks passes (x, y)
                (disp_w * scale ÷ 2, disp_h * scale ÷ 2)%Z
                (disp_w * scale ÷ 2, disp_h * scale ÷ 2)%Z
                ["zoomed-in inquiry"; help_line]) as H.
  destruct (inquiry_loop (passes ++ [{| during := clicks;
                                        waitKey := ord_d |}]) _ _ _ _)
    as [[[uv1 _uv1] pr1]|];
    destruct (inquiry_loop (passes ++ [{| during := clicks;
                                          waitKey := ord_a |}]) _ _ _ _)
      as [[[uv2 _uv2] pr2]|];
    simpl in H; try done.
  injection H as -> ->. done.
Qed.

(** X17.  An inquiry in which no left click is made returns the point
    it was opened at: the centre of the zoomed window maps back to the
    point, for every whole scale and window size. *)
Theorem zoomed_inquiry_without_click_returns_point uv scale disp_h disp_w
    passes pt out :
  (0 < scale)%Z → (0 ≤ disp_h)%Z → (0 ≤ disp_w)%Z →
  Forall (λ ps, Forall (λ ev, m_event ev ≠ EVENT_LBUTTONDOWN) (during ps))
         passes →
  zoomed_inquiry uv scale disp_h disp_w passes = Some (Ok (pt, out)) →
  pt = uv.
Proof.
  intros Hs Hh Hw Hno. unfold InitialFlowPoint.zoomed_inquiry.
  destruct uv as [x y]. destruct (show_zoom (x, y)) as [[]|e]; [|done].
  destruct (inquiry_loop passes _ _ _ _) as [[[uv1 _uv1] pr1]|] eqn:Hloop;
    [|done].
  apply inquiry_loop_without_click in Hloop; [|done].
  simpl in Hloop. subst _uv1. simpl. intros [= <- _].
  assert (∀ d, (0 ≤ d)%Z → (d * scale ÷ 2 ÷ scale = d / 2)%Z) as Hmid.
  { intros d Hd.
    rewrite (Z.quot_div_nonneg (d * scale) 2) by lia.
    rewrite Z.quot_div_nonneg by (try apply Z.div_pos; lia).
    rewrite Z.div_div by lia.
    apply Z.div_mul_cancel_r; lia. }
  rewrite !Hmid by done. f_equal; lia.
Qed.

Lemma frame_label_aligned (pts : list pixel) (tgs : list label) :
  length pts = length tgs → frame_label pts tgs = Ok (zip pts tgs).
Proof.
  intros Hlen. unfold InitialFlowPoint.frame_label.
  rewrite (mapM_ok _ (λ inx, (default (0, 0)%Z (pts !! inx),
                              default empty_str (tgs !! inx)))).
  - f_equal. apply list_eq. intros i.
    rewrite lookup_map, lookup_zip_with.
    destruct (pts !! i) as [pt|] eqn:Hpt.
    + rewrite lookup_seq_lt by (by eapply lookup_lt_Some). simpl.
      rewrite Hpt. simpl.
      destruct (tgs !! i) as [tg|] eqn:Htg; [done|].
      apply lookup_ge_None in Htg. apply lookup_lt_Some in Hpt. lia.
    + apply lookup_ge_None in Hpt. by rewrite lookup_seq_ge.
  - intros inx Hin. apply list_elem_of_In, in_seq in Hin.
    destruct (lookup_lt_is_Some_2 pts inx) as [pt ->]; [lia|].
    destruct (lookup_lt_is_Some_2 tgs inx) as [tg ->]; [lia|]. done.
Qed.

Lemma frame_label_unlabelled (pts : list pixel) (tgs : list label) pt :
  length pts = length tgs →
  frame_label (pts ++ [pt]) tgs = Raise IndexError.
Proof.
  intros Hlen. unfold InitialFlowPoint.frame_label.
  apply (mapM_first_raise _ _ (length pts) (length pts)).
  - rewrite length_app. simpl. apply lookup_seq_lt. lia.
  - rewrite lookup_app_r by lia. rewrite Nat.sub_diag. simpl.
    by rewrite (lookup_ge_None_2 tgs) by lia.
  - intros j y Hj Hy. apply lookup_seq in Hy as [-> _]. simpl.
    rewrite lookup_app_l by lia.
    destruct (lookup_lt_is_Some_2 pts j) as [p' ->]; [lia|].
    destruct (lookup_lt_is_Some_2 tgs j) as [tg ->]; [lia|]. done.
Qed.

(** X18.  A prompt that is cancelled leaves the clicked point in
    [points] without a label in [marker_label]: the point is appended
    before the prompt is asked.  From lists of equal length, the next
    [frame_label], which [main] calls at every redraw, raises
    [IndexError]. *)
Theorem cancelled_prompt_leaves_point_without_label (ev : mouse) zoom
    (s : selection label) :
  m_event ev = EVENT_LBUTTONDOWN →
  Z.land (m_flags ev) EVENT_FLAG_CTRLKEY = 0%Z →
  length (points s) = length (marker_label s) →
  ∃ s', mouse_event_click_point ev zoom None s = Some (Ok s')
        ∧ points s' = points s ++ [(m_x ev, m_y ev)]
        ∧ marker_label s' = marker_label s
        ∧ prev_tag s' = prev_tag s
        ∧ frame_label (points s') (marker_label s') = Raise IndexError.
Proof.
  intros Hev Hflags Hlen. unfold InitialFlowPoint.mouse_event_click_point.
  rewrite Hev, Hflags. cbn [Z.eqb negb]. eexists. split; [done|].
  cbn [points marker_label prev_tag]. repeat split.
  by apply frame_label_unlabelled.
Qed.

(** X19.  A click that is labelled, by the prompt or with the control
    key, keeps the two lists aligned: from lists of equal length the
    lists are again of equal length, [frame_label] draws every point
    with its own label, and the label given becomes [prev_tag]. *)
Theorem labelled_click_keeps_lists_aligned (ev : mouse) zoom answer
    (s s' : selection label) :
  mouse_event_click_point ev zoom answer s = Some (Ok s') →
  Z.land (m_flags ev) EVENT_FLAG_CTRLKEY ≠ 0%Z ∨ is_Some answer →
  length (points s) = length (marker_label s) →
  length (points s') = length (marker_label s')
  ∧ frame_label (points s') (marker_label s')
    = Ok (zip (points s') (marker_label s'))
  ∧ (s' = s ∨ last (marker_label s') = Some (prev_tag s')).
Proof.
  intros Hclick Hlabel Hlen.
  assert (length (points s') = length (marker_label s')
          ∧ (s' = s ∨ last (marker_label s') = Some (prev_tag s')))
    as [Hlen' Hlast].
  { revert Hclick. unfold InitialFlowPoint.mouse_event_click_point.
    assert (∀ point out s1,
              (if negb (Z.land (m_flags ev) EVENT_FLAG_CTRLKEY =? 0)%Z
               then {| points := points s ++ [point];
                       marker_label := marker_label s ++ [prev_tag s];
                       prev_tag := prev_tag s;
                       printed := out ++ [Text "added: ";
                                          Added point (prev_tag s)] |}
               else match answer with
                    | None =>
                        {| points := points s ++ [point];
                           marker_label := marker_label s;
                           prev_tag := prev_tag s;
                           printed := out ++ [Text "canceled"] |}
                    | Some tg =>
                        {| points := points s ++ [point];
                           marker_label := marker_label s ++ [tg];
                           prev_tag := tg;
                           printed := out ++ [Text "added: ";
                                              Added point tg] |}
                    end) = s1 →
              length (points s1) = length (marker_label s1)
              ∧ (s1 = s ∨ last (marker_label s1) = Some (prev_tag s1)))
      as Hlabelled.
    { intros point out s1 <-.
      destruct (Z.land (m_flags ev) EVENT_FLAG_CTRLKEY =? 0)%Z eqn:Hctrl;
        cbn [negb].
      - apply Z.eqb_eq in Hctrl.
        destruct Hlabel as [?|[tg ->]]; [done|].
        cbn [points marker_label prev_tag].
        rewrite !length_app, last_snoc. simpl. split; [lia|by right].
      - cbn [points marker_label prev_tag].
        rewrite !length_app, last_snoc. simpl. split; [lia|by right]. }
    destruct (m_event ev =? EVENT_LBUTTONDOWN)%Z.
    - intros [= Hs']. by eapply Hlabelled.
    - destruct (m_event ev =? EVENT_RBUTTONDOWN)%Z.
      + destruct (InitialFlowPoint.zoomed_inquiry _ _ _ _ _ _)
          as [[[uv out]|e]|]; [|done..].
        intros [= Hs']. by eapply Hlabelled.
      + intros [= <-]. split; [done|by left]. }
  split; [done|]. split; [|done]. by apply frame_label_aligned.
Qed.

End Proofs.

Lemma zoomed_inquiry_cancel_is_accept_witness :
  SelectionExample.zoomed_inquiry (100, 50)%Z
    (SelectionExample.click_then ord_d)
  = Some (Ok ((102, 49)%Z, ["zoomed-in inquiry"; help_line])).
Proof.
  transitivity (SelectionExample.zoomed_inquiry (100, 50)%Z
                  (SelectionExample.click_then ord_a)); [|reflexivity].
  exact (zoomed_inquiry_cancel_is_accept SelectionExample.show_zoom
           (100, 50)%Z 5 80 80
           [SelectionExample.idle;
            {| during := [SelectionExample.left_click 210 195];
               waitKey := -1 |}] []).
Defined.

Lemma zoomed_inquiry_without_click_returns_point_witness :
  (100, 50)%Z = (100, 50)%Z
  ∧ SelectionExample.zoomed_inquiry (100, 50)%Z
      [SelectionExample.idle; SelectionExample.press ord_h;
       SelectionExample.press ord_a]
    = Some (Ok ((100, 50)%Z,
                ["zoomed-in inquiry"; help_line; help_line])).
Proof.
  split; [|reflexivity].
  apply (zoomed_inquiry_without_click_returns_point
           SelectionExample.show_zoom (100, 50)%Z 5 80 80
           [SelectionExample.idle; SelectionExample.press ord_h;
            SelectionExample.press ord_a]
           (100, 50)%Z ["zoomed-in inquiry"; help_line; help_line]);
    [lia | lia | lia | | reflexivity].
  repeat constructor; discriminate.
Defined.

Lemma cancelled_prompt_leaves_point_without_label_witness :
  ∃ s', SelectionExample.mouse_event_click_point
          (SelectionExample.left_click 30 40) [] None
          SelectionExample.one_point = Some (Ok s')
        ∧ points s' = [(10, 20)%Z] ++ [(30, 40)%Z]
        ∧ marker_label s' = ["a"]
        ∧ prev_tag s' = "a"
        ∧ InitialFlowPoint.frame_label string (points s') (marker_label s')
          = Raise IndexError.
Proof.
  apply (cancelled_prompt_leaves_point_without_label
           SelectionExample.show_zoom (SelectionExample.left_click 30 40)
           [] SelectionExample.one_point);
    reflexivity.
Defined.

Lemma labelled_click_keeps_lists_aligned_witness :
  InitialFlowPoint.frame_label string
    [(10, 20); (102, 49)]%Z ["a"; "b"]
  = Ok (zip [(10, 20); (102, 49)]%Z ["a"; "b"]).
Proof.
  apply (labelled_click_keeps_lists_aligned "" SelectionExample.show_zoom
           (SelectionExample.right_click 100 50)
           (SelectionExample.click_then ord_a) (Some "b")
           SelectionExample.one_point
           {| points := [(10, 20); (102, 49)]%Z;
              marker_label := ["a"; "b"]; prev_tag := "b";
              printed := map Text ["zoomed-in inquiry"; help_line]
                         ++ [Text "added: "; Added (102, 49)%Z "b"] |}).
  - reflexivity.
  - right. by eexists.
  - reflexivity.
Defined.

End SelectionProofs.
